(** * The [xml] module: path-grammar decomposition and node synthesis

    A shallow embedding of [library/xml.py]: the six trailing-segment
    patterns and [split_xpath_last], the recursive synthesizer
    [check_or_make_target] with [ensure_xpath_exists], the children
    reconciler [set_target_children_inner] and the removal
    [delete_xpath_target], over a store of mutable lxml elements. *)

From Stdlib Require Import Ascii String.
From stdpp Require Import base option list strings gmap.

#[local] Set Warnings "-register-all".

Local Open Scope string_scope.

(** ** Python string primitives *)

Module PyStr.

(** [string.whitespace] of a byte string: tab, LF, VT, FF, CR, space. *)
Definition is_space (c : ascii) : bool :=
  let n := nat_of_ascii c in
  Nat.eqb n 32 || (Nat.leb 9 n && Nat.leb n 13).

Fixpoint lstrip (s : string) : string :=
  match s with
  | String c s' => if is_space c then lstrip s' else s
  | EmptyString => EmptyString
  end.

Fixpoint rstrip (s : string) : string :=
  match s with
  | EmptyString => EmptyString
  | String c s' =>
      match rstrip s' with
      | EmptyString => if is_space c then EmptyString else String c EmptyString
      | r => String c r
      end
  end.

(** [s.strip()] *)
Definition strip (s : string) : string := rstrip (lstrip s).

(** [t] with the leading [p] removed, when [t] starts with [p]. *)
Fixpoint drop_prefix (p t : string) : option string :=
  match p with
  | EmptyString => Some t
  | String a p' =>
      match t with
      | String b t' => if Ascii.eqb a b then drop_prefix p' t' else None
      | EmptyString => None
      end
  end.

Definition snoc (s : string) (c : ascii) : string := s +:+ String c EmptyString.

(** The scanner behind [s.split(sep)] for a non-empty [sep]: occurrences
    are taken left to right and do not overlap; [skip] counts the
    characters of an occurrence still to be passed over, [cur] is the
    piece being collected. *)
Fixpoint split_go (sep : string) (skip : nat) (cur : string) (s : string)
  : list string :=
  match s with
  | EmptyString => [cur]
  | String c s' =>
      match skip with
      | S n => split_go sep n cur s'
      | O =>
          match drop_prefix sep s with
          | Some _ => cur :: split_go sep (String.length sep - 1) EmptyString s'
          | None => split_go sep 0 (snoc cur c) s'
          end
      end
  end.

(** [s.split(sep)] *)
Definition split (sep s : string) : list string := split_go sep 0 EmptyString s.

(** [c in s] for a one-character [c]. *)
Fixpoint contains (c : ascii) (s : string) : bool :=
  match s with
  | EmptyString => false
  | String a s' => Ascii.eqb a c || contains c s'
  end.

(** Every character of [s] is below 128. *)
Fixpoint is_ascii (s : string) : bool :=
  match s with
  | EmptyString => true
  | String a s' => Nat.ltb (nat_of_ascii a) 128 && is_ascii s'
  end.

(** [g[1:-1]] *)
Definition slice_1_m1 (g : string) : string :=
  substring 1 (String.length g - 2) g.

(** [g[1:]] *)
Definition slice_1 (g : string) : string :=
  match g with
  | EmptyString => EmptyString
  | String _ g' => g'
  end.

End PyStr.

(** ** The fragment of Python's [re] used by the module

    A backtracking matcher in continuation-passing style: alternatives are
    tried left to right, [*] is greedy, and the first successful path gives
    the groups, as in [re.match]. Every starred expression of the six
    patterns is a character class, so [*] is only provided for classes. *)

Module Re.

Inductive regex : Type :=
| Bos                                   (* ^ *)
| Eos                                   (* $ *)
| Lit (s : string)                      (* literal text *)
| Class (p : ascii -> bool)             (* one character of a class *)
| StarClass (p : ascii -> bool)         (* class*, greedy *)
| Cat (r1 r2 : regex)                   (* r1 r2 *)
| Alt (r1 r2 : regex)                   (* r1|r2 *)
| Grp (n : nat) (r : regex).            (* capturing group number n *)

Abbreviation captures := (gmap nat string).
Definition cont : Type := nat -> string -> captures -> option captures.

(** [p*] followed by [k]: take one more character first, give it back
    when the rest fails. *)
Fixpoint star (p : ascii -> bool) (i : nat) (s : string) (g : captures)
    (k : cont) : option captures :=
  match s with
  | String c s' =>
      if p c then
        match star p (S i) s' g k with
        | Some m => Some m
        | None => k i s g
        end
      else k i s g
  | EmptyString => k i s g
  end.

(** [$] without MULTILINE: at the end, or before a final newline. *)
Definition at_eos (s : string) : bool :=
  match s with
  | EmptyString => true
  | String c EmptyString => Nat.eqb (nat_of_ascii c) 10
  | _ => false
  end.

(** [run r i s g k]: match [r] at offset [i], where [s] is what is left of
    the subject, then continue with [k]. *)
Fixpoint run (r : regex) (i : nat) (s : string) (g : captures) (k : cont)
  : option captures :=
  match r with
  | Bos => if Nat.eqb i 0 then k i s g else None
  | Eos => if at_eos s then k i s g else None
  | Lit l =>
      match PyStr.drop_prefix l s with
      | Some s' => k (i + String.length l) s' g
      | None => None
      end
  | Class p =>
      match s with
      | String c s' => if p c then k (S i) s' g else None
      | EmptyString => None
      end
  | StarClass p => star p i s g k
  | Cat r1 r2 => run r1 i s g (fun i' s' g' => run r2 i' s' g' k)
  | Alt r1 r2 =>
      match run r1 i s g k with
      | Some m => Some m
      | None => run r2 i s g k
      end
  | Grp n r0 =>
      run r0 i s g (fun i' s' g' => k i' s' (<[n := substring 0 (i' - i) s]> g'))
  end.

(** [pattern.match(s)] *)
Definition rmatch (r : regex) (s : string) : option captures :=
  run r 0 s ∅ (fun _ _ g => Some g).

(** [m.group(n)]; every group of the six patterns takes part in every
    match, so the [None] of a group that did not is never seen. *)
Definition group (m : captures) (n : nat) : string := default EmptyString (m !! n).

Definition in_range (lo hi : nat) (c : ascii) : bool :=
  Nat.leb lo (nat_of_ascii c) && Nat.leb (nat_of_ascii c) hi.
Definition is_char (x : nat) (c : ascii) : bool := Nat.eqb (nat_of_ascii c) x.

Definition lower := in_range 97 122.
Definition upper := in_range 65 90.
Definition digit := in_range 48 57.
Definition minus := is_char 45.
Definition underscore := is_char 95.
Definition period := is_char 46.
Definition squote : ascii := ascii_of_nat 39.
Definition dquote : ascii := ascii_of_nat 34.

(** [.] : anything but a newline. *)
Definition dot (c : ascii) : bool := negb (is_char 10 c).
(** [[a-zA-Z-]] *)
Definition ident_start (c : ascii) : bool := lower c || upper c || minus c.
(** [[a-zA-Z0-9_\-\.]] *)
Definition ident_rest (c : ascii) : bool :=
  lower c || upper c || digit c || underscore c || minus c || period c.

(** [_ident]: [[a-zA-Z-][a-zA-Z0-9_\-\.]*] *)
Definition _ident : regex := Cat (Class ident_start) (StarClass ident_rest).
(** [_nsIdent]: [_ident] or [_ident:_ident], in this order. *)
Definition _nsIdent : regex := Alt _ident (Cat _ident (Cat (Lit ":") _ident)).
(** [_xpstr], as group [n]: any run of [.] between two single quotes, or
    else between two double quotes. *)
Definition _xpstr (n : nat) : regex :=
  Grp n (Alt (Cat (Lit (String squote EmptyString))
                  (Cat (StarClass dot) (Lit (String squote EmptyString))))
             (Cat (Lit (String dquote EmptyString))
                  (Cat (StarClass dot) (Lit (String dquote EmptyString))))).

(** [^ g1 / g2 $] with [g1] a greedy run of [.] and [g2] an [_nsIdent]. *)
Definition _re_splitSimpleLast : regex :=
  Cat Bos (Cat (Grp 1 (StarClass dot)) (Cat (Lit "/") (Cat (Grp 2 _nsIdent) Eos))).
(** [^ g1 / g2 /text()= g3 $] with [g2] an [_nsIdent] and [g3] an [_xpstr]. *)
Definition _re_splitSimpleLastEqValue : regex :=
  Cat Bos (Cat (Grp 1 (StarClass dot)) (Cat (Lit "/") (Cat (Grp 2 _nsIdent)
    (Cat (Lit "/text()=") (Cat (_xpstr 3) Eos))))).
(** [^ g1 / g2 $] with [g2] an [@] followed by an [_nsIdent]. *)
Definition _re_splitSimpleAttrLast : regex :=
  Cat Bos (Cat (Grp 1 (StarClass dot)) (Cat (Lit "/")
    (Cat (Grp 2 (Cat (Lit "@") _nsIdent)) Eos))).
(** [^ g1 / g2 = g3 $] with [g2] an [@] followed by an [_nsIdent] and [g3]
    an [_xpstr]. *)
Definition _re_splitSimpleAttrLastEqValue : regex :=
  Cat Bos (Cat (Grp 1 (StarClass dot)) (Cat (Lit "/")
    (Cat (Grp 2 (Cat (Lit "@") _nsIdent)) (Cat (Lit "=") (Cat (_xpstr 3) Eos))))).
(** [^ g1 / g2 \[ g3 \] $] with [g2] an [_nsIdent] and [g3] a greedy run
    of [.]. *)
Definition _re_splitSubLast : regex :=
  Cat Bos (Cat (Grp 1 (StarClass dot)) (Cat (Lit "/") (Cat (Grp 2 _nsIdent)
    (Cat (Lit "[") (Cat (Grp 3 (StarClass dot)) (Cat (Lit "]") Eos)))))).
(** [^ g1 /text()= g2 $] with [g2] an [_xpstr]. *)
Definition _re_splitOnlyEqValue : regex :=
  Cat Bos (Cat (Grp 1 (StarClass dot)) (Cat (Lit "/text()=") (Cat (_xpstr 2) Eos))).

End Re.

(** ** The path grammar parser *)

(** What the second component of a change carries: [None], a string, or
    the list of predicates of a subscripted element. *)
Inductive pyval : Type :=
| VNone
| VStr (s : string)
| VList (l : list string).

Definition _extract_xpstr (g : string) : string := PyStr.slice_1_m1 g.

Definition split_xpath_last (xpath : string) : string * list (string * pyval) :=
  let xpath := PyStr.strip xpath in
  match Re.rmatch Re._re_splitSimpleLast xpath with
  | Some m => (Re.group m 1, [(Re.group m 2, VNone)])
  | None =>
  match Re.rmatch Re._re_splitSimpleLastEqValue xpath with
  | Some m => (Re.group m 1, [(Re.group m 2, VStr (_extract_xpstr (Re.group m 3)))])
  | None =>
  match Re.rmatch Re._re_splitSimpleAttrLast xpath with
  | Some m => (Re.group m 1, [(Re.group m 2, VNone)])
  | None =>
  match Re.rmatch Re._re_splitSimpleAttrLastEqValue xpath with
  | Some m => (Re.group m 1, [(Re.group m 2, VStr (_extract_xpstr (Re.group m 3)))])
  | None =>
  match Re.rmatch Re._re_splitSubLast xpath with
  | Some m =>
      let content := map PyStr.strip (PyStr.split " and " (Re.group m 3)) in
      (Re.group m 1, [("/" +:+ Re.group m 2, VList content)])
  | None =>
  match Re.rmatch Re._re_splitOnlyEqValue xpath with
  | Some m => (Re.group m 1, [(EmptyString, VStr (_extract_xpstr (Re.group m 2)))])
  | None => (xpath, [])
  end end end end end end.

(** ** lxml elements as a store of mutable objects *)

Module Lxml.

(** An [_Element]: its children and its parent are references (indices
    into the store). *)
Record element : Type := Element {
  tag : string;
  text : option string;
  attrib : gmap string string;
  children : list nat;
  parent : option nat
}.

Abbreviation store := (list element).

Definition with_text (t : option string) (e : element) : element :=
  Element (tag e) t (attrib e) (children e) (parent e).
Definition with_attrib (a : gmap string string) (e : element) : element :=
  Element (tag e) (text e) a (children e) (parent e).
Definition with_children (l : list nat) (e : element) : element :=
  Element (tag e) (text e) (attrib e) l (parent e).
Definition with_parent (p : option nat) (e : element) : element :=
  Element (tag e) (text e) (attrib e) (children e) p.

(** One result of [tree.xpath]: an element, or a smart string
    ([_ElementStringResult]) that remembers the element it was read from
    and, for an attribute, its name. *)
Inductive item : Type :=
| ItemElement (e : nat)
| ItemAttr (owner : nat) (attrname : string) (value : string)
| ItemText (owner : nat) (value : string).

(** What [tree.xpath] returns: a list for a node-set, a boolean for a
    comparison, a number for [count]. *)
Inductive xpath_result : Type :=
| XList (l : list item)
| XBool (b : bool)
| XNumber (n : nat).

Inductive pyexn : Type :=
| XPathEvalError | TypeError | KeyError | ValueError | AttributeError
| IndexError | XMLSyntaxError.

(** The messages of [module.fail_json]. *)
Inductive failure : Type :=
| CantProcessXpath (xpath : string)
| UnknownTransformation
| CouldntDelete (xpath : string) (e : pyexn)
| ChildParseError
| OneKeyOnly
| InvalidChildrenType
| InvalidChildType
| InvalidInputType.

(** How a call ends: it returns, it raises, it leaves through
    [fail_json] (a [SystemExit], which no [except Exception] catches), or
    the recursion budget of the model is used up. *)
Inductive outcome (A : Type) : Type :=
| Done (a : A) (h : store)
| Raised (e : pyexn) (h : store)
| FailJson (f : failure) (h : store)
| Diverged.
Arguments Done {A} a h.
Arguments Raised {A} e h.
Arguments FailJson {A} f h.
Arguments Diverged {A}.

Definition M (A : Type) : Type := store -> outcome A.

Definition ret {A} (a : A) : M A := fun h => Done a h.
Definition bind {A B} (m : M A) (k : A -> M B) : M B :=
  fun h =>
    match m h with
    | Done a h' => k a h'
    | Raised e h' => Raised e h'
    | FailJson f h' => FailJson f h'
    | Diverged => Diverged
    end.
Definition raise {A} (e : pyexn) : M A := fun h => Raised e h.
Definition fail_json {A} (f : failure) : M A := fun h => FailJson f h.
Definition diverge {A} : M A := fun _ => Diverged.
(** [try: m  except Exception: handler] *)
Definition try_except {A} (m : M A) (handler : pyexn -> M A) : M A :=
  fun h =>
    match m h with
    | Raised e h' => handler e h'
    | o => o
    end.
Definition when (b : bool) (m : M unit) : M unit := if b then m else ret tt.

Declare Scope py_scope.
Delimit Scope py_scope with py.
Notation "'let*' x := m 'in' k" := (bind m (fun x => k))
  (at level 10, x name, m at level 200, k at level 200) : py_scope.
Notation "'do' m 'then' k" := (bind m (fun _ => k))
  (at level 10, m at level 200, k at level 200) : py_scope.
Local Open Scope py_scope.

(** [for x in l: acc = body(x, acc)] *)
Fixpoint for_in {A S} (l : list A) (body : A -> S -> M S) (acc : S) : M S :=
  match l with
  | [] => ret acc
  | x :: l' => let* acc' := body x acc in for_in l' body acc'
  end.

(** [[f(x) for x in l]] *)
Fixpoint map_m {A B} (f : A -> M B) (l : list A) : M (list B) :=
  match l with
  | [] => ret []
  | x :: l' => let* y := f x in let* ys := map_m f l' in ret (y :: ys)
  end.

Definition get (e : nat) : M element :=
  fun h => match h !! e with Some r => Done r h | None => Raised AttributeError h end.
Definition modify (e : nat) (f : element -> element) : M unit :=
  fun h => Done tt (alter f e h).

(** A new object in the store. *)
Definition alloc (r : element) : M nat :=
  fun h => Done (length h) (h ++ [r]).

(** What lxml accepts. [etree.Element(tag, attrib)] raises [ValueError]
    on a tag that is not an XML name; so do [etree.Element],
    [element.attrib[k] = v] and [element.set(k, v)] on an attribute name
    that is not one and on a value with characters XML does not allow,
    and [element.text = v] on such a text; [element.get(k)] and
    [k in element.attrib] raise it on a key that cannot be encoded. These
    checks are lxml's, not the module's: the engine is stated for any of
    them. *)
Class Accepts : Type := {
  valid_tag : string -> bool;
  valid_attribute : string -> bool;
  valid_value : string -> bool;
  valid_text : string -> bool;
  valid_key : string -> bool
}.

Section Checked.

Context {lx : Accepts}.

Definition attributes_ok (a : gmap string string) : bool :=
  forallb (fun kv => valid_attribute (fst kv) && valid_value (snd kv)) (map_to_list a).

(** [etree.Element(tag, attrib)] *)
Definition new_element (t : string) (a : gmap string string) : M nat :=
  if valid_tag t && attributes_ok a
  then alloc (Element t None a [] None)
  else raise ValueError.

(** [e.text = t] *)
Definition set_text (e : nat) (t : option string) : M unit :=
  match t with
  | Some s => if valid_text s then modify e (with_text (Some s)) else raise ValueError
  | None => modify e (with_text None)
  end.

(** [e.attrib[k] = v] and [e.set(k, v)] *)
Definition set_attribute (e : nat) (k v : string) : M unit :=
  if valid_attribute k && valid_value v
  then modify e (fun x => with_attrib (<[k := v]> (attrib x)) x)
  else raise ValueError.

(** [e.get(k)]; [k in e.attrib] and [e.attrib[k]] read the same way. *)
Definition get_attribute (e : nat) (k : string) : M (option string) :=
  if valid_key k
  then let* r := get e in ret (attrib r !! k)
  else raise ValueError.

End Checked.

(** [x.getchildren()], a fresh list. *)
Definition getchildren (x : item) : M (list nat) :=
  match x with
  | ItemElement e => let* r := get e in ret (children r)
  | _ => raise AttributeError
  end.

(** [x.getparent()] *)
Definition getparent (x : item) : M (option nat) :=
  match x with
  | ItemElement e => let* r := get e in ret (parent r)
  | ItemAttr o _ _ | ItemText o _ => ret (Some o)
  end.

(** [x.attrname] *)
Definition attrname_of (x : item) : M (option string) :=
  match x with
  | ItemElement _ => raise AttributeError
  | ItemAttr _ n _ => ret (Some n)
  | ItemText _ _ => ret None
  end.

Definition without (c : nat) (l : list nat) : list nat :=
  filter (fun x => x ≠ c) l.

(** [p.remove(c)]: [ValueError] when [c] is not a child of [p]. *)
Definition remove (p c : nat) : M unit :=
  let* r := get p in
  if decide (c ∈ children r) then
    do modify p (with_children (without c (children r))) then
    modify c (with_parent None)
  else raise ValueError.

(** Appending [c] to [p] moves it: an element has one parent. *)
Definition append (p c : nat) : M unit :=
  let* r := get c in
  do match parent r with
     | Some q => modify q (fun e => with_children (without c (children e)) e)
     | None => ret tt
     end then
  do modify p (fun e => with_children (children e ++ [c]) e) then
  modify c (with_parent (Some p)).

(** [p.extend(kids)] *)
Definition extend (p : nat) (kids : list nat) : M unit :=
  for_in kids (fun c _ => append p c) tt.

(** [d.pop(key)] on [e.attrib] *)
Definition attrib_pop (e : nat) (key : option string) : M unit :=
  let* r := get e in
  match key with
  | Some k =>
      match attrib r !! k with
      | Some _ => modify e (with_attrib (delete k (attrib r)))
      | None => raise KeyError
      end
  | None => raise TypeError
  end.

(** A parsed fragment, before it is turned into elements. *)
Inductive fragment : Type :=
| Fragment (t : string) (txt : option string) (a : gmap string string)
    (kids : list fragment).

Fixpoint build (f : fragment) : M nat :=
  match f with
  | Fragment t txt a kids =>
      let* e := alloc (Element t None a [] None) in
      do modify e (with_text txt) then
      let* ks := (fix go (l : list fragment) : M (list nat) :=
                    match l with
                    | [] => ret []
                    | x :: l' => let* y := build x in let* ys := go l' in ret (y :: ys)
                    end) kids in
      do extend e ks then
      ret e
  end.

End Lxml.

Import Lxml.
Local Open Scope py_scope.

(** ** The module *)

(** [module.check_mode] is all the engine reads of the Ansible module. *)
Record module : Type := Module_ { check_mode : bool }.

Abbreviation namespaces := (gmap string string).

(** A child given to [add_children] / [set_children], after YAML loading:
    a string; a hash with one key whose value is a string or [None]
    ([ChildText]), another scalar ([ChildTextOther]), or a hash of
    attributes with, under ["_"], a list of children or nothing
    ([ChildNode]) or something that is not a list ([ChildNodeOther]); a
    hash without key, a hash with several keys; anything else. *)
Inductive child : Type :=
| ChildStr (s : string)
| ChildText (key : string) (value : option string)
| ChildTextOther (key : string)
| ChildNode (key : string) (attrs : gmap string string) (sub : option (list child))
| ChildNodeOther (key : string) (attrs : gmap string string)
| ChildEmpty
| ChildMany
| ChildOther.

Inductive in_type : Type := InXml | InYaml | InOther.

(** The segment kinds of the grammar. *)
Inductive Segment : Type :=
| ElementExists (name : string)
| ElementWithText (name : string) (text : string)
| AttributeExists (name : string)
| AttributeWithValue (name : string) (value : string)
| SubscriptedElement (name : string) (predicates : list string)
| TextValue (value : string).

(** The branches of the [if]/[elif] chain of [check_or_make_target]. *)
Inductive branch : Type :=
| BranchElement | BranchSubscript | BranchText | BranchAttribute | BranchUnknown.

Definition nonempty (s : string) : bool :=
  match s with EmptyString => false | _ => true end.
Definition first_is (c : ascii) (s : string) : bool :=
  match s with String a _ => Ascii.eqb a c | EmptyString => false end.

(** The tests on [eoa], in the order of the source. *)
Definition dispatch (eoa : string) : branch :=
  if nonempty eoa && negb (first_is "@" eoa) && negb (first_is "/" eoa)
  then BranchElement
  else if nonempty eoa && first_is "/" eoa then BranchSubscript
  else if String.eqb eoa EmptyString then BranchText
  else if nonempty eoa && first_is "@" eoa then BranchAttribute
  else BranchUnknown.

(** Python truth of a value: [if eoa_value:]. *)
Definition truth (v : pyval) : bool :=
  match v with
  | VNone => false
  | VStr s => nonempty s
  | VList l => match l with [] => false | _ => true end
  end.

(** The segment a change stands for: the branch taken on it and the tests
    that branch makes on its value ([if eoa_value:] for an element,
    [eoa_value is None] for an attribute). *)
Definition segment_of (change : string * pyval) : option Segment :=
  let '(eoa, eoa_value) := change in
  match dispatch eoa, eoa_value with
  | BranchElement, VStr s =>
      Some (if truth eoa_value then ElementWithText eoa s else ElementExists eoa)
  | BranchElement, VNone => Some (ElementExists eoa)
  | BranchSubscript, VList l => Some (SubscriptedElement (PyStr.slice_1 eoa) l)
  | BranchText, VStr s => Some (TextValue s)
  | BranchAttribute, VNone => Some (AttributeExists (PyStr.slice_1 eoa))
  | BranchAttribute, VStr s => Some (AttributeWithValue (PyStr.slice_1 eoa) s)
  | _, _ => None
  end.

(** [node.text != eoa_value] is the negation of this. *)
Definition text_is (t : option string) (v : pyval) : bool :=
  match t, v with
  | None, VNone => true
  | Some a, VStr b => String.eqb a b
  | _, _ => false
  end.

(** The value stored by [node.text = v]; lxml refuses a list. *)
Definition as_text (v : pyval) : M (option string) :=
  match v with
  | VNone => ret None
  | VStr s => ret (Some s)
  | VList _ => raise TypeError
  end.

(** [for subexpr in eoa_value] *)
Definition iter_value (v : pyval) : M (list string) :=
  match v with
  | VList l => ret l
  | VStr s => ret (map (fun c => String c EmptyString) (list_ascii_of_string s))
  | VNone => raise TypeError
  end.

(** An element among the results; anything else has no [extend], [text]
    or [attrib]. *)
Definition as_element (x : item) : M nat :=
  match x with
  | ItemElement e => ret e
  | _ => raise AttributeError
  end.

Definition is_element (x : item) : bool :=
  match x with ItemElement _ => true | _ => false end.
(** [isinstance(x, _ElementStringResult)]: under Python 2 a string
    result is an [_ElementStringResult] when its value is plain ASCII
    and an [_ElementUnicodeResult] otherwise. *)
Definition is_string_result (x : item) : bool :=
  match x with
  | ItemElement _ => false
  | ItemAttr _ _ value | ItemText _ value => PyStr.is_ascii value
  end.

(** Python truth of what [tree.xpath] returned. *)
Definition truthy (r : xpath_result) : bool :=
  match r with
  | XList l => match l with [] => false | _ => true end
  | XBool b => b
  | XNumber n => negb (Nat.eqb n 0)
  end.

(** [match[0]] *)
Definition first (r : xpath_result) : M item :=
  match r with
  | XList (x :: _) => ret x
  | XList [] => raise IndexError
  | _ => raise TypeError
  end.

(** [for x in match] *)
Definition iter (r : xpath_result) : M (list item) :=
  match r with
  | XList l => ret l
  | _ => raise TypeError
  end.

(** [finish] writes the document out and ends the request with the verdict
    it was given; the verdict is what the model keeps. *)
Definition finish (changed : bool) : M bool := ret changed.

Section Engine.

(** lxml's evaluator, [tree.xpath(xpath, namespaces=namespaces)] with the
    context element [tree], its serializer [lxml.etree.tostring] and its
    parser. *)
Variable xpath_eval : store -> nat -> string -> namespaces -> pyexn + xpath_result.
Variable tostring_of : store -> nat -> string.
Variable parse_xml : string -> option fragment.
Context {lx : Accepts}.

Definition tree_xpath (tree : nat) (xpath : string) (ns : namespaces)
  : M xpath_result :=
  fun h =>
    match xpath_eval h tree xpath ns with
    | inl e => Raised e h
    | inr r => Done r h
    end.

Definition tostring (e : nat) : M string := fun h => Done (tostring_of h e) h.

Definition xpath_matches (tree : nat) (xpath : string) (ns : namespaces) : M bool :=
  let* r := tree_xpath tree xpath ns in
  if truthy r then ret true else ret false.

Definition is_node (tree : nat) (xpath : string) (ns : namespaces) : M bool :=
  let* found := xpath_matches tree xpath ns in
  if found then
    let* match_ := tree_xpath tree xpath ns in
    let* m0 := first match_ in
    if is_element m0 then ret true else ret false
  else ret false.

Definition is_attribute (tree : nat) (xpath : string) (ns : namespaces) : M bool :=
  let* found := xpath_matches tree xpath ns in
  if found then
    let* match_ := tree_xpath tree xpath ns in
    let* m0 := first match_ in
    if is_string_result m0 then ret true else ret false
  else ret false.

Definition delete_result (md : module) (tree : nat) (xpath : string)
    (ns : namespaces) (result : item) : M unit :=
  if negb (check_mode md) then
    let* attr := is_attribute tree xpath ns in
    if attr then
      let* parent := getparent result in
      let* name := attrname_of result in
      match parent with
      | Some p => attrib_pop p name
      | None => raise AttributeError
      end
    else
      let* node := is_node tree xpath ns in
      if node then
        let* parent := getparent result in
        match parent, result with
        | Some p, ItemElement e => remove p e
        | Some _, _ => raise TypeError
        | None, _ => raise AttributeError
        end
      else ret tt
  else ret tt.

Definition delete_xpath_target (md : module) (tree : nat) (xpath : string)
    (ns : namespaces) : M bool :=
  let* ok :=
    try_except
      (let* r := tree_xpath tree xpath ns in
       let* results := iter r in
       do for_in results (fun result _ => delete_result md tree xpath ns result) tt
       then ret true)
      (fun e => fail_json (CouldntDelete xpath e)) in
  finish true.

Definition replace_children_of (children : list nat) (match_ : nat) : M unit :=
  let* old := getchildren (ItemElement match_) in
  do for_in old (fun element _ => remove match_ element) tt then
  extend match_ children.

Fixpoint child_to_element (md : module) (c : child) : M nat :=
  match c with
  | ChildStr s => new_element s ∅
  | ChildText key value =>
      let* node := new_element key ∅ in
      do set_text node value then
      ret node
  | ChildTextOther key =>
      let* node := new_element key ∅ in
      raise TypeError
  | ChildNode key attrs sub =>
      let* node := new_element key attrs in
      do match sub with
         | Some l =>
             let* subnodes :=
               (fix go (l : list child) : M (list nat) :=
                  match l with
                  | [] => ret []
                  | x :: l' =>
                      let* y := child_to_element md x in
                      let* ys := go l' in
                      ret (y :: ys)
                  end) l in
             extend node subnodes
         | None => ret tt
         end then
      ret node
  | ChildNodeOther key attrs =>
      let* node := new_element key attrs in
      fail_json InvalidChildrenType
  | ChildEmpty => raise IndexError
  | ChildMany => fail_json OneKeyOnly
  | ChildOther => fail_json InvalidChildType
  end.

Definition child_to_element_typed (md : module) (c : child) (ty : in_type) : M nat :=
  match ty with
  | InXml =>
      match c with
      | ChildStr s =>
          match parse_xml s with
          | Some f => build f
          | None => fail_json ChildParseError
          end
      | _ => raise AttributeError
      end
  | InYaml => child_to_element md c
  | InOther => fail_json InvalidInputType
  end.

Definition children_to_nodes (md : module) (children : list child) (ty : in_type)
  : M (list nat) :=
  map_m (fun c => child_to_element_typed md c ty) children.

(** The comparison loop of [set_target_children_inner], from position
    [idx] on; it stops at the first child that differs. *)
Fixpoint compare_children (md : module) (children : list nat)
    (children_as_string : list string) (match_ : nat) (idx : nat)
    (elements : list nat) (changed : bool) : M bool :=
  match elements with
  | [] => ret changed
  | element :: rest =>
      let* s := tostring element in
      match children_as_string !! idx with
      | None => raise IndexError
      | Some wanted =>
          if negb (String.eqb s wanted) then
            do when (negb (check_mode md)) (replace_children_of children match_)
            then ret true
          else
            compare_children md children children_as_string match_ (S idx)
              rest changed
      end
  end.

(** The body of [for match in matches] in [set_target_children_inner]. *)
Definition set_children_of_match (md : module) (children : list nat)
    (children_as_string : list string) (match_ : item) (changed : bool) : M bool :=
  let* old := getchildren match_ in
  if Nat.eqb (length old) (length children) then
    let* e := as_element match_ in
    compare_children md children children_as_string e 0 old changed
  else
    let* e := as_element match_ in
    do when (negb (check_mode md)) (replace_children_of children e) then
    ret true.

Definition set_target_children_inner (md : module) (tree : nat) (xpath : string)
    (ns : namespaces) (children : list child) (ty : in_type) : M bool :=
  let* matches := tree_xpath tree xpath ns in
  let* children := children_to_nodes md children ty in
  let* children_as_string := map_m tostring children in
  let changed := false in
  let* matches := iter matches in
  for_in matches (set_children_of_match md children children_as_string) changed.

Definition nsnameToClark (name : string) (ns : namespaces) : M string :=
  if PyStr.contains ":" name then
    match PyStr.split ":" name with
    | [nsname; rawname] =>
        match ns !! nsname with
        | Some uri => ret ("{" +:+ uri +:+ "}" +:+ rawname)
        | None => raise KeyError
        end
    | _ => raise ValueError
    end
  else ret name.

(** What one change does to the context nodes; [recurse] is
    [check_or_make_target] itself, for the predicates of a subscript. *)
Definition apply_change (md : module) (tree : nat) (inner_xpath : string)
    (ns : namespaces) (recurse : nat -> string -> M bool)
    (change : string * pyval) (changed : bool) : M bool :=
  let '(eoa, eoa_value) := change in
  match dispatch eoa with
  | BranchElement =>
      let* name := nsnameToClark eoa ns in
      let* new_kids := children_to_nodes md [ChildStr name] InYaml in
      do when (truth eoa_value)
           (for_in new_kids
              (fun nk _ => let* t := as_text eoa_value in set_text nk t) tt)
      then
      let* r := tree_xpath tree inner_xpath ns in
      let* nodes := iter r in
      for_in nodes
        (fun node _ =>
           do when (negb (check_mode md))
                (let* e := as_element node in extend e new_kids) then
           ret true)
        changed
  | BranchSubscript =>
      let element := PyStr.slice_1 eoa in
      let* name := nsnameToClark element ns in
      let* new_kids := children_to_nodes md [ChildStr name] InYaml in
      let* r := tree_xpath tree inner_xpath ns in
      let* nodes := iter r in
      for_in nodes
        (fun node _ =>
           do when (negb (check_mode md))
                (let* e := as_element node in extend e new_kids) then
           do for_in new_kids
                (fun nk _ =>
                   let* subexprs := iter_value eoa_value in
                   for_in subexprs
                     (fun subexpr _ =>
                        do recurse nk ("./" +:+ subexpr) then ret tt) tt) tt
           then ret true)
        changed
  | BranchText =>
      let* r := tree_xpath tree inner_xpath ns in
      let* nodes := iter r in
      for_in nodes
        (fun node changed =>
           let* e := as_element node in
           let* rec := get e in
           if negb (text_is (text rec) eoa_value) then
             let* t := as_text eoa_value in
             do set_text e t then
             ret true
           else ret changed)
        changed
  | BranchAttribute =>
      let* attribute := nsnameToClark (PyStr.slice_1 eoa) ns in
      let* r := tree_xpath tree inner_xpath ns in
      let* elements := iter r in
      for_in elements
        (fun element changed =>
           let* e := as_element element in
           let* cur := get_attribute e attribute in
           let changing :=
             match cur with
             | None => true
             | Some cur => negb (text_is (Some cur) eoa_value)
             end in
           if negb (check_mode md) && changing then
             let changed := changed || changing in
             let* value :=
               match eoa_value with
               | VNone => ret EmptyString
               | VStr s => ret s
               | VList _ => raise TypeError
               end in
             do set_attribute e attribute value
             then ret changed
           else ret changed)
        changed
  | BranchUnknown => fail_json UnknownTransformation
  end.

Fixpoint check_or_make_target_rec (fuel : nat) (md : module) (tree : nat)
    (xpath : string) (ns : namespaces) : M bool :=
  match fuel with
  | O => diverge
  | S fuel' =>
      let '(inner_xpath, changes) := split_xpath_last xpath in
      if String.eqb inner_xpath xpath then
        fail_json (CantProcessXpath xpath)
      else
        let changed := false in
        let* present := is_node tree inner_xpath ns in
        let* changed :=
          (if negb present
           then check_or_make_target_rec fuel' md tree inner_xpath ns
           else ret changed) in
        let* present := is_node tree inner_xpath ns in
        if present && (match changes with [] => false | _ => true end) then
          for_in changes
            (apply_change md tree inner_xpath ns
               (fun nk sub => check_or_make_target_rec fuel' md nk sub ns))
            changed
        else ret changed
  end.

(** Every nested call is on a shorter selector, so a budget above the
    length of the selector is never used up (proved below). *)
Definition check_or_make_target (md : module) (tree : nat) (xpath : string)
    (ns : namespaces) : M bool :=
  check_or_make_target_rec (S (String.length xpath)) md tree xpath ns.

Definition ensure_xpath_exists (md : module) (tree : nat) (xpath : string)
    (ns : namespaces) : M bool :=
  let changed := false in
  let* present := is_node tree xpath ns in
  let* changed :=
    (if negb present then check_or_make_target md tree xpath ns else ret changed) in
  finish changed.

End Engine.

(** ** The other operations on a target *)

(** The two messages of [set_target_inner] and of the readers
    [get_element_text] and [get_element_attr]. *)
Inductive target_failure : Type :=
| XpathCausesFailure (xpath : string) (e : pyexn)
| NotANode (xpath : string).

(** How one of these calls ends: as a call of the engine does, or through
    [fail_json] with a message of its own. *)
Inductive ending (A : Type) : Type :=
| Engine (o : outcome A)
| TargetFailJson (f : target_failure) (h : store).
Arguments Engine {A} o.
Arguments TargetFailJson {A} f h.

(** Python truth of [attribute]: [None] and the empty string are false. *)
Definition given (attribute : option string) : bool :=
  match attribute with
  | Some a => nonempty a
  | None => false
  end.

(** [x != value] for [x] an [element.text] or an [element.get(...)]. *)
Definition differs (x : option string) (value : string) : bool :=
  match x with
  | Some a => negb (String.eqb a value)
  | None => true
  end.

Section Operations.

Variable xpath_eval : store -> nat -> string -> namespaces -> pyexn + xpath_result.
Variable parse_xml : string -> option fragment.
Context {lx : Accepts}.

Definition add_target_children (md : module) (tree : nat) (xpath : string)
    (ns : namespaces) (children : list child) (ty : in_type) : M bool :=
  let* node := is_node xpath_eval tree xpath ns in
  if node then
    let* new_kids := children_to_nodes parse_xml md children ty in
    let* r := tree_xpath xpath_eval tree xpath ns in
    let* nodes := iter r in
    do for_in nodes
         (fun node _ =>
            when (negb (check_mode md))
              (let* e := as_element node in extend e new_kids)) tt
    then finish true
  else finish false.

(** [element.text] and [element.get(attribute)] of a result. *)
Definition text_of (element : item) : M (option string) :=
  let* e := as_element element in
  let* r := get e in
  ret (text r).
Definition get_of (element : item) (attribute : string) : M (option string) :=
  let* e := as_element element in
  get_attribute e attribute.

(** The body of the loop of [set_target_inner]; [attribute] is assigned in
    the loop, so it is carried from one element to the next with
    [changed]. *)
Definition set_target_element (md : module) (ns : namespaces) (value : string)
    (element : item) (st : bool * option string) : M (bool * option string) :=
  let '(changed, attribute) := st in
  if negb (given attribute) then
    let* changed :=
      (if changed then ret true
       else let* t := text_of element in ret (differs t value)) in
    do (if negb (check_mode md) then
          let* t := text_of element in
          if differs t value then
            let* e := as_element element in set_text e (Some value)
          else ret tt
        else ret tt)
    then ret (changed, attribute)
  else
    let a := default EmptyString attribute in
    let* changed :=
      (if changed then ret true
       else let* v := get_of element a in ret (differs v value)) in
    let* a :=
      (if PyStr.contains ":" a then
         match PyStr.split ":" a with
         | [attr_ns; attr_name] =>
             match ns !! attr_ns with
             | Some uri => ret ("{" +:+ uri +:+ "}" +:+ attr_name)
             | None => raise KeyError
             end
         | _ => raise ValueError
         end
       else ret a) in
    do (if negb (check_mode md) then
          let* v := get_of element a in
          if differs v value then
            let* e := as_element element in
            set_attribute e a value
          else ret tt
        else ret tt)
    then ret (changed, Some a).

Definition set_target_inner (md : module) (tree : nat) (xpath : string)
    (ns : namespaces) (attribute : option string) (value : string)
    : store -> ending bool :=
  fun h =>
    let changed := false in
    match
      (let* present := is_node xpath_eval tree xpath ns in
       if negb present
       then check_or_make_target xpath_eval parse_xml md tree xpath ns
       else ret changed) h
    with
    | Raised e h' => TargetFailJson (XpathCausesFailure xpath e) h'
    | Done changed h' =>
        match is_node xpath_eval tree xpath ns h' with
        | Done false h'' => TargetFailJson (NotANode xpath) h''
        | Done true h'' =>
            Engine
              ((let* r := tree_xpath xpath_eval tree xpath ns in
                let* elements := iter r in
                let* st := for_in elements (set_target_element md ns value)
                             (changed, attribute) in
                ret (fst st)) h'')
        | o => Engine o
        end
    | o => Engine o
    end.

(** [set_target]: the verdict of [set_target_inner] goes to [finish]. *)
Definition set_target (md : module) (tree : nat) (xpath : string)
    (ns : namespaces) (attribute : option string) (value : string)
    : store -> ending bool :=
  set_target_inner md tree xpath ns attribute value.

(** [get_element_text]: the tag and the text of every match. *)
Definition get_element_text (tree : nat) (xpath : string) (ns : namespaces)
    : store -> ending (list (string * option string)) :=
  fun h =>
    match is_node xpath_eval tree xpath ns h with
    | Done false h' => TargetFailJson (NotANode xpath) h'
    | Done true h' =>
        Engine
          ((let* r := tree_xpath xpath_eval tree xpath ns in
            let* matches := iter r in
            map_m (fun element =>
                     let* e := as_element element in
                     let* x := get e in
                     ret (tag x, text x)) matches) h')
    | Raised e h' => Engine (Raised e h')
    | FailJson f h' => Engine (FailJson f h')
    | Diverged => Engine Diverged
    end.

(** [get_element_attr]: the tag and the attributes of every match. *)
Definition get_element_attr (tree : nat) (xpath : string) (ns : namespaces)
    : store -> ending (list (string * gmap string string)) :=
  fun h =>
    match is_node xpath_eval tree xpath ns h with
    | Done false h' => TargetFailJson (NotANode xpath) h'
    | Done true h' =>
        Engine
          ((let* r := tree_xpath xpath_eval tree xpath ns in
            let* matches := iter r in
            map_m (fun element =>
                     let* e := as_element element in
                     let* x := get e in
                     ret (tag x, attrib x)) matches) h')
    | Raised e h' => Engine (Raised e h')
    | FailJson f h' => Engine (FailJson f h')
    | Diverged => Engine Diverged
    end.

End Operations.

(** ** A small evaluator and serializer for the worked documents

    The engine above is stated for any evaluator. The worked documents need
    one that computes: location paths of steps [.], [*], [name], [@name]
    and [text()], absolute or relative, optionally compared with a quoted
    literal. Any other selector is answered with [XPathEvalError]. *)

Module Mini.

Inductive node : Type :=
| NDoc (root : nat)
| NElem (e : nat)
| NAttr (owner : nat) (name value : string)
| NText (owner : nat) (value : string).

(** The root of the tree [e] is in. *)
Fixpoint root_of (fuel : nat) (h : store) (e : nat) : nat :=
  match fuel with
  | O => e
  | S fuel' =>
      match h !! e with
      | Some r => match parent r with Some p => root_of fuel' h p | None => e end
      | None => e
      end
  end.

(** [s] cut at the first [c]. *)
Fixpoint cut (c : ascii) (s : string) : option (string * string) :=
  match s with
  | EmptyString => None
  | String a s' =>
      if Ascii.eqb a c then Some (EmptyString, s')
      else match cut c s' with
           | Some (l, r) => Some (String a l, r)
           | None => None
           end
  end.

Fixpoint all_chars (p : ascii -> bool) (s : string) : bool :=
  match s with
  | EmptyString => true
  | String a s' => p a && all_chars p s'
  end.

Definition name_char (c : ascii) : bool := Re.ident_rest c || Re.is_char 58 c.

(** A name test, with its prefix resolved. *)
Definition resolve (name : string) (ns : namespaces) : option string :=
  if negb (nonempty name) || negb (all_chars name_char name) then None
  else
    match cut ":" name with
    | Some (p, l) =>
        match ns !! p with
        | Some uri => Some ("{" +:+ uri +:+ "}" +:+ l)
        | None => None
        end
    | None => Some name
    end.

Definition elements_where (h : store) (p : element -> bool) (l : list nat)
  : list node :=
  omap (fun c => match h !! c with
                 | Some r => if p r then Some (NElem c) else None
                 | None => None
                 end) l.

Definition kids_of (h : store) (n : node) : list nat :=
  match n with
  | NDoc r => [r]
  | NElem e => match h !! e with Some r => children r | None => [] end
  | _ => []
  end.

(** One step from one context node. *)
Definition step (h : store) (ns : namespaces) (s : string) (n : node)
  : option (list node) :=
  if String.eqb s "." then Some [n]
  else if String.eqb s "*" then Some (elements_where h (fun _ => true) (kids_of h n))
  else if String.eqb s "text()" then
    Some match n with
         | NElem e =>
             match h !! e with
             | Some r =>
                 match text r with
                 | Some t => if nonempty t then [NText e t] else []
                 | None => []
                 end
             | None => []
             end
         | _ => []
         end
  else if first_is "@" s then
    match resolve (PyStr.slice_1 s) ns with
    | Some a =>
        Some match n with
             | NElem e =>
                 match h !! e with
                 | Some r =>
                     match attrib r !! a with
                     | Some v => [NAttr e a v]
                     | None => []
                     end
                 | None => []
                 end
             | _ => []
             end
    | None => None
    end
  else
    match resolve s ns with
    | Some t => Some (elements_where h (fun r => String.eqb (tag r) t) (kids_of h n))
    | None => None
    end.

Fixpoint walk (h : store) (ns : namespaces) (steps : list string)
    (ctx : list node) : option (list node) :=
  match steps with
  | [] => Some ctx
  | s :: rest =>
      match
        foldr (fun n acc =>
                 match step h ns s n, acc with
                 | Some l, Some l' => Some (l ++ l')%list
                 | _, _ => None
                 end) (Some []) ctx
      with
      | Some ctx' => walk h ns rest ctx'
      | None => None
      end
  end.

Definition path (h : store) (tree : nat) (ns : namespaces) (p : string)
  : option (list node) :=
  match p with
  | String "/" rest =>
      walk h ns (PyStr.split "/" rest) [NDoc (root_of (length h) h tree)]
  | _ => walk h ns (PyStr.split "/" p) [NElem tree]
  end.

Definition to_item (n : node) : option item :=
  match n with
  | NDoc _ => None
  | NElem e => Some (ItemElement e)
  | NAttr o a v => Some (ItemAttr o a v)
  | NText o v => Some (ItemText o v)
  end.

Definition string_value (h : store) (n : node) : string :=
  match n with
  | NAttr _ _ v | NText _ v => v
  | NElem e => match h !! e with Some r => default EmptyString (text r) | None => EmptyString end
  | NDoc _ => EmptyString
  end.

(** The text between the quotes of a literal. *)
Definition literal (s : string) : option string :=
  match s with
  | String q rest =>
      if (Ascii.eqb q Re.squote || Ascii.eqb q Re.dquote)
         && Nat.leb 2 (String.length s)
         && String.eqb (substring (String.length s - 1) 1 s) (String q EmptyString)
      then Some (PyStr.slice_1_m1 s)
      else None
  | EmptyString => None
  end.

Definition xpath_eval (h : store) (tree : nat) (xpath : string) (ns : namespaces)
  : pyexn + xpath_result :=
  match cut "=" xpath with
  | Some (lhs, rhs) =>
      match path h tree ns lhs, literal rhs with
      | Some l, Some v =>
          inr (XBool (existsb (fun n => String.eqb (string_value h n) v) l))
      | _, _ => inl XPathEvalError
      end
  | None =>
      match path h tree ns xpath with
      | Some l => inr (XList (omap to_item l))
      | None => inl XPathEvalError
      end
  end.

Fixpoint tostring_rec (fuel : nat) (h : store) (e : nat) : string :=
  match fuel with
  | O => EmptyString
  | S fuel' =>
      match h !! e with
      | None => EmptyString
      | Some r =>
          let attrs :=
            foldr (fun kv acc =>
                     " " +:+ fst kv +:+ "=" +:+ String Re.dquote (snd kv)
                     +:+ String Re.dquote acc)
                  EmptyString (map_to_list (attrib r)) in
          let inner :=
            default EmptyString (text r)
            +:+ foldr (fun c acc => tostring_rec fuel' h c +:+ acc)
                      EmptyString (children r) in
          if match text r, children r with
             | None, [] => false
             | _, _ => true
             end
          then "<" +:+ tag r +:+ attrs +:+ ">" +:+ inner +:+ "</" +:+ tag r +:+ ">"
          else "<" +:+ tag r +:+ attrs +:+ "/>"
      end
  end.

Definition tostring_of (h : store) (e : nat) : string :=
  tostring_rec (S (length h)) h e.

Definition parse_xml (_ : string) : option fragment := None.

(** The checks of lxml on the names and texts of the worked documents,
    which are plain ASCII: an XML name starts with a letter or an
    underscore and goes on with letters, digits, [_], [-] and [.], after
    an optional namespace in braces; a text has no control character but
    tab, line feed and carriage return. Anything beyond ASCII is
    refused here. *)
Definition name_start (c : ascii) : bool := Re.lower c || Re.upper c || Re.underscore c.

Definition name_rest (c : ascii) : bool :=
  name_start c || Re.digit c || Re.minus c || Re.period c.

Definition xml_name (s : string) : bool :=
  match s with
  | String c rest => name_start c && all_chars name_rest rest
  | EmptyString => false
  end.

(** The name after the namespace of [{uri}name]. *)
Definition local_name (s : string) : string :=
  match s with
  | String "{" rest =>
      match cut "}" rest with
      | Some (_, l) => l
      | None => s
      end
  | _ => s
  end.

Definition xml_char (c : ascii) : bool :=
  Re.in_range 32 127 c || Re.is_char 9 c || Re.is_char 10 c || Re.is_char 13 c.

Definition xml_text (s : string) : bool := all_chars xml_char s.

#[global] Instance accepts : Accepts := {|
  valid_tag := fun s => xml_name (local_name s);
  valid_attribute := fun s => xml_name (local_name s);
  valid_value := xml_text;
  valid_text := xml_text;
  valid_key := fun s => nonempty s && xml_text s
|}.

End Mini.

(** The evaluator of the worked documents with one more form: a location
    path followed by one predicate on an attribute, [path[@name='v']],
    which keeps the elements of the path that have the attribute with
    this value. *)
Definition without_bracket (s : string) : option string :=
  if String.eqb (substring (String.length s - 1) 1 s) "]"
  then Some (substring 0 (String.length s - 1) s)
  else None.

Definition has_attribute (h : store) (a v : string) (n : Mini.node) : bool :=
  match n with
  | Mini.NElem e =>
      match h !! e with
      | Some r =>
          match attrib r !! a with
          | Some w => String.eqb w v
          | None => false
          end
      | None => false
      end
  | _ => false
  end.

Definition xpath_eval_predicate (h : store) (tree : nat) (xpath : string)
    (ns : namespaces) : pyexn + xpath_result :=
  match Mini.cut "[" xpath with
  | Some (base, rest) =>
      match without_bracket rest with
      | Some p =>
          match Mini.cut "=" p with
          | Some (lhs, rhs) =>
              match Mini.path h tree ns base, Mini.literal rhs,
                    Mini.resolve (PyStr.slice_1 lhs) ns with
              | Some l, Some v, Some a =>
                  if first_is "@" lhs
                  then inr (XList (omap Mini.to_item
                                     (List.filter (has_attribute h a v) l)))
                  else inl XPathEvalError
              | _, _, _ => inl XPathEvalError
              end
          | None => inl XPathEvalError
          end
      | None => inl XPathEvalError
      end
  | None => Mini.xpath_eval h tree xpath ns
  end.

Definition real_run : module := Module_ false.
Definition dry_run : module := Module_ true.

(** [<a/>] *)
Definition doc_a : store := [Element "a" None ∅ [] None].

(** ** Vocabulary of the properties *)

Section Vocabulary.

Import Re.
Context {lx : Accepts}.

(** What [lstrip] returns does not start with a blank. *)
Definition starts_clean (s : string) : Prop :=
  match s with
  | EmptyString => True
  | String c _ => PyStr.is_space c = false
  end.

(** The strings a pattern can consume, whatever it captures. *)
Fixpoint lang (r : regex) (w : string) : Prop :=
  match r with
  | Bos | Eos => w = EmptyString
  | Lit l => w = l
  | Class p => exists c, w = String c EmptyString /\ p c = true
  | StarClass _ => True
  | Cat r1 r2 => exists w1 w2, w = w1 +:+ w2 /\ lang r1 w1 /\ lang r2 w2
  | Alt r1 r2 => lang r1 w \/ lang r2 w
  | Grp _ r0 => lang r0 w
  end.

(** The numbers of the groups of a pattern. *)
Fixpoint groups (r : regex) : list nat :=
  match r with
  | Cat r1 r2 | Alt r1 r2 => groups r1 ++ groups r2
  | Grp n r0 => n :: groups r0
  | _ => []
  end.

Definition final : cont := fun _ _ g => Some g.

(** The three groups of a match. *)
Definition groups_1_2_3 (m : captures) : string * string * string :=
  (group m 1, group m 2, group m 3).

(** The six patterns in the order [split_xpath_last] tries them. *)
Definition rules : list regex :=
  [_re_splitSimpleLast; _re_splitSimpleLastEqValue; _re_splitSimpleAttrLast;
   _re_splitSimpleAttrLastEqValue; _re_splitSubLast; _re_splitOnlyEqValue].

(** No pattern matches the (stripped) selector. *)
Definition unclassified (s : string) : Prop :=
  Forall (fun r => rmatch r s = None) rules.

(** What the branch taken on a change finds in its value: a subscript
    carries predicates, each short enough for ["./" + predicate] to be
    shorter than the selector [s] it was cut from. *)
Definition well_formed_change (s : string) (change : string * pyval) : Prop :=
  match dispatch (fst change) with
  | BranchSubscript =>
      exists preds, snd change = VList preds
                    /\ forall sub, sub ∈ preds -> 2 + String.length sub < String.length s
  | BranchUnknown => False
  | _ => True
  end.

(** [m] never uses up the recursion budget. *)
Definition ends {A} (m : M A) : Prop := forall h, m h <> Diverged.

(** [m] does not touch the store: it returns or raises in the store it
    started from. *)
Definition reads {A} (m : M A) : Prop :=
  forall h, (exists a, m h = Done a h) \/ (exists e, m h = Raised e h).

(** [m1] and [m2] end the same way from every store. *)
Definition same_run {A} (m1 m2 : M A) : Prop := forall h, m1 h = m2 h.

(** The existing children [old] agree with the wanted serialized forms
    [strs] in count and position by position. *)
Definition same_children (tostring_of : store -> nat -> string) (h : store)
    (old : list nat) (strs : list string) : Prop :=
  length old = length strs
  /\ forall idx c, old !! idx = Some c -> strs !! idx = Some (tostring_of h c).

(** They differ in count, or at some position. *)
Definition children_differ (tostring_of : store -> nat -> string) (h : store)
    (old : list nat) (strs : list string) : Prop :=
  length old <> length strs
  \/ exists idx c s, old !! idx = Some c /\ strs !! idx = Some s /\ tostring_of h c <> s.

(** Every character of [s] is in the class [p]. *)
Fixpoint each_char (p : ascii -> bool) (s : string) : Prop :=
  match s with
  | EmptyString => True
  | String c s' => p c = true /\ each_char p s'
  end.

(** [parses r w rest g g']: the pattern [r] can consume the word [w] when
    [rest] follows it, turning the groups [g] into [g']. This says which
    matches exist; which one [run] finds is a matter of priority. *)
Fixpoint parses (r : regex) (w rest : string) (g g' : captures) : Prop :=
  match r with
  | Bos => w = EmptyString /\ g' = g
  | Eos => w = EmptyString /\ at_eos rest = true /\ g' = g
  | Lit l => w = l /\ g' = g
  | Class p => exists c, w = String c EmptyString /\ p c = true /\ g' = g
  | StarClass p => each_char p w /\ g' = g
  | Cat r1 r2 =>
      exists w1 w2 g1,
        w = w1 +:+ w2 /\ parses r1 w1 (w2 +:+ rest) g g1 /\ parses r2 w2 rest g1 g'
  | Alt r1 r2 => parses r1 w rest g g' \/ parses r2 w rest g g'
  | Grp n r0 => exists g0, parses r0 w rest g g0 /\ g' = <[n := w]> g0
  end.

(** No word of the pattern has a line feed: its literals have none and
    its classes (checked on the 256 characters) are within [.]. *)
Fixpoint one_line (r : regex) : bool :=
  match r with
  | Bos | Eos => true
  | Lit l => negb (PyStr.contains (ascii_of_nat 10) l)
  | Class p | StarClass p =>
      forallb (fun n => implb (p (ascii_of_nat n)) (dot (ascii_of_nat n))) (seq 0 256)
  | Cat r1 r2 | Alt r1 r2 => one_line r1 && one_line r2
  | Grp _ r0 => one_line r0
  end.

(** The last character of a string. *)
Fixpoint last_char (s : string) : option ascii :=
  match s with
  | EmptyString => None
  | String c EmptyString => Some c
  | String _ s' => last_char s'
  end.

(** [v] between two quotes [q]. *)
Definition quoted (q : ascii) (v : string) : string :=
  String q (v +:+ String q EmptyString).

(** A plain identifier, as [_ident] wants it. *)
Definition is_ident (name : string) : Prop :=
  match name with
  | EmptyString => False
  | String c rest => ident_start c = true /\ each_char ident_rest rest
  end.

(** The pattern ends with [$]. *)
Fixpoint anchored (r : regex) : bool :=
  match r with
  | Eos => true
  | Cat _ r2 => anchored r2
  | _ => false
  end.

(** The line feed. *)
Definition LF : ascii := ascii_of_nat 10.

(** Any character but the slash. *)
Definition not_slash (c : ascii) : bool := negb (Ascii.eqb "/" c).

(** [f] applied where [test] holds. *)
Definition refresh (test : element -> bool) (f : element -> element)
    (r : element) : element :=
  if test r then f r else r.

(** A loop body that updates an element when [test] holds and then says
    so. *)
Definition update_body (test : element -> bool) (f : element -> element)
    (x : item) (acc : bool) : M bool :=
  let* e := as_element x in
  let* r := get e in
  if test r then do modify e f then ret true else ret acc.

(** [test] holds of some element of [es] in the store [h]. *)
Definition some_element (test : element -> bool) (h : store) (es : list nat) : bool :=
  existsb (fun e => from_option test false (h !! e)) es.

(** [element.attrib[key] = value] *)
Definition set_attrib (key value : string) (r : element) : element :=
  with_attrib (<[key := value]> (attrib r)) r.

(** What the updating loops leave in the store: the elements of [es]
    with [g] applied, the others as they were. *)
Definition each_updated (g : element -> element) (es : list nat) (h h' : store) : Prop :=
  forall x, h' !! x = if decide (x ∈ es) then g <$> h !! x else h !! x.

(** [r] with one more child, and with a child taken out. *)
Definition add_child (c : nat) (r : element) : element :=
  with_children (children r ++ [c]) r.
Definition drop_child (c : nat) (r : element) : element :=
  with_children (without c (children r)) r.

(** The store [h0] with the element [n] attached as last child of [e]. *)
Definition attached (n e : nat) (h0 : store) : store :=
  alter (with_parent (Some e)) n (alter (add_child n) e h0).

(** The text given to a new element: [if eoa_value: nk.text = eoa_value]. *)
Definition text_given (v : pyval) : option string :=
  match v with
  | VStr s => if nonempty s then Some s else None
  | _ => None
  end.

(** What the loop of [set_target_inner] writes: nothing in a dry run. *)
Definition written (md : module) (f : element -> element) : element -> element :=
  if check_mode md then id else f.

(** The element made of a child that has no children of its own and that
    lxml accepts: a name, a name with a text, a name with attributes. *)
Definition leaf (c : child) : option element :=
  match c with
  | ChildStr s =>
      if valid_tag s then Some (Element s None ∅ [] None) else None
  | ChildText key value =>
      if valid_tag key && from_option valid_text true value
      then Some (Element key value ∅ [] None) else None
  | ChildNode key attrs None =>
      if valid_tag key && attributes_ok attrs
      then Some (Element key None attrs [] None) else None
  | _ => None
  end.

(** [kids] appended to the children of [r]. *)
Definition add_children (kids : list nat) (r : element) : element :=
  with_children (children r ++ kids) r.

(** The first match is an element. *)
Definition element_first (l : list item) : bool :=
  match l with
  | ItemElement _ :: _ => true
  | _ => false
  end.

(** A child that is neither a name nor a hash with one key stops
    [children_to_nodes] with the message of its kind. *)
Definition refused (c : child) : option failure :=
  match c with
  | ChildMany => Some OneKeyOnly
  | ChildOther => Some InvalidChildType
  | _ => None
  end.

End Vocabulary.

(** [<a><b/></a>] *)
Definition doc_ab : store :=
  [Element "a" None ∅ [1] None; Element "b" None ∅ [] (Some 0)].

(** [<a><x/><y/></a>] *)
Definition doc_xy : store :=
  [Element "a" None ∅ [1; 2] None;
   Element "x" None ∅ [] (Some 0);
   Element "y" None ∅ [] (Some 0)].

(** [doc_xy] after [children_to_nodes] has built [y] and [x]. *)
Definition doc_xy_built : store :=
  doc_xy ++ [Element "y" None ∅ [] None; Element "x" None ∅ [] None].

(** [<a b="1"/>] *)
Definition doc_a_b : store := [Element "a" None {["b" := "1"]} [] None].

(** [<r><a><x/></a><a><x/></a></r>] *)
Definition doc_two : store :=
  [Element "r" None ∅ [1; 3] None;
   Element "a" None ∅ [2] (Some 0);
   Element "x" None ∅ [] (Some 1);
   Element "a" None ∅ [4] (Some 0);
   Element "x" None ∅ [] (Some 3)].

(** The verdict of a finished call and the document it leaves, serialized
    from the element 0. *)
Definition report (o : outcome bool) : option (bool * string) :=
  match o with
  | Done changed h => Some (changed, Mini.tostring_of h 0)
  | _ => None
  end.

(** * Properties *)

(** ** Strings *)

Section StringFacts.

Context {lx : Accepts}.

Lemma app_nil_l (b : string) : EmptyString +:+ b = b.
Proof. reflexivity. Qed.

Lemma app_cons (c : ascii) (a b : string) : String c a +:+ b = String c (a +:+ b).
Proof. reflexivity. Qed.

Lemma length_app (a b : string) :
  String.length (a +:+ b) = String.length a + String.length b.
Proof.
  induction a as [|c a IH]; [reflexivity|].
  rewrite app_cons. simpl. now rewrite IH.
Qed.

Lemma app_assoc_s (a b c : string) : (a +:+ b) +:+ c = a +:+ (b +:+ c).
Proof.
  induction a as [|x a IH]; [reflexivity|].
  rewrite !app_cons. now rewrite IH.
Qed.

Lemma substring_0_app (w s : string) : substring 0 (String.length w) (w +:+ s) = w.
Proof.
  induction w as [|c w IH].
  - rewrite app_nil_l. destruct s; reflexivity.
  - rewrite app_cons. simpl. now rewrite IH.
Qed.

Lemma drop_prefix_app (p t r : string) :
  PyStr.drop_prefix p t = Some r -> t = p +:+ r.
Proof.
  revert t; induction p as [|a p IH]; intros t; simpl.
  - now intros [= ->].
  - destruct t as [|b t]; [discriminate|].
    destruct (Ascii.eqb_spec a b) as [->|]; [|discriminate].
    intros H. rewrite app_cons. f_equal. exact (IH _ H).
Qed.

Lemma lstrip_same_or_shorter (s : string) :
  PyStr.lstrip s = s \/ String.length (PyStr.lstrip s) < String.length s.
Proof.
  assert (Hle : forall t, String.length (PyStr.lstrip t) <= String.length t).
  { induction t as [|c t IH]; simpl; [lia|].
    destruct (PyStr.is_space c); simpl; lia. }
  destruct s as [|c s]; simpl; [now left|].
  destruct (PyStr.is_space c); [right | now left].
  specialize (Hle s). lia.
Qed.

Lemma rstrip_same_or_shorter (s : string) :
  PyStr.rstrip s = s \/ String.length (PyStr.rstrip s) < String.length s.
Proof.
  induction s as [|c s IH]; simpl; [now left|].
  destruct IH as [IH|IH].
  - rewrite IH. destruct s as [|d s].
    + destruct (PyStr.is_space c); [right; simpl; lia | now left].
    + now left.
  - destruct (PyStr.rstrip s) as [|d r].
    + destruct (PyStr.is_space c); right; simpl in *; lia.
    + right; simpl in *; lia.
Qed.

Lemma strip_same_or_shorter (s : string) :
  PyStr.strip s = s \/ String.length (PyStr.strip s) < String.length s.
Proof.
  unfold PyStr.strip.
  destruct (lstrip_same_or_shorter s) as [E|L].
  - rewrite E. apply rstrip_same_or_shorter.
  - right. destruct (rstrip_same_or_shorter (PyStr.lstrip s)) as [E'|L'].
    + now rewrite E'.
    + lia.
Qed.

Lemma strip_length (s : string) : String.length (PyStr.strip s) <= String.length s.
Proof. destruct (strip_same_or_shorter s) as [->|]; lia. Qed.

Lemma rstrip_idem (s : string) : PyStr.rstrip (PyStr.rstrip s) = PyStr.rstrip s.
Proof.
  induction s as [|c s IH]; simpl; [reflexivity|].
  destruct (PyStr.rstrip s) as [|d r] eqn:E.
  - destruct (PyStr.is_space c) eqn:Hc; simpl; [reflexivity | now rewrite Hc].
  - simpl in *. now rewrite IH.
Qed.

Lemma lstrip_clean (s : string) : starts_clean (PyStr.lstrip s).
Proof.
  induction s as [|c s IH]; simpl; [exact I|].
  destruct (PyStr.is_space c) eqn:Hc; [exact IH | exact Hc].
Qed.

Lemma lstrip_of_clean (s : string) : starts_clean s -> PyStr.lstrip s = s.
Proof. destruct s as [|c s]; simpl; [reflexivity | now intros ->]. Qed.

Lemma rstrip_clean (s : string) : starts_clean s -> starts_clean (PyStr.rstrip s).
Proof.
  destruct s as [|c s]; simpl; [exact id|]. intros Hc.
  destruct (PyStr.rstrip s); [rewrite Hc|]; exact Hc.
Qed.

Lemma strip_idem (s : string) : PyStr.strip (PyStr.strip s) = PyStr.strip s.
Proof.
  unfold PyStr.strip.
  rewrite (lstrip_of_clean (PyStr.rstrip (PyStr.lstrip s))).
  - apply rstrip_idem.
  - apply rstrip_clean, lstrip_clean.
Qed.

Lemma split_go_piece (sep : string) (s : string) :
  forall skip cur piece,
    piece ∈ PyStr.split_go sep skip cur s ->
    String.length piece <= String.length cur + String.length s.
Proof.
  induction s as [|c s IH]; intros skip cur piece; simpl.
  - intros ->%list_elem_of_singleton. lia.
  - destruct skip as [|n].
    + destruct (PyStr.drop_prefix sep (String c s)).
      * intros [->|H]%elem_of_cons; [lia|].
        apply IH in H. simpl in H. lia.
      * intros H. apply IH in H. unfold PyStr.snoc in H.
        rewrite length_app in H. simpl in H. lia.
    + intros H. apply IH in H. lia.
Qed.

Lemma split_piece (sep s piece : string) :
  piece ∈ PyStr.split sep s -> String.length piece <= String.length s.
Proof. intros H. apply split_go_piece in H. simpl in H. lia. Qed.

End StringFacts.

(** ** The matcher *)

Section RegexFacts.

Context {lx : Accepts}.

Import Re.

Lemma star_sound p s :
  forall i g k m,
    star p i s g k = Some m ->
    exists w s', s = w +:+ s' /\ k (i + String.length w) s' g = Some m.
Proof.
  induction s as [|c s IH]; intros i g k m; simpl.
  - intros H. exists EmptyString, EmptyString. simpl. now rewrite Nat.add_0_r.
  - destruct (p c).
    + destruct (star p (S i) s g k) as [m'|] eqn:E.
      * intros [= ->]. destruct (IH _ _ _ _ E) as (w & s' & -> & Hk).
        exists (String c w), s'. split; [reflexivity|].
        simpl. now rewrite Nat.add_succ_r.
      * intros H. exists EmptyString, (String c s). simpl. now rewrite Nat.add_0_r.
    + intros H. exists EmptyString, (String c s). simpl. now rewrite Nat.add_0_r.
Qed.

Lemma run_sound r :
  forall i s g k m,
    run r i s g k = Some m ->
    exists w s' g',
      s = w +:+ s' /\ lang r w /\
      (forall n, n ∉ groups r -> g' !! n = g !! n) /\
      k (i + String.length w) s' g' = Some m.
Proof.
  induction r as [| |l|p|p|r1 IH1 r2 IH2|r1 IH1 r2 IH2|n r0 IH];
    intros i s g k m; simpl.
  - destruct (Nat.eqb i 0); [|discriminate]. intros H.
    exists EmptyString, s, g. simpl. rewrite Nat.add_0_r. auto.
  - destruct (at_eos s); [|discriminate]. intros H.
    exists EmptyString, s, g. simpl. rewrite Nat.add_0_r. auto.
  - destruct (PyStr.drop_prefix l s) as [s'|] eqn:E; [|discriminate]. intros H.
    exists l, s', g. apply drop_prefix_app in E. auto.
  - destruct s as [|c s]; [discriminate|].
    destruct (p c) eqn:Hp; [|discriminate]. intros H.
    exists (String c EmptyString), s, g. simpl. rewrite Nat.add_1_r.
    repeat split; eauto.
  - intros H. destruct (star_sound _ _ _ _ _ _ H) as (w & s' & -> & Hk).
    exists w, s', g. auto.
  - intros H.
    destruct (IH1 _ _ _ _ _ H) as (w1 & s1 & g1 & -> & L1 & F1 & H1).
    destruct (IH2 _ _ _ _ _ H1) as (w2 & s2 & g2 & -> & L2 & F2 & H2).
    exists (w1 +:+ w2), s2, g2. repeat split.
    + now rewrite app_assoc_s.
    + eauto.
    + intros n Hn. rewrite not_elem_of_app in Hn. destruct Hn.
      rewrite F2, F1; auto.
    + now rewrite length_app, Nat.add_assoc.
  - destruct (run r1 i s g k) as [m'|] eqn:E.
    + intros [= ->].
      destruct (IH1 _ _ _ _ _ E) as (w & s' & g' & -> & L & F & H).
      exists w, s', g'. repeat split; auto.
      intros n Hn. rewrite not_elem_of_app in Hn. apply F, Hn.
    + intros H.
      destruct (IH2 _ _ _ _ _ H) as (w & s' & g' & -> & L & F & H').
      exists w, s', g'. repeat split; auto.
      intros n Hn. rewrite not_elem_of_app in Hn. apply F, Hn.
  - intros H.
    destruct (IH _ _ _ _ _ H) as (w & s' & g' & -> & L & F & H').
    exists w, s', (<[n := substring 0 (i + String.length w - i) (w +:+ s')]> g').
    repeat split; auto.
    intros n' Hn. rewrite not_elem_of_cons in Hn. destruct Hn.
    rewrite lookup_insert_ne; auto.
Qed.

(** A group followed by the rest of a pattern: the text it consumed is
    what it captured. *)
Lemma run_group n r0 rest i s g k m :
  run (Cat (Grp n r0) rest) i s g k = Some m ->
  exists w s' g',
    s = w +:+ s' /\ lang r0 w /\
    (forall x, x ∉ groups r0 -> g' !! x = g !! x) /\
    run rest (i + String.length w) s' (<[n := w]> g') k = Some m.
Proof.
  simpl. intros H.
  destruct (run_sound _ _ _ _ _ _ H) as (w & s' & g' & -> & L & F & H').
  exists w, s', g'. repeat split; auto.
  replace (i + String.length w - i) with (String.length w) in H' by lia.
  now rewrite substring_0_app in H'.
Qed.

Lemma run_lit l rest i s g k m :
  run (Cat (Lit l) rest) i s g k = Some m ->
  exists s', s = l +:+ s' /\ run rest (i + String.length l) s' g k = Some m.
Proof.
  simpl. destruct (PyStr.drop_prefix l s) as [s'|] eqn:E; [|discriminate].
  intros H. exists s'. apply drop_prefix_app in E. auto.
Qed.

Lemma run_bos rest s g k m :
  run (Cat Bos rest) 0 s g k = Some m -> run rest 0 s g k = Some m.
Proof. simpl. exact id. Qed.

Lemma run_final r i s g m :
  run r i s g final = Some m ->
  exists w s', s = w +:+ s' /\ lang r w /\
               forall n, n ∉ groups r -> m !! n = g !! n.
Proof.
  intros H.
  destruct (run_sound _ _ _ _ _ _ H) as (w & s' & g' & -> & L & F & [= <-]).
  eauto.
Qed.

Lemma group_insert (m g : captures) n w :
  m !! n = (<[n := w]> g) !! n -> group m n = w.
Proof. unfold group. rewrite lookup_insert_eq. now intros ->. Qed.

(** An [_ident] starts with a character of its first class. *)
Lemma lang_ident w :
  lang _ident w -> exists c w', w = String c w' /\ ident_start c = true.
Proof.
  intros (w1 & w2 & -> & (c & -> & Hc) & _). exists c, w2. auto.
Qed.

Lemma lang_nsIdent w :
  lang _nsIdent w -> exists c w', w = String c w' /\ ident_start c = true.
Proof.
  intros [H|(w1 & w2 & -> & H & _)].
  - now apply lang_ident.
  - destruct (lang_ident _ H) as (c & w' & -> & Hc).
    exists c, (w' +:+ w2). auto.
Qed.

End RegexFacts.

(** ** The six patterns *)

Section PatternFacts.

Context {lx : Accepts}.

Import Re.

Lemma ident_start_plain c :
  ident_start c = true -> Ascii.eqb c "@" = false /\ Ascii.eqb c "/" = false.
Proof.
  destruct c as [[] [] [] [] [] [] [] []]; vm_compute; intros H;
    first [discriminate H | split; reflexivity].
Qed.

Lemma dispatch_ident c w : ident_start c = true -> dispatch (String c w) = BranchElement.
Proof.
  intros H. destruct (ident_start_plain _ H) as [H1 H2].
  unfold dispatch. simpl. now rewrite H1, H2.
Qed.

Ltac open_match H :=
  unfold rmatch in H; apply run_bos in H;
  let w := fresh "w" in let s := fresh "s" in let g := fresh "g" in
  let F := fresh "F" in
  apply run_group in H as (w & s & g & -> & _ & F & H).

Ltac next_lit H :=
  let s := fresh "s" in apply run_lit in H as (s & -> & H).

Ltac next_group H L :=
  let w := fresh "w" in let s := fresh "s" in let g := fresh "g" in
  let F := fresh "F" in
  apply run_group in H as (w & s & g & -> & L & F & H).

Ltac close_match H :=
  let w := fresh "w" in let s := fresh "s" in let F := fresh "F" in
  apply run_final in H as (w & s & -> & _ & F).

Ltac lookup_group :=
  unfold group;
  repeat first
    [ rewrite lookup_insert_eq
    | rewrite lookup_insert_ne by discriminate
    | match goal with
      | F : forall n, n ∉ _ -> ?m !! n = _ |- context [?m !! ?k] =>
          rewrite (F k) by (simpl; set_solver)
      end ];
  simpl.

Ltac lengths := rewrite ?length_app; simpl; lia.

Lemma shape_SimpleLast s m :
  rmatch _re_splitSimpleLast s = Some m ->
  String.length (group m 1) < String.length s
  /\ dispatch (group m 2) = BranchElement.
Proof.
  intros H. open_match H. next_lit H. next_group H L. close_match H.
  apply lang_nsIdent in L as (c & w' & -> & Hc). split.
  - lookup_group. lengths.
  - lookup_group. now apply dispatch_ident.
Qed.

Lemma shape_SimpleLastEqValue s m :
  rmatch _re_splitSimpleLastEqValue s = Some m ->
  String.length (group m 1) < String.length s
  /\ dispatch (group m 2) = BranchElement.
Proof.
  intros H. open_match H. next_lit H. next_group H L. next_lit H.
  unfold _xpstr in H. next_group H L'. close_match H.
  apply lang_nsIdent in L as (c & w' & -> & Hc). split.
  - lookup_group. lengths.
  - lookup_group. now apply dispatch_ident.
Qed.

Lemma shape_SimpleAttrLast s m :
  rmatch _re_splitSimpleAttrLast s = Some m ->
  String.length (group m 1) < String.length s
  /\ dispatch (group m 2) = BranchAttribute.
Proof.
  intros H. open_match H. next_lit H. next_group H L. close_match H.
  destruct L as (a & b & -> & La & _). simpl in La. subst a. split.
  - lookup_group. lengths.
  - lookup_group. reflexivity.
Qed.

Lemma shape_SimpleAttrLastEqValue s m :
  rmatch _re_splitSimpleAttrLastEqValue s = Some m ->
  String.length (group m 1) < String.length s
  /\ dispatch (group m 2) = BranchAttribute.
Proof.
  intros H. open_match H. next_lit H. next_group H L. next_lit H.
  unfold _xpstr in H. next_group H L'. close_match H.
  destruct L as (a & b & -> & La & _). simpl in La. subst a. split.
  - lookup_group. lengths.
  - lookup_group. reflexivity.
Qed.

Lemma shape_SubLast s m :
  rmatch _re_splitSubLast s = Some m ->
  String.length (group m 1) < String.length s
  /\ 3 + String.length (group m 3) <= String.length s.
Proof.
  intros H. open_match H. next_lit H. next_group H L. next_lit H.
  next_group H L'. next_lit H. close_match H. split.
  - lookup_group. lengths.
  - lookup_group. lengths.
Qed.

Lemma shape_OnlyEqValue s m :
  rmatch _re_splitOnlyEqValue s = Some m ->
  String.length (group m 1) < String.length s.
Proof.
  intros H. open_match H. next_lit H.
  unfold _xpstr in H. next_group H L'. close_match H.
  lookup_group. lengths.
Qed.

End PatternFacts.

(** ** What [split_xpath_last] returns *)

Section SplitFacts.

Context {lx : Accepts}.

Import Re.

Lemma unclassified_iff s :
  unclassified s <->
  rmatch _re_splitSimpleLast s = None /\
  rmatch _re_splitSimpleLastEqValue s = None /\
  rmatch _re_splitSimpleAttrLast s = None /\
  rmatch _re_splitSimpleAttrLastEqValue s = None /\
  rmatch _re_splitSubLast s = None /\
  rmatch _re_splitOnlyEqValue s = None.
Proof.
  unfold unclassified, rules. rewrite !Forall_cons, Forall_nil. tauto.
Qed.

Lemma split_xpath_last_cases xpath :
  let s := PyStr.strip xpath in
  (unclassified s /\ split_xpath_last xpath = (s, []))
  \/ (~ unclassified s /\
      exists inner change,
        split_xpath_last xpath = (inner, [change])
        /\ String.length inner < String.length s
        /\ well_formed_change s change).
Proof.
  intros s. unfold split_xpath_last. fold s.
  assert (Hno : forall r, r ∈ rules -> is_Some (rmatch r s) -> ~ unclassified s).
  { intros r Hr [m Hm] Hu. unfold unclassified in Hu.
    rewrite Forall_forall in Hu. specialize (Hu r Hr). congruence. }
  destruct (rmatch _re_splitSimpleLast s) as [m|] eqn:E1.
  { right. split; [apply (Hno _re_splitSimpleLast); [set_solver | eauto]|].
    destruct (shape_SimpleLast _ _ E1) as [Hl Hd].
    eexists _, _. split; [reflexivity|]. split; [exact Hl|].
    unfold well_formed_change. simpl. now rewrite Hd. }
  destruct (rmatch _re_splitSimpleLastEqValue s) as [m|] eqn:E2.
  { right. split; [apply (Hno _re_splitSimpleLastEqValue); [set_solver | eauto]|].
    destruct (shape_SimpleLastEqValue _ _ E2) as [Hl Hd].
    eexists _, _. split; [reflexivity|]. split; [exact Hl|].
    unfold well_formed_change. simpl. now rewrite Hd. }
  destruct (rmatch _re_splitSimpleAttrLast s) as [m|] eqn:E3.
  { right. split; [apply (Hno _re_splitSimpleAttrLast); [set_solver | eauto]|].
    destruct (shape_SimpleAttrLast _ _ E3) as [Hl Hd].
    eexists _, _. split; [reflexivity|]. split; [exact Hl|].
    unfold well_formed_change. simpl. now rewrite Hd. }
  destruct (rmatch _re_splitSimpleAttrLastEqValue s) as [m|] eqn:E4.
  { right. split; [apply (Hno _re_splitSimpleAttrLastEqValue); [set_solver | eauto]|].
    destruct (shape_SimpleAttrLastEqValue _ _ E4) as [Hl Hd].
    eexists _, _. split; [reflexivity|]. split; [exact Hl|].
    unfold well_formed_change. simpl. now rewrite Hd. }
  destruct (rmatch _re_splitSubLast s) as [m|] eqn:E5.
  { right. split; [apply (Hno _re_splitSubLast); [set_solver | eauto]|].
    destruct (shape_SubLast _ _ E5) as [Hl Hd].
    eexists _, _. split; [reflexivity|]. split; [exact Hl|].
    unfold well_formed_change. cbn [fst snd].
    change (dispatch ("/" +:+ group m 2)) with BranchSubscript.
    eexists. split; [reflexivity|].
    intros sub (piece & -> & Hp)%list_elem_of_fmap.
    apply split_piece in Hp. pose proof (strip_length piece). lia. }
  destruct (rmatch _re_splitOnlyEqValue s) as [m|] eqn:E6.
  { right. split; [apply (Hno _re_splitOnlyEqValue); [set_solver | eauto]|].
    pose proof (shape_OnlyEqValue _ _ E6) as Hl.
    eexists _, _. split; [reflexivity|]. split; [exact Hl|].
    exact I. }
  left. split; [|reflexivity]. apply unclassified_iff. auto 10.
Qed.

(** The prefix is shorter than the selector unless it is the selector. *)
Lemma split_xpath_last_shrinks xpath inner changes :
  split_xpath_last xpath = (inner, changes) ->
  inner <> xpath ->
  String.length inner < String.length xpath.
Proof.
  intros E Hne. pose proof (strip_length xpath) as Hs.
  destruct (split_xpath_last_cases xpath) as [[_ E']|(_ & i & c & E' & Hl & _)];
    rewrite E in E'; injection E' as -> ->.
  - destruct (strip_same_or_shorter xpath); [contradiction | assumption].
  - lia.
Qed.

End SplitFacts.

(** ** Calls that end *)

Section Ends.

Context {lx : Accepts}.

Lemma ends_ret {A} (a : A) : ends (ret a).
Proof. intros h; discriminate. Qed.

Lemma ends_raise {A} e : ends (@raise A e).
Proof. intros h; discriminate. Qed.

Lemma ends_fail_json {A} f : ends (@fail_json A f).
Proof. intros h; discriminate. Qed.

Lemma ends_bind {A B} (m : M A) (k : A -> M B) :
  ends m -> (forall a, ends (k a)) -> ends (bind m k).
Proof.
  intros Hm Hk h. unfold bind. specialize (Hm h).
  destruct (m h); try discriminate; [apply Hk | contradiction].
Qed.

Lemma ends_try {A} (m : M A) handler :
  ends m -> (forall e, ends (handler e)) -> ends (try_except m handler).
Proof.
  intros Hm Hk h. unfold try_except. specialize (Hm h).
  destruct (m h); try discriminate; [apply Hk | contradiction].
Qed.

Lemma ends_when b m : ends m -> ends (when b m).
Proof. destruct b; [exact id | intros _; apply ends_ret]. Qed.

Lemma ends_for_in {A S} (l : list A) (body : A -> S -> M S) :
  (forall x acc, x ∈ l -> ends (body x acc)) -> forall acc, ends (for_in l body acc).
Proof.
  induction l as [|x l IH]; intros Hb acc; simpl.
  - apply ends_ret.
  - apply ends_bind; [apply Hb; left|].
    intros a. apply IH. intros y acc' Hy. apply Hb. now right.
Qed.

Lemma ends_map_m {A B} (f : A -> M B) (l : list A) :
  (forall x, x ∈ l -> ends (f x)) -> ends (map_m f l).
Proof.
  induction l as [|x l IH]; intros Hf; simpl.
  - apply ends_ret.
  - apply ends_bind; [apply Hf; left|]. intros y.
    apply ends_bind; [apply IH; intros z Hz; apply Hf; now right|].
    intros ys. apply ends_ret.
Qed.

Lemma ends_get e : ends (get e).
Proof. intros h. unfold get. destruct (h !! e); discriminate. Qed.

Lemma ends_modify e f : ends (modify e f).
Proof. intros h; discriminate. Qed.

Lemma ends_new_element t a : ends (new_element t a).
Proof.
  intros h. unfold new_element.
  destruct (valid_tag t && attributes_ok a); discriminate.
Qed.

Lemma ends_set_text e t : ends (set_text e t).
Proof.
  intros h. unfold set_text. destruct t as [s|]; [|discriminate].
  destruct (valid_text s); discriminate.
Qed.

Lemma ends_set_attribute e k v : ends (set_attribute e k v).
Proof.
  intros h. unfold set_attribute.
  destruct (valid_attribute k && valid_value v); discriminate.
Qed.

Lemma ends_get_attribute e k : ends (get_attribute e k).
Proof.
  intros h. unfold get_attribute, bind, get, ret.
  destruct (valid_key k); [|discriminate]. destruct (h !! e); discriminate.
Qed.

Ltac ends_step :=
  first
    [ apply ends_ret | apply ends_raise | apply ends_fail_json | apply ends_get
    | apply ends_modify | apply ends_new_element | apply ends_set_text
    | apply ends_set_attribute | apply ends_get_attribute
    | apply ends_bind; [|intros ?]
    | apply ends_when
    | apply ends_for_in; intros ? ? _
    | match goal with
      | |- ends (match ?x with _ => _ end) => destruct x
      | |- ends (if ?x then _ else _) => destruct x
      end ].

Ltac ends_auto := repeat ends_step.

Lemma ends_append p c : ends (append p c).
Proof. unfold append. ends_auto. Qed.

Lemma ends_extend p kids : ends (extend p kids).
Proof. unfold extend. apply ends_for_in. intros. apply ends_append. Qed.

Lemma ends_as_text v : ends (as_text v).
Proof. destruct v; simpl; ends_auto. Qed.

Lemma ends_as_element x : ends (as_element x).
Proof. destruct x; simpl; ends_auto. Qed.

Lemma ends_iter r : ends (iter r).
Proof. destruct r; simpl; ends_auto. Qed.

Lemma ends_first r : ends (first r).
Proof. destruct r as [[|x l]| |]; simpl; ends_auto. Qed.

Variable xpath_eval : store -> nat -> string -> namespaces -> pyexn + xpath_result.
Variable parse_xml : string -> option fragment.

Lemma ends_tree_xpath tree xpath ns : ends (tree_xpath xpath_eval tree xpath ns).
Proof. intros h. unfold tree_xpath. destruct (xpath_eval h tree xpath ns); discriminate. Qed.

Lemma ends_is_node tree xpath ns : ends (is_node xpath_eval tree xpath ns).
Proof.
  unfold is_node, xpath_matches.
  repeat first [apply ends_tree_xpath | apply ends_first | ends_step].
Qed.

Lemma ends_nsnameToClark name ns : ends (nsnameToClark name ns).
Proof.
  unfold nsnameToClark. destruct (PyStr.contains ":" name); [|apply ends_ret].
  destruct (PyStr.split ":" name) as [|a [|b [|c l]]]; ends_auto.
Qed.

Lemma ends_new_kids md name :
  ends (children_to_nodes parse_xml md [ChildStr name] InYaml).
Proof. unfold children_to_nodes. simpl. ends_auto. Qed.

(** A change ends when the nested calls it makes for its predicates do. *)
Lemma ends_apply_change md tree inner ns recurse change changed :
  (forall preds sub nk,
      dispatch (fst change) = BranchSubscript ->
      snd change = VList preds -> sub ∈ preds ->
      ends (recurse nk ("./" +:+ sub))) ->
  (dispatch (fst change) = BranchSubscript -> exists preds, snd change = VList preds) ->
  ends (apply_change xpath_eval parse_xml md tree inner ns recurse change changed).
Proof.
  destruct change as [eoa v]. simpl. intros Hrec Hsub.
  unfold apply_change. destruct (dispatch eoa) eqn:Hd.
  - repeat first
      [ apply ends_nsnameToClark | apply ends_new_kids | apply ends_tree_xpath
      | apply ends_iter | apply ends_as_element | apply ends_extend
      | apply ends_as_text | ends_step ].
  - destruct (Hsub eq_refl) as [preds ->].
    apply ends_bind; [apply ends_nsnameToClark|]. intros name.
    apply ends_bind; [apply ends_new_kids|]. intros new_kids.
    apply ends_bind; [apply ends_tree_xpath|]. intros r.
    apply ends_bind; [apply ends_iter|]. intros nodes.
    apply ends_for_in. intros node acc _.
    apply ends_bind.
    { apply ends_when. apply ends_bind; [apply ends_as_element|].
      intros e. apply ends_extend. }
    intros _.
    apply ends_bind; [|intros _; apply ends_ret].
    apply ends_for_in. intros nk [] _. simpl.
    change (bind (ret preds) ?k) with (k preds).
    apply ends_for_in. intros sub [] Hin.
    apply ends_bind; [|intros _; apply ends_ret].
    now apply (Hrec preds).
  - repeat first
      [ apply ends_tree_xpath | apply ends_iter | apply ends_as_element
      | apply ends_as_text | ends_step ].
  - repeat first
      [ apply ends_nsnameToClark | apply ends_tree_xpath | apply ends_iter
      | apply ends_as_element | ends_step ].
  - apply ends_fail_json.
Qed.

(** A budget above the length of the selector is never used up. *)
Lemma ends_check_or_make_target_rec md ns fuel :
  forall tree xpath,
    String.length xpath < fuel ->
    ends (check_or_make_target_rec xpath_eval parse_xml fuel md tree xpath ns).
Proof.
  induction fuel as [|fuel IH]; intros tree xpath Hlen; [lia|].
  simpl. destruct (split_xpath_last xpath) as [inner changes] eqn:E.
  destruct (String.eqb_spec inner xpath) as [->|Hne]; [apply ends_fail_json|].
  pose proof (split_xpath_last_shrinks _ _ _ E Hne) as Hshort.
  apply ends_bind; [apply ends_is_node|]. intros present.
  apply ends_bind.
  { destruct present; simpl; [apply ends_ret | apply IH; lia]. }
  intros changed.
  apply ends_bind; [apply ends_is_node|]. intros present'.
  destruct (present' && _); [|apply ends_ret].
  apply ends_for_in. intros change acc Hin.
  destruct (split_xpath_last_cases xpath) as [[_ E']|(_ & i & c & E' & Hl & Hwf)];
    rewrite E in E'; injection E' as -> ->.
  { now apply elem_of_nil in Hin. }
  apply list_elem_of_singleton in Hin as ->.
  pose proof (strip_length xpath) as Hs.
  unfold well_formed_change in Hwf.
  apply ends_apply_change.
  - intros preds sub nk Hd Hv Hsub. rewrite Hd in Hwf.
    destruct Hwf as (preds' & Hv' & Hbound). rewrite Hv in Hv'.
    injection Hv' as <-. apply IH.
    rewrite length_app. simpl. specialize (Hbound _ Hsub). lia.
  - intros Hd. rewrite Hd in Hwf. destruct Hwf as (preds & Hv & _). eauto.
Qed.

Lemma same_run_refl {A} (m : M A) : same_run m m.
Proof. intros h; reflexivity. Qed.

Lemma same_run_bind {A B} (m1 m2 : M A) (k1 k2 : A -> M B) :
  same_run m1 m2 -> (forall a, same_run (k1 a) (k2 a)) ->
  same_run (bind m1 k1) (bind m2 k2).
Proof.
  intros Hm Hk h. unfold bind. rewrite (Hm h).
  destruct (m2 h); try reflexivity. apply Hk.
Qed.

Lemma same_run_for_in {A S} (l : list A) (b1 b2 : A -> S -> M S) :
  (forall x acc, x ∈ l -> same_run (b1 x acc) (b2 x acc)) ->
  forall acc, same_run (for_in l b1 acc) (for_in l b2 acc).
Proof.
  induction l as [|x l IH]; intros Hb acc; simpl.
  - apply same_run_refl.
  - apply same_run_bind; [apply Hb; left|].
    intros a. apply IH. intros y acc' Hy. apply Hb. now right.
Qed.

(** A change does the same with two nested calls that agree on the
    selectors of its predicates. *)
Lemma same_run_apply_change md tree inner ns r1 r2 change changed :
  (forall preds sub nk,
      dispatch (fst change) = BranchSubscript ->
      snd change = VList preds -> sub ∈ preds ->
      same_run (r1 nk ("./" +:+ sub)) (r2 nk ("./" +:+ sub))) ->
  (dispatch (fst change) = BranchSubscript -> exists preds, snd change = VList preds) ->
  same_run (apply_change xpath_eval parse_xml md tree inner ns r1 change changed)
           (apply_change xpath_eval parse_xml md tree inner ns r2 change changed).
Proof.
  destruct change as [eoa v]. simpl. intros Hrec Hsub.
  unfold apply_change. destruct (dispatch eoa) eqn:Hd; try apply same_run_refl.
  destruct (Hsub eq_refl) as [preds ->].
  apply same_run_bind; [apply same_run_refl|]. intros name.
  apply same_run_bind; [apply same_run_refl|]. intros new_kids.
  apply same_run_bind; [apply same_run_refl|]. intros r.
  apply same_run_bind; [apply same_run_refl|]. intros nodes.
  apply same_run_for_in. intros node acc _.
  apply same_run_bind; [apply same_run_refl|]. intros _.
  apply same_run_bind; [|intros _; apply same_run_refl].
  apply same_run_for_in. intros nk [] _. simpl.
  change (bind (ret preds) ?k) with (k preds).
  apply same_run_for_in. intros sub [] Hin.
  apply same_run_bind; [|intros _; apply same_run_refl].
  now apply (Hrec preds).
Qed.

(** Two budgets above the length of the selector give the same run. *)
Lemma check_or_make_target_rec_stable md ns fuel1 :
  forall fuel2 tree xpath,
    String.length xpath < fuel1 -> String.length xpath < fuel2 ->
    same_run (check_or_make_target_rec xpath_eval parse_xml fuel1 md tree xpath ns)
             (check_or_make_target_rec xpath_eval parse_xml fuel2 md tree xpath ns).
Proof.
  induction fuel1 as [|fuel1 IH]; intros fuel2 tree xpath H1 H2; [lia|].
  destruct fuel2 as [|fuel2]; [lia|].
  simpl. destruct (split_xpath_last xpath) as [inner changes] eqn:E.
  destruct (String.eqb_spec inner xpath) as [->|Hne]; [apply same_run_refl|].
  pose proof (split_xpath_last_shrinks _ _ _ E Hne) as Hshort.
  apply same_run_bind; [apply same_run_refl|]. intros present.
  apply same_run_bind.
  { destruct present; simpl; [apply same_run_refl | apply IH; lia]. }
  intros changed.
  apply same_run_bind; [apply same_run_refl|]. intros present'.
  destruct (present' && _); [|apply same_run_refl].
  apply same_run_for_in. intros change acc Hin.
  destruct (split_xpath_last_cases xpath) as [[_ E']|(_ & i & c & E' & Hl & Hwf)];
    rewrite E in E'; injection E' as -> ->.
  { now apply elem_of_nil in Hin. }
  apply list_elem_of_singleton in Hin as ->.
  pose proof (strip_length xpath) as Hs.
  unfold well_formed_change in Hwf.
  apply same_run_apply_change.
  - intros preds sub nk Hd Hv Hsub. rewrite Hd in Hwf.
    destruct Hwf as (preds' & Hv' & Hbound). rewrite Hv in Hv'.
    injection Hv' as <-. specialize (Hbound _ Hsub).
    apply IH; rewrite length_app; simpl; lia.
  - intros Hd. rewrite Hd in Hwf. destruct Hwf as (preds & Hv & _). eauto.
Qed.

End Ends.

(** ** The grammar on the selectors of the specification *)

Section Grammar.

Context {lx : Accepts}.

Import Re.

(** C7. [split_xpath_last] on [/a/b[@x='1' and @y='2']]: the first four
    patterns do not match, the subscript pattern captures [/a], [b] and
    the bracket content, the content is split on [" and "] into the raw
    predicates [@x='1'] and [@y='2'], and the one change returned is read
    by [check_or_make_target] as the subscripted element [b] with these
    two predicates. *)
Theorem split_subscripted_element :
  let xpath := "/a/b[@x='1' and @y='2']" in
  rmatch _re_splitSimpleLast xpath = None
  /\ rmatch _re_splitSimpleLastEqValue xpath = None
  /\ rmatch _re_splitSimpleAttrLast xpath = None
  /\ rmatch _re_splitSimpleAttrLastEqValue xpath = None
  /\ groups_1_2_3 <$> rmatch _re_splitSubLast xpath = Some ("/a", "b", "@x='1' and @y='2'")
  /\ PyStr.split " and " "@x='1' and @y='2'" = ["@x='1'"; "@y='2'"]
  /\ split_xpath_last xpath = ("/a", [("/b", VList ["@x='1'"; "@y='2'"])])
  /\ segment_of <$> snd (split_xpath_last xpath)
     = [Some (SubscriptedElement "b" ["@x='1'"; "@y='2'"])].
Proof. vm_compute. repeat split. Qed.

(** C8. [split_xpath_last] on [/a/@b='v']: none of the three patterns
    tried before [_re_splitSimpleAttrLastEqValue] matches, in particular
    not the attribute-exists pattern; the fourth captures [/a], [@b] and
    ['v'], and the change is read as the attribute [b] with value [v]. *)
Theorem split_attribute_with_value :
  let xpath := "/a/@b='v'" in
  rmatch _re_splitSimpleLast xpath = None
  /\ rmatch _re_splitSimpleLastEqValue xpath = None
  /\ rmatch _re_splitSimpleAttrLast xpath = None
  /\ groups_1_2_3 <$> rmatch _re_splitSimpleAttrLastEqValue xpath = Some ("/a", "@b", "'v'")
  /\ split_xpath_last xpath = ("/a", [("@b", VStr "v")])
  /\ segment_of <$> snd (split_xpath_last xpath) = [Some (AttributeWithValue "b" "v")]
  /\ segment_of <$> snd (split_xpath_last xpath) <> [Some (AttributeExists "b")].
Proof. vm_compute. repeat split. discriminate. Qed.

(** C10, as the code has it. For every input, [split_xpath_last] returns
    at most one change: exactly one when some pattern matches the
    stripped input, and none, with the stripped input as prefix, when no
    pattern does. *)
Theorem split_xpath_last_at_most_one (xpath : string) :
  length (snd (split_xpath_last xpath)) <= 1
  /\ ((unclassified (PyStr.strip xpath)
       /\ split_xpath_last xpath = (PyStr.strip xpath, []))
      \/ (~ unclassified (PyStr.strip xpath)
          /\ exists change, snd (split_xpath_last xpath) = [change])).
Proof.
  destruct (split_xpath_last_cases xpath) as [[Hu E]|(Hu & i & c & E & _)];
    rewrite E; simpl.
  - split; [lia|]. left. auto.
  - split; [lia|]. right. eauto.
Qed.

(** C10, as stated, fails on a selector with a trailing blank: no pattern
    matches, no change is returned, and the prefix is not the input. *)
Lemma split_unclassified_not_verbatim :
  let xpath := "/a/* " in
  unclassified xpath
  /\ unclassified (PyStr.strip xpath)
  /\ snd (split_xpath_last xpath) = []
  /\ fst (split_xpath_last xpath) = "/a/*"
  /\ fst (split_xpath_last xpath) <> xpath.
Proof.
  split; [|split; [|split; [|split]]].
  - apply unclassified_iff. vm_compute. repeat split.
  - apply unclassified_iff. vm_compute. repeat split.
  - vm_compute. reflexivity.
  - vm_compute. reflexivity.
  - vm_compute. discriminate.
Qed.

End Grammar.

(** ** Decomposition failure and termination *)

Section Synthesizer.

Context {lx : Accepts}.

Variable xpath_eval : store -> nat -> string -> namespaces -> pyexn + xpath_result.
Variable parse_xml : string -> option fragment.

Lemma is_node_reads tree xpath ns : reads (is_node xpath_eval tree xpath ns).
Proof.
  intros h. unfold is_node, xpath_matches, tree_xpath, bind.
  destruct (xpath_eval h tree xpath ns) as [e|r] eqn:E; [right; eauto|].
  destruct (truthy r) eqn:T; [|left; eauto].
  unfold ret. rewrite E.
  destruct r as [[|x l]|b|n]; simpl.
  - discriminate T.
  - destruct (is_element x); left; eauto.
  - right; eauto.
  - right; eauto.
Qed.

(** The existence check of [ensure_xpath_exists]: when [is_node] says the
    selector resolves to an element, nothing is synthesized. *)
Lemma ensure_short_circuits md tree xpath ns (h : store) :
  is_node xpath_eval tree xpath ns h = Done true h ->
  ensure_xpath_exists xpath_eval parse_xml md tree xpath ns h = Done false h.
Proof.
  intros H. unfold ensure_xpath_exists, bind. now rewrite H.
Qed.


(** C6. When some pattern matches, the prefix returned by
    [split_xpath_last] is strictly shorter than the selector; so is every
    ["./" + predicate] that the subscript branch passes to the nested
    call; and [check_or_make_target] ends on every selector, tree and
    store: every budget above the length of the selector gives the same
    run, and none is ever used up. *)
Theorem prefix_recursion_terminates
    (md : module) (tree : nat) (xpath : string) (ns : namespaces) (h : store) :
  (~ unclassified (PyStr.strip xpath) ->
   String.length (fst (split_xpath_last xpath)) < String.length xpath)
  /\ (forall eoa v,
         snd (split_xpath_last xpath) = [(eoa, v)] ->
         dispatch eoa = BranchSubscript ->
         exists preds,
           v = VList preds
           /\ forall sub, sub ∈ preds ->
                String.length ("./" +:+ sub) < String.length xpath)
  /\ (forall fuel,
         String.length xpath < fuel ->
         check_or_make_target_rec xpath_eval parse_xml fuel md tree xpath ns h
         = check_or_make_target xpath_eval parse_xml md tree xpath ns h)
  /\ check_or_make_target xpath_eval parse_xml md tree xpath ns h <> Diverged.
Proof.
  pose proof (strip_length xpath) as Hs.
  split; [|split; [|split]].
  - intros Hn.
    destruct (split_xpath_last_cases xpath) as [[Hu _]|(_ & i & c & E & Hl & _)];
      [contradiction|].
    rewrite E. simpl. lia.
  - intros eoa v E Hd.
    destruct (split_xpath_last_cases xpath) as [[_ E']|(_ & i & c & E' & _ & Hwf)];
      rewrite E' in E; simpl in E; [discriminate|].
    injection E as ->. unfold well_formed_change in Hwf. simpl in Hwf.
    rewrite Hd in Hwf. destruct Hwf as (preds & -> & Hb).
    exists preds. split; [reflexivity|]. intros sub Hsub.
    rewrite length_app. simpl. specialize (Hb _ Hsub). lia.
  - intros fuel Hf. apply check_or_make_target_rec_stable; lia.
  - apply ends_check_or_make_target_rec. lia.
Qed.

End Synthesizer.



(** C6 at [/a/b[@x='1' and @y='2']] on the document [<a/>]. *)
Lemma prefix_recursion_terminates_witness :
  String.length "/a" < String.length "/a/b[@x='1' and @y='2']"
  /\ String.length "./@x='1'" < String.length "/a/b[@x='1' and @y='2']"
  /\ check_or_make_target Mini.xpath_eval Mini.parse_xml real_run 0
       "/a/b[@x='1' and @y='2']" ∅ doc_a <> Diverged.
Proof.
  destruct (prefix_recursion_terminates Mini.xpath_eval Mini.parse_xml
              real_run 0 "/a/b[@x='1' and @y='2']" ∅ doc_a) as (H1 & H2 & _ & H4).
  split; [|split].
  - apply H1. rewrite unclassified_iff. vm_compute. intros (_ & _ & _ & _ & H & _).
    discriminate H.
  - destruct (H2 "/b" (VList ["@x='1'"; "@y='2'"])) as (preds & E & Hb);
      [reflexivity | reflexivity |].
    injection E as <-. apply Hb. left.
  - exact H4.
Defined.

(** ** Replacing the children of an element *)

Section StoreFacts.

Context {lx : Accepts}.

Lemma bind_done {A B} (m : M A) (k : A -> M B) h a h' :
  m h = Done a h' -> bind m k h = k a h'.
Proof. unfold bind. now intros ->. Qed.

Lemma get_done e (h : store) r : h !! e = Some r -> get e h = Done r h.
Proof. unfold get. now intros ->. Qed.

Lemma without_absent c l : c ∉ l -> without c l = l.
Proof.
  unfold without. induction l as [|x l IH]; [reflexivity|].
  intros [Hx Hl]%not_elem_of_cons.
  rewrite filter_cons_True by congruence. now rewrite IH.
Qed.

Lemma without_head c l : c ∉ l -> without c (c :: l) = l.
Proof.
  intros H. unfold without. rewrite filter_cons_False by (intros Hc; now apply Hc).
  now apply without_absent.
Qed.

Lemma remove_done m c (h : store) r :
  h !! m = Some r -> c ∈ children r ->
  remove m c h
  = Done tt (alter (with_parent None) c
               (alter (with_children (without c (children r))) m h)).
Proof.
  intros Hm Hc. unfold remove. rewrite (bind_done _ _ _ _ _ (get_done _ _ _ Hm)).
  destruct (decide (c ∈ children r)); [reflexivity | contradiction].
Qed.

(** Removing the children of [m] one by one, as
    [for element in match.getchildren(): match.remove(element)] does. *)
Lemma remove_all m l :
  forall (h : store) r,
    h !! m = Some r -> children r = l -> NoDup l -> m ∉ l ->
    exists h' : store,
      for_in l (fun element _ => remove m element) tt h = Done tt h'
      /\ h' !! m = Some (with_children [] r)
      /\ (forall c, c ∈ l -> h' !! c = with_parent None <$> h !! c)
      /\ (forall x, x <> m -> x ∉ l -> h' !! x = h !! x).
Proof.
  induction l as [|c l IH]; intros h r Hm Hl Hnd Hml.
  - exists h. simpl. unfold ret. repeat split.
    + rewrite Hm. f_equal. destruct r; simpl in *. now subst.
    + intros c Hc. now apply elem_of_nil in Hc.
  - apply NoDup_cons in Hnd as [Hcl Hnd].
    apply not_elem_of_cons in Hml as [Hmc Hml].
    assert (Hin : c ∈ children r) by (rewrite Hl; left).
    set (h1 := alter (with_parent None) c
                 (alter (with_children (without c (children r))) m h)).
    assert (Hm1 : h1 !! m = Some (with_children l r)).
    { unfold h1. rewrite list_lookup_alter_ne by congruence.
      rewrite list_lookup_alter_eq, Hm. simpl. rewrite Hl.
      now rewrite without_head. }
    destruct (IH h1 (with_children l r) Hm1 eq_refl Hnd Hml)
      as (h' & Hrun & Hm' & Hkids & Hframe).
    exists h'. repeat split.
    + simpl. rewrite (bind_done _ _ _ _ _ (remove_done _ _ _ _ Hm Hin)). exact Hrun.
    + exact Hm'.
    + intros x [->|Hx]%elem_of_cons.
      * rewrite Hframe by congruence. unfold h1.
        rewrite list_lookup_alter_eq. now rewrite list_lookup_alter_ne by congruence.
      * rewrite (Hkids x Hx). unfold h1.
        assert (x <> c) by (intros ->; contradiction).
        assert (x <> m) by (intros ->; contradiction).
        now rewrite !list_lookup_alter_ne by congruence.
    + intros x Hxm [Hxc Hxl]%not_elem_of_cons.
      rewrite Hframe by assumption. unfold h1.
      now rewrite !list_lookup_alter_ne by congruence.
Qed.

Lemma with_children_same r : with_children (children r) r = r.
Proof. now destruct r. Qed.

(** Appending an element that is not yet a child of [m]. *)
Lemma append_step m d (h : store) r :
  h !! m = Some r -> is_Some (h !! d) -> d <> m -> d ∉ children r ->
  exists h' : store,
    append m d h = Done tt h'
    /\ h' !! m = Some (with_children (children r ++ [d]) r)
    /\ parent <$> h' !! d = Some (Some m)
    /\ (forall x, x <> d -> parent <$> h' !! x = parent <$> h !! x).
Proof.
  intros Hm [rd Hd] Hdm Hdr.
  set (h1 := match parent rd with
             | Some q => alter (fun e => with_children (without d (children e)) e) q h
             | None => h
             end : store).
  assert (Hm1 : h1 !! m = Some r).
  { unfold h1. destruct (parent rd) as [q|]; [|exact Hm].
    destruct (decide (q = m)) as [->|Hq].
    - rewrite list_lookup_alter_eq, Hm. simpl.
      rewrite without_absent by assumption. now rewrite with_children_same.
    - now rewrite list_lookup_alter_ne by congruence. }
  assert (Hp1 : forall x, parent <$> h1 !! x = parent <$> h !! x).
  { intros x. unfold h1. destruct (parent rd) as [q|]; [|reflexivity].
    destruct (decide (q = x)) as [->|Hq].
    - rewrite list_lookup_alter_eq. now destruct (h !! x).
    - now rewrite list_lookup_alter_ne by congruence. }
  exists (alter (with_parent (Some m)) d
            (alter (fun e => with_children (children e ++ [d]) e) m h1)).
  repeat split.
  - unfold append. rewrite (bind_done _ _ _ _ _ (get_done _ _ _ Hd)).
    unfold bind, modify, ret. fold h1.
    destruct (parent rd); reflexivity.
  - rewrite list_lookup_alter_ne by congruence.
    now rewrite list_lookup_alter_eq, Hm1.
  - rewrite list_lookup_alter_eq. rewrite list_lookup_alter_ne by congruence.
    specialize (Hp1 d). rewrite Hd in Hp1. destruct (h1 !! d); [reflexivity|discriminate].
  - intros x Hx. rewrite list_lookup_alter_ne by congruence.
    rewrite <- Hp1. destruct (decide (m = x)) as [->|Hmx].
    + rewrite list_lookup_alter_eq. now destruct (h1 !! x).
    + now rewrite list_lookup_alter_ne by congruence.
Qed.

Lemma extend_all m l :
  forall (h : store) r,
    h !! m = Some r -> NoDup l -> m ∉ l ->
    (forall d, d ∈ l -> d ∉ children r) ->
    (forall d, d ∈ l -> is_Some (h !! d)) ->
    exists h' : store,
      extend m l h = Done tt h'
      /\ h' !! m = Some (with_children (children r ++ l) r)
      /\ (forall d, d ∈ l -> parent <$> h' !! d = Some (Some m))
      /\ (forall x, x ∉ l -> parent <$> h' !! x = parent <$> h !! x).
Proof.
  unfold extend.
  induction l as [|d l IH]; intros h r Hm Hnd Hml Hfresh Hex.
  - exists h. simpl. unfold ret. repeat split.
    + rewrite Hm, app_nil_r. now rewrite with_children_same.
    + intros d Hd. now apply elem_of_nil in Hd.
  - apply NoDup_cons in Hnd as [Hdl Hnd].
    apply not_elem_of_cons in Hml as [Hmd Hml].
    destruct (append_step m d h r Hm) as (h1 & Hrun1 & Hm1 & Hd1 & Hp1).
    { apply Hex. left. } { congruence. } { apply Hfresh. left. }
    destruct (IH h1 (with_children (children r ++ [d]) r) Hm1 Hnd Hml)
      as (h' & Hrun & Hm' & Hkids & Hframe).
    { intros x Hx. simpl. intros [Hin| ->%list_elem_of_singleton]%elem_of_app.
      - apply (Hfresh x); [now right | assumption].
      - contradiction. }
    { intros x Hx. assert (x <> d) by (intros ->; contradiction).
      specialize (Hp1 x H). destruct (Hex x) as [rx Hrx]; [now right|].
      rewrite Hrx in Hp1. destruct (h1 !! x); [eauto | discriminate]. }
    exists h'. repeat split.
    + simpl. rewrite (bind_done _ _ _ _ _ Hrun1). exact Hrun.
    + rewrite Hm'. simpl. now rewrite <- app_assoc.
    + intros x [->|Hx]%elem_of_cons.
      * now rewrite Hframe.
      * now apply Hkids.
    + intros x [Hxd Hxl]%not_elem_of_cons.
      rewrite Hframe by assumption. now apply Hp1.
Qed.

(** [replace_children_of] on an element [m] whose children are distinct:
    the children of [m] become [kids], each with [m] as parent, and every
    former child that is not kept is left without parent. *)
Lemma replace_children_of_spec kids m (h : store) r :
  h !! m = Some r -> NoDup (children r) -> m ∉ children r ->
  NoDup kids -> m ∉ kids -> (forall d, d ∈ kids -> is_Some (h !! d)) ->
  exists h' : store,
    replace_children_of kids m h = Done tt h'
    /\ h' !! m = Some (with_children kids r)
    /\ (forall d, d ∈ kids -> parent <$> h' !! d = Some (Some m))
    /\ (forall c, c ∈ children r -> c ∉ kids ->
                  forall rc, h' !! c = Some rc -> parent rc = None).
Proof.
  intros Hm Hnd Hmc Hndk Hmk Hex.
  destruct (remove_all m (children r) h r Hm eq_refl Hnd Hmc)
    as (h1 & Hrun1 & Hm1 & Hold & Hframe).
  destruct (extend_all m kids h1 (with_children [] r) Hm1 Hndk Hmk)
    as (h2 & Hrun2 & Hm2 & Hkids & Hp2).
  { intros d _. simpl. apply not_elem_of_nil. }
  { intros d Hd. destruct (Hex d Hd) as [rd Hrd].
    destruct (decide (d ∈ children r)) as [Hin|Hin].
    - rewrite (Hold d Hin), Hrd. eauto.
    - rewrite Hframe; [eauto | intros ->; contradiction | assumption]. }
  exists h2. repeat split.
  - assert (Hg : getchildren (ItemElement m) h = Done (children r) h).
    { unfold getchildren, bind, get, ret. now rewrite Hm. }
    unfold replace_children_of. rewrite (bind_done _ _ _ _ _ Hg).
    rewrite (bind_done _ _ _ _ _ Hrun1). exact Hrun2.
  - exact Hm2.
  - exact Hkids.
  - intros c Hc Hck rc Hrc. specialize (Hp2 c Hck).
    rewrite Hrc, (Hold c Hc) in Hp2. destruct (h !! c); simpl in Hp2; congruence.
Qed.

End StoreFacts.

Section Reconciler.

Context {lx : Accepts}.

Variable tostring_of : store -> nat -> string.

Lemma same_children_fmap h old strs :
  same_children tostring_of h old strs <-> tostring_of h <$> old = strs.
Proof.
  split.
  - intros [Hlen Hpos]. apply list_eq. intros i. rewrite list_lookup_fmap.
    destruct (old !! i) as [c|] eqn:E; simpl.
    + symmetry. now apply Hpos.
    + symmetry. apply lookup_ge_None. apply lookup_ge_None in E. lia.
  - intros <-. split; [now rewrite length_fmap|].
    intros idx c E. now rewrite list_lookup_fmap, E.
Qed.

Lemma children_differ_fmap h old strs :
  children_differ tostring_of h old strs -> tostring_of h <$> old <> strs.
Proof.
  intros [Hlen|(idx & c & s & Ho & Hs & Hne)] E; subst strs.
  - apply Hlen. now rewrite length_fmap.
  - rewrite list_lookup_fmap, Ho in Hs. simpl in Hs. congruence.
Qed.

Ltac split_decide E :=
  match goal with
  | |- context [decide ?P] => destruct (decide P) as [E|E]
  end.

Lemma compare_children_spec md kids strs m changed (h : store) elements :
  forall idx,
    idx + length elements <= length strs ->
    compare_children tostring_of md kids strs m idx elements changed h
    = if decide (tostring_of h <$> elements = take (length elements) (drop idx strs))
      then Done changed h
      else bind (when (negb (check_mode md)) (replace_children_of kids m))
             (fun _ => ret true) h.
Proof.
  induction elements as [|element rest IH]; intros idx Hlen.
  - reflexivity.
  - simpl in Hlen.
    destruct (lookup_lt_is_Some_2 strs idx) as [wanted Hw]; [lia|].
    cbn [compare_children]. unfold tostring at 1. unfold bind at 1.
    rewrite Hw, (drop_S _ _ _ Hw). cbn [length take fmap list_fmap].
    destruct (String.eqb_spec (tostring_of h element) wanted) as [Heq|Hne]; simpl.
    + rewrite IH by lia. rewrite Heq.
      split_decide E; split_decide E'; try reflexivity.
      * destruct E'. now f_equal.
      * destruct E. now injection E'.
    + split_decide E; [|reflexivity].
      injection E as E. contradiction.
Qed.

(** [set_children_of_match], the body of the loop of
    [set_target_children_inner], on a context element [m] of a tree
    (its children are distinct, the wanted elements [kids] are distinct
    elements of the store, [strs] their serialized forms). When the
    children of [m] agree with [strs] in count and position by position,
    the store and the verdict are left as they were. When they differ in
    count or at some position, the verdict is [true]; in a real run the
    children of [m] are then exactly [kids], each with [m] as parent, and
    every former child not kept is detached; in a dry run the store is
    untouched. *)
Theorem replace_is_positional
    (md : module) (kids : list nat) (strs : list string) (m : nat)
    (changed : bool) (h : store) (r : element) :
  h !! m = Some r -> NoDup (children r) -> m ∉ children r ->
  NoDup kids -> m ∉ kids -> (forall d, d ∈ kids -> is_Some (h !! d)) ->
  length strs = length kids ->
  (same_children tostring_of h (children r) strs ->
   set_children_of_match tostring_of md kids strs (ItemElement m) changed h
   = Done changed h)
  /\ (children_differ tostring_of h (children r) strs ->
      exists h' : store,
        set_children_of_match tostring_of md kids strs (ItemElement m) changed h
        = Done true h'
        /\ if check_mode md then h' = h
           else h' !! m = Some (with_children kids r)
                /\ (forall d, d ∈ kids -> parent <$> h' !! d = Some (Some m))
                /\ (forall c, c ∈ children r -> c ∉ kids ->
                              forall rc, h' !! c = Some rc -> parent rc = None)).
Proof.
  intros Hm Hnd Hmc Hndk Hmk Hex Hlen.
  assert (Hg : getchildren (ItemElement m) h = Done (children r) h).
  { unfold getchildren, bind, get, ret. now rewrite Hm. }
  assert (Hrep : children_differ tostring_of h (children r) strs ->
                 exists h' : store,
                   bind (when (negb (check_mode md)) (replace_children_of kids m))
                     (fun _ => ret true) h = Done true h'
                   /\ if check_mode md then h' = h
                      else h' !! m = Some (with_children kids r)
                           /\ (forall d, d ∈ kids -> parent <$> h' !! d = Some (Some m))
                           /\ (forall c, c ∈ children r -> c ∉ kids ->
                                         forall rc, h' !! c = Some rc -> parent rc = None)).
  { intros _. destruct (check_mode md); simpl.
    - exists h. split; reflexivity.
    - destruct (replace_children_of_spec kids m h r Hm Hnd Hmc Hndk Hmk Hex)
        as (h' & Hrun & Hpost).
      exists h'. split; [|exact Hpost].
      now rewrite (bind_done _ _ _ _ _ Hrun). }
  assert (Hrun :
    set_children_of_match tostring_of md kids strs (ItemElement m) changed h
    = if decide (tostring_of h <$> children r = strs)
      then Done changed h
      else bind (when (negb (check_mode md)) (replace_children_of kids m))
             (fun _ => ret true) h).
  { unfold set_children_of_match. rewrite (bind_done _ _ _ _ _ Hg).
    destruct (Nat.eqb_spec (length (children r)) (length kids)) as [Hc|Hc].
    - rewrite (bind_done (as_element (ItemElement m)) _ h m h eq_refl).
      rewrite compare_children_spec by (simpl; lia).
      now rewrite drop_0, take_ge by lia.
    - rewrite (bind_done (as_element (ItemElement m)) _ h m h eq_refl).
      split_decide E; [|reflexivity].
      destruct Hc. rewrite <- Hlen, <- E. now rewrite length_fmap. }
  rewrite Hrun. split_decide E.
  - split; [reflexivity|]. intros Hd%children_differ_fmap. contradiction.
  - split; [intros Hs%same_children_fmap; contradiction | exact Hrep].
Qed.

End Reconciler.

(** ** Worked documents *)

Section Worked.

Abbreviation ensure := (ensure_xpath_exists Mini.xpath_eval Mini.parse_xml).
Abbreviation set_children :=
  (set_target_children_inner Mini.xpath_eval Mini.tostring_of Mini.parse_xml).

(** [set_children_of_match] on [<a><x/><y/></a>] with the wanted children
    [y], [x]. *)
Lemma replace_is_positional_witness :
  exists h' : store,
    set_children_of_match Mini.tostring_of real_run [3; 4] ["<y/>"; "<x/>"]
      (ItemElement 0) false doc_xy_built = Done true h'
    /\ h' !! 0 = Some (Element "a" None ∅ [3; 4] None).
Proof.
  destruct (replace_is_positional Mini.tostring_of real_run [3; 4] ["<y/>"; "<x/>"]
              0 false doc_xy_built (Element "a" None ∅ [1; 2] None)) as [_ H].
  - reflexivity.
  - simpl. apply NoDup_cons. split; [|apply NoDup_singleton].
    intros E%list_elem_of_singleton. discriminate E.
  - simpl. intros [E|[E|E%elem_of_nil]%elem_of_cons]%elem_of_cons;
      [discriminate E | discriminate E | exact E].
  - apply NoDup_cons. split; [|apply NoDup_singleton].
    intros E%list_elem_of_singleton. discriminate E.
  - intros [E|[E|E%elem_of_nil]%elem_of_cons]%elem_of_cons;
      [discriminate E | discriminate E | exact E].
  - intros d [->|[->|E%elem_of_nil]%elem_of_cons]%elem_of_cons;
      [eexists; reflexivity | eexists; reflexivity | destruct E].
  - reflexivity.
  - destruct H as (h' & Hrun & Hm & _).
    + right. exists 0, 1, "<y/>". repeat split. vm_compute. discriminate.
    + exists h'. split; [exact Hrun | exact Hm].
Defined.

(** Replacing the children [x], [y] by [y], [x] is a change; by [x], [y]
    it is none; a dry run says the same and leaves the document alone. *)
Example replace_reordered :
  report (set_children real_run 0 "/a" ∅ [ChildStr "y"; ChildStr "x"] InYaml doc_xy)
  = Some (true, "<a><y/><x/></a>")
  /\ report (set_children real_run 0 "/a" ∅ [ChildStr "x"; ChildStr "y"] InYaml doc_xy)
     = Some (false, "<a><x/><y/></a>")
  /\ report (set_children dry_run 0 "/a" ∅ [ChildStr "y"; ChildStr "x"] InYaml doc_xy)
     = Some (true, "<a><x/><y/></a>").
Proof. vm_compute. repeat split. Qed.

(** C9, on the code. [set_target_children_inner] with [/r/a] and the
    wanted child [y] on [<r><a><x/></a><a><x/></a></r>], in a real run.
    Both context nodes differ from the wanted list, so the children of
    both are removed and the verdict is [true]. The wanted list is built
    once: its one element [y] is appended to the first context node and
    then, by the same [extend] on the second, moved there. The first
    context node is left without children, where the wanted list should
    be. With one context node, [/a] on [<a><x/></a>], the children
    become the wanted list. *)
Theorem replace_empties_first_match :
  Mini.xpath_eval doc_two 0 "/r/a" ∅ = inr (XList [ItemElement 1; ItemElement 3])
  /\ set_children real_run 0 "/r/a" ∅ [ChildStr "y"] InYaml doc_two
     = Done true
         [Element "r" None ∅ [1; 3] None;
          Element "a" None ∅ [] (Some 0);
          Element "x" None ∅ [] None;
          Element "a" None ∅ [5] (Some 0);
          Element "x" None ∅ [] None;
          Element "y" None ∅ [] (Some 3)]
  /\ report (set_children real_run 0 "/r/a" ∅ [ChildStr "y"] InYaml doc_two)
     = Some (true, "<r><a/><a><y/></a></r>")
  /\ report (set_children real_run 0 "/a" ∅ [ChildStr "y"] InYaml
               [Element "a" None ∅ [1] None; Element "x" None ∅ [] (Some 0)])
     = Some (true, "<a><y/></a>").
Proof. vm_compute. repeat split. Qed.

(** C1, on the code. [ensure_xpath_exists] with [/a/b/@c] on [<a/>], run
    twice on the same document: the first run creates [b] and its empty
    attribute [c] and reports a change; on the result the attribute is
    found, yet [is_node] answers no (the match is not an element), the
    synthesizer is entered again and the second run reports a change too,
    leaving the document as the first run left it. *)
Theorem ensure_attribute_twice :
  let after := [Element "a" None ∅ [1] None;
                Element "b" None {["c" := ""]} [] (Some 0)] in
  ensure real_run 0 "/a/b/@c" ∅ doc_a = Done true after
  /\ Mini.xpath_eval after 0 "/a/b/@c" ∅ = inr (XList [ItemAttr 1 "c" ""])
  /\ is_node Mini.xpath_eval 0 "/a/b/@c" ∅ after = Done false after
  /\ ensure real_run 0 "/a/b/@c" ∅ after = Done true after
  /\ Mini.tostring_of after 0 = "<a><b c=" +:+ String Re.dquote (String Re.dquote "/></a>").
Proof. vm_compute. repeat split. Qed.

(** C3, on the code. [ensure_xpath_exists] with [/a/@b] on [<a/>]: the
    real run sets the attribute and reports a change, the dry run reports
    none. *)
Theorem dry_run_verdict_differs :
  ensure real_run 0 "/a/@b" ∅ doc_a
  = Done true [Element "a" None {["b" := ""]} [] None]
  /\ ensure dry_run 0 "/a/@b" ∅ doc_a = Done false doc_a.
Proof. vm_compute. repeat split. Qed.

(** C4, on the code. In a dry run, the text branch of
    [check_or_make_target] writes: with [/a/*/text()='v'] on [<a><b/></a>]
    the text of [b] is set, and with [./text()='v'] on [<a/>] the text of
    [a], as in a real run. The element branch does guard its write: with
    [/a/b] on [<a/>] the dry run reports a change and the document stays
    [<a/>]. *)
Theorem dry_run_writes_text :
  split_xpath_last "/a/*/text()='v'" = ("/a/*", [(EmptyString, VStr "v")])
  /\ segment_of <$> snd (split_xpath_last "/a/*/text()='v'") = [Some (TextValue "v")]
  /\ ensure dry_run 0 "/a/*/text()='v'" ∅ doc_ab
     = Done true [Element "a" None ∅ [1] None; Element "b" (Some "v") ∅ [] (Some 0)]
  /\ report (ensure dry_run 0 "/a/*/text()='v'" ∅ doc_ab) = Some (true, "<a><b>v</b></a>")
  /\ check_or_make_target Mini.xpath_eval Mini.parse_xml dry_run 0 "./text()='v'" ∅ doc_a
     = Done true [Element "a" (Some "v") ∅ [] None]
  /\ report (ensure dry_run 0 "/a/b" ∅ doc_a) = Some (true, "<a/>").
Proof. vm_compute. repeat split. Qed.

(** What lxml refuses stops the call with [ValueError] and leaves the
    document alone: the tag [-b], which the grammar of selectors lets
    through, in a real run and in a dry run; a child name with a space;
    a text with a control character; an attribute name with a space. An
    attribute whose value is not plain ASCII is not deleted, and the
    deletion still reports a change. *)
Example lxml_refuses :
  split_xpath_last "/a/-b" = ("/a", [("-b", VNone)])
  /\ ensure real_run 0 "/a/-b" ∅ doc_a = Raised ValueError doc_a
  /\ ensure dry_run 0 "/a/-b" ∅ doc_a = Raised ValueError doc_a
  /\ add_target_children Mini.xpath_eval Mini.parse_xml real_run 0 "/a" ∅
       [ChildStr "Old Rasputin"] InYaml doc_ab
     = Raised ValueError doc_ab
  /\ set_target Mini.xpath_eval Mini.parse_xml real_run 0 "/a" ∅ None
       (String (ascii_of_nat 1) EmptyString) doc_a
     = Engine (Raised ValueError doc_a)
  /\ set_target Mini.xpath_eval Mini.parse_xml real_run 0 "/a" ∅ (Some "my attr") "v" doc_a
     = Engine (Raised ValueError doc_a)
  /\ (let h := [Element "a" None {["b" := String (ascii_of_nat 233) EmptyString]} [] None] in
      delete_xpath_target Mini.xpath_eval real_run 0 "/a/@b" ∅ h = Done true h).
Proof. vm_compute. repeat split. Qed.

End Worked.

Section Removal.

Context {lx : Accepts}.

Variable xpath_eval : store -> nat -> string -> namespaces -> pyexn + xpath_result.

(** C2, on the code. When the selector matches nothing,
    [delete_xpath_target] leaves the store alone and still reports a
    change: its [finish] is called with [changed=True] whenever the loop
    raised nothing. *)
Theorem delete_nothing_reports_changed
    (md : module) (tree : nat) (xpath : string) (ns : namespaces) (h : store) :
  xpath_eval h tree xpath ns = inr (XList []) ->
  delete_xpath_target xpath_eval md tree xpath ns h = Done true h.
Proof.
  intros E. unfold delete_xpath_target, try_except, bind, tree_xpath, finish, ret.
  rewrite E. reflexivity.
Qed.

End Removal.

(** C2 on [<a/>] with [/a/@b]; and what a real run removes when there is
    a match: the attribute [b] of [<a b="1"/>], the element [b] of
    [<a><b/></a>]. *)
Lemma delete_nothing_reports_changed_witness :
  Mini.xpath_eval doc_a 0 "/a/@b" ∅ = inr (XList [])
  /\ delete_xpath_target Mini.xpath_eval real_run 0 "/a/@b" ∅ doc_a = Done true doc_a
  /\ delete_xpath_target Mini.xpath_eval real_run 0 "/a/@b" ∅ doc_a_b = Done true doc_a
  /\ delete_xpath_target Mini.xpath_eval real_run 0 "/a/b" ∅ doc_ab
     = Done true [Element "a" None ∅ [] None; Element "b" None ∅ [] None].
Proof.
  split; [reflexivity|]. split; [|split].
  - apply (delete_nothing_reports_changed Mini.xpath_eval real_run 0 "/a/@b" ∅ doc_a).
    reflexivity.
  - vm_compute. reflexivity.
  - vm_compute. reflexivity.
Defined.

(** * Further properties *)

(** ** What the matcher finds is a match *)

Section Parses.

Context {lx : Accepts}.

Import Re.

Lemma star_parses p s :
  forall i g k m,
    star p i s g k = Some m ->
    exists w s', s = w +:+ s' /\ each_char p w
                 /\ k (i + String.length w) s' g = Some m.
Proof.
  induction s as [|c s IH]; intros i g k m; simpl.
  - intros H. exists EmptyString, EmptyString. simpl. now rewrite Nat.add_0_r.
  - destruct (p c) eqn:Hp.
    + destruct (star p (S i) s g k) as [m'|] eqn:E.
      * intros [= ->]. destruct (IH _ _ _ _ E) as (w & s' & -> & Hw & Hk).
        exists (String c w), s'. split; [reflexivity|]. split; [now split|].
        simpl. now rewrite Nat.add_succ_r.
      * intros H. exists EmptyString, (String c s). simpl. now rewrite Nat.add_0_r.
    + intros H. exists EmptyString, (String c s). simpl. now rewrite Nat.add_0_r.
Qed.

Lemma run_parses r :
  forall i s g k m,
    run r i s g k = Some m ->
    exists w s' g',
      s = w +:+ s' /\ parses r w s' g g'
      /\ k (i + String.length w) s' g' = Some m.
Proof.
  induction r as [| |l|p|p|r1 IH1 r2 IH2|r1 IH1 r2 IH2|n r0 IH];
    intros i s g k m; simpl.
  - destruct (Nat.eqb i 0); [|discriminate]. intros H.
    exists EmptyString, s, g. simpl. rewrite Nat.add_0_r. auto.
  - destruct (at_eos s) eqn:Ha; [|discriminate]. intros H.
    exists EmptyString, s, g. simpl. rewrite Nat.add_0_r. auto.
  - destruct (PyStr.drop_prefix l s) as [s'|] eqn:E; [|discriminate]. intros H.
    exists l, s', g. apply drop_prefix_app in E. auto.
  - destruct s as [|c s]; [discriminate|].
    destruct (p c) eqn:Hp; [|discriminate]. intros H.
    exists (String c EmptyString), s, g. simpl. rewrite Nat.add_1_r.
    repeat split; eauto.
  - intros H. destruct (star_parses _ _ _ _ _ _ H) as (w & s' & -> & Hw & Hk).
    exists w, s', g. auto.
  - intros H.
    destruct (IH1 _ _ _ _ _ H) as (w1 & s1 & g1 & -> & P1 & H1).
    destruct (IH2 _ _ _ _ _ H1) as (w2 & s2 & g2 & -> & P2 & H2).
    exists (w1 +:+ w2), s2, g2. repeat split.
    + now rewrite app_assoc_s.
    + exists w1, w2, g1. auto.
    + now rewrite length_app, Nat.add_assoc.
  - destruct (run r1 i s g k) as [m'|] eqn:E.
    + intros [= ->].
      destruct (IH1 _ _ _ _ _ E) as (w & s' & g' & -> & P & H).
      exists w, s', g'. auto.
    + intros H.
      destruct (IH2 _ _ _ _ _ H) as (w & s' & g' & -> & P & H').
      exists w, s', g'. auto.
  - intros H.
    destruct (IH _ _ _ _ _ H) as (w & s' & g' & -> & P & H').
    exists w, s', (<[n := w]> g'). repeat split; [eauto|].
    replace (i + String.length w - i) with (String.length w) in H' by lia.
    now rewrite substring_0_app in H'.
Qed.

(** [pattern.match(s)] returns the groups of a match of a start of [s]. *)
Lemma rmatch_parses r s m :
  rmatch r s = Some m ->
  exists w s', s = w +:+ s' /\ parses r w s' ∅ m.
Proof.
  intros H. destruct (run_parses _ _ _ _ _ _ H) as (w & s' & g' & -> & P & [= ->]).
  eauto.
Qed.

End Parses.

(** ** The parts returned by [split_xpath_last] make up the selector *)

Section Reassembly.

Context {lx : Accepts}.

Import Re.

Lemma last_char_snoc w c : last_char (w +:+ String c EmptyString) = Some c.
Proof.
  induction w as [|a w IH]; [reflexivity|].
  rewrite app_cons. simpl. rewrite IH.
  destruct w; reflexivity.
Qed.

Lemma rstrip_last t c : last_char (PyStr.rstrip t) = Some c -> PyStr.is_space c = false.
Proof.
  induction t as [|a t IH]; simpl; [discriminate|].
  destruct (PyStr.rstrip t) as [|b r] eqn:E.
  - destruct (PyStr.is_space a) eqn:Ha; simpl; [discriminate|].
    now intros [= <-].
  - intros H. apply IH. exact H.
Qed.

(** A stripped selector is matched to its end: [$] has no final line
    feed to stop before. *)
Lemma eos_after_strip x w s' :
  PyStr.strip x = w +:+ s' -> at_eos s' = true -> s' = EmptyString.
Proof.
  intros E Ha. destruct s' as [|c [|d s']]; [reflexivity| |discriminate].
  simpl in Ha. apply Nat.eqb_eq in Ha.
  assert (Hl : last_char (PyStr.strip x) = Some c) by (rewrite E; apply last_char_snoc).
  apply rstrip_last in Hl. unfold PyStr.is_space in Hl. rewrite Ha in Hl. discriminate.
Qed.

Lemma app_empty_r (w : string) : w +:+ EmptyString = w.
Proof. induction w as [|c w IH]; [reflexivity|]. now rewrite app_cons, IH. Qed.

Lemma extract_quoted q v : _extract_xpstr (quoted q v) = v.
Proof.
  unfold _extract_xpstr, PyStr.slice_1_m1, quoted. simpl String.length.
  rewrite length_app. simpl.
  replace (String.length v + 1 - 1) with (String.length v) by lia.
  apply substring_0_app.
Qed.

Lemma parses_xpstr n w rest g g' :
  parses (_xpstr n) w rest g g' ->
  exists q v, (q = squote \/ q = dquote) /\ w = quoted q v /\ g' = <[n := w]> g.
Proof.
  unfold _xpstr. cbn [parses].
  intros (g0 & [P|P] & ->);
    destruct P as (w1 & w2 & g1 & -> & [-> ->] & w3 & w4 & g2 & -> & [_ ->] & -> & ->).
  - exists squote, w3. auto.
  - exists dquote, w3. auto.
Qed.

Lemma parses_nsIdent w rest g g' :
  parses _nsIdent w rest g g' ->
  g' = g /\ exists c w', w = String c w' /\ ident_start c = true.
Proof.
  unfold _nsIdent, _ident. cbn [parses].
  intros [P|P].
  - destruct P as (w1 & w2 & g1 & -> & (c & -> & Hc & ->) & _ & ->). eauto.
  - destruct P as (w1 & w2 & g1 & -> & P1 & w3 & w4 & g2 & -> & [_ ->] & P2).
    destruct P1 as (a & b & g3 & -> & (c & -> & Hc & ->) & _ & ->).
    destruct P2 as (a' & b' & g4 & -> & (c' & -> & Hc' & ->) & _ & ->).
    split; [reflexivity|]. rewrite !app_cons. eauto.
Qed.

Ltac group_of :=
  unfold group;
  repeat first [rewrite lookup_insert_eq | rewrite lookup_insert_ne by discriminate];
  simpl.

(** The prefix and the change returned for a selector, put together
    again, are the stripped selector: a name after the last slash, a name
    and its quoted value, the name and the bracket content of a subscript
    (whose predicates are the content split on [" and "], each stripped),
    or a quoted text value. *)
Theorem split_xpath_last_reassembles (xpath : string) :
  let s := PyStr.strip xpath in
  match split_xpath_last xpath with
  | (prefix, []) => prefix = s
  | (prefix, [(eoa, VNone)]) => s = prefix +:+ "/" +:+ eoa
  | (prefix, [(eoa, VStr v)]) =>
      exists q,
        (q = squote \/ q = dquote)
        /\ s = prefix
               +:+ match dispatch eoa with
                   | BranchElement => "/" +:+ eoa +:+ "/text()="
                   | BranchAttribute => "/" +:+ eoa +:+ "="
                   | _ => "/text()="
                   end
               +:+ quoted q v
  | (prefix, [(eoa, VList preds)]) =>
      exists content,
        s = prefix +:+ eoa +:+ "[" +:+ content +:+ "]"
        /\ preds = map PyStr.strip (PyStr.split " and " content)
  | _ => False
  end.
Proof.
  intros s. unfold split_xpath_last. fold s.
  destruct (rmatch _re_splitSimpleLast s) as [m|] eqn:E1.
  { apply rmatch_parses in E1 as (w & s' & E & P).
    unfold _re_splitSimpleLast in P. cbn [parses] in P.
    destruct P as (w0 & w1 & g0 & -> & [-> ->] & w2 & w3 & g1 & -> & (g2 & [_ ->] & ->)
                   & w4 & w5 & g3 & -> & [-> ->] & w6 & w7 & g4 & -> & (g5 & P & ->)
                   & -> & Ha & ->).
    apply parses_nsIdent in P as [-> _].
    rewrite (eos_after_strip xpath _ _ E Ha) in E.
    group_of. rewrite E. now rewrite !app_nil_l, !app_empty_r, ?app_assoc_s. }
  destruct (rmatch _re_splitSimpleLastEqValue s) as [m|] eqn:E2.
  { apply rmatch_parses in E2 as (w & s' & E & P).
    unfold _re_splitSimpleLastEqValue in P. cbn [parses] in P.
    destruct P as (w0 & w1 & g0 & -> & [-> ->] & w2 & w3 & g1 & -> & (g2 & [_ ->] & ->)
                   & w4 & w5 & g3 & -> & [-> ->] & w6 & w7 & g4 & -> & (g5 & P & ->)
                   & w8 & w9 & g6 & -> & [-> ->] & w10 & w11 & g7 & -> & Px
                   & -> & Ha & ->).
    apply parses_nsIdent in P as [-> (c & w' & -> & Hc)].
    apply parses_xpstr in Px as (q & v & Hq & -> & ->).
    rewrite (eos_after_strip xpath _ _ E Ha) in E.
    group_of. rewrite extract_quoted, (dispatch_ident _ _ Hc).
    exists q. split; [exact Hq|].
    rewrite E. now rewrite !app_nil_l, !app_empty_r, ?app_assoc_s. }
  destruct (rmatch _re_splitSimpleAttrLast s) as [m|] eqn:E3.
  { apply rmatch_parses in E3 as (w & s' & E & P).
    unfold _re_splitSimpleAttrLast in P. cbn [parses] in P.
    destruct P as (w0 & w1 & g0 & -> & [-> ->] & w2 & w3 & g1 & -> & (g2 & [_ ->] & ->)
                   & w4 & w5 & g3 & -> & [-> ->] & w6 & w7 & g4 & ->
                   & (g5 & (a & b & g6 & -> & [-> ->] & P) & ->)
                   & -> & Ha & ->).
    apply parses_nsIdent in P as [-> _].
    rewrite (eos_after_strip xpath _ _ E Ha) in E.
    group_of. rewrite E. now rewrite !app_nil_l, !app_empty_r, ?app_assoc_s. }
  destruct (rmatch _re_splitSimpleAttrLastEqValue s) as [m|] eqn:E4.
  { apply rmatch_parses in E4 as (w & s' & E & P).
    unfold _re_splitSimpleAttrLastEqValue in P. cbn [parses] in P.
    destruct P as (w0 & w1 & g0 & -> & [-> ->] & w2 & w3 & g1 & -> & (g2 & [_ ->] & ->)
                   & w4 & w5 & g3 & -> & [-> ->] & w6 & w7 & g4 & ->
                   & (g5 & (a & b & g6 & -> & [-> ->] & P) & ->)
                   & w8 & w9 & g7 & -> & [-> ->] & w10 & w11 & g8 & -> & Px
                   & -> & Ha & ->).
    apply parses_nsIdent in P as [-> _].
    apply parses_xpstr in Px as (q & v & Hq & -> & ->).
    rewrite (eos_after_strip xpath _ _ E Ha) in E.
    group_of. rewrite extract_quoted.
    change (dispatch ("@" +:+ b)) with BranchAttribute.
    exists q. split; [exact Hq|].
    rewrite E. now rewrite !app_nil_l, !app_empty_r, ?app_assoc_s. }
  destruct (rmatch _re_splitSubLast s) as [m|] eqn:E5.
  { apply rmatch_parses in E5 as (w & s' & E & P).
    unfold _re_splitSubLast in P. cbn [parses] in P.
    destruct P as (w0 & w1 & g0 & -> & [-> ->] & w2 & w3 & g1 & -> & (g2 & [_ ->] & ->)
                   & w4 & w5 & g3 & -> & [-> ->] & w6 & w7 & g4 & -> & (g5 & P & ->)
                   & w8 & w9 & g6 & -> & [-> ->] & w10 & w11 & g7 & -> & (g8 & [_ ->] & ->)
                   & w12 & w13 & g9 & -> & [-> ->] & -> & Ha & ->).
    apply parses_nsIdent in P as [-> _].
    rewrite (eos_after_strip xpath _ _ E Ha) in E.
    group_of. exists w10. split; [|reflexivity].
    rewrite E. now rewrite !app_nil_l, !app_empty_r, ?app_assoc_s. }
  destruct (rmatch _re_splitOnlyEqValue s) as [m|] eqn:E6.
  { apply rmatch_parses in E6 as (w & s' & E & P).
    unfold _re_splitOnlyEqValue in P. cbn [parses] in P.
    destruct P as (w0 & w1 & g0 & -> & [-> ->] & w2 & w3 & g1 & -> & (g2 & [_ ->] & ->)
                   & w4 & w5 & g3 & -> & [-> ->] & w6 & w7 & g4 & -> & Px
                   & -> & Ha & ->).
    apply parses_xpstr in Px as (q & v & Hq & -> & ->).
    rewrite (eos_after_strip xpath _ _ E Ha) in E.
    group_of. rewrite extract_quoted.
    exists q. split; [exact Hq|].
    rewrite E. now rewrite !app_nil_l, !app_empty_r, ?app_assoc_s. }
  reflexivity.
Qed.

End Reassembly.

(** ** Selectors with a line feed *)

Section OneLine.

Context {lx : Accepts}.

Import Re.

Lemma contains_app c a b :
  PyStr.contains c (a +:+ b) = PyStr.contains c a || PyStr.contains c b.
Proof.
  induction a as [|x a IH]; [reflexivity|].
  rewrite app_cons. simpl. rewrite IH. now rewrite orb_assoc.
Qed.

Lemma dot_not_LF a : dot a = true -> Ascii.eqb a LF = false.
Proof.
  intros H. destruct (Ascii.eqb_spec a LF) as [->|]; [discriminate H | reflexivity].
Qed.

Lemma class_within_dot p a :
  forallb (fun n => implb (p (ascii_of_nat n)) (dot (ascii_of_nat n))) (seq 0 256) = true ->
  p a = true -> dot a = true.
Proof.
  intros H Hp. rewrite forallb_forall in H.
  specialize (H (nat_of_ascii a)).
  rewrite ascii_nat_embedding, Hp in H. apply H.
  apply in_seq. pose proof (nat_ascii_bounded a). lia.
Qed.

Lemma each_char_no_LF p w :
  (forall a, p a = true -> dot a = true) -> each_char p w -> PyStr.contains LF w = false.
Proof.
  intros Hp. induction w as [|a w IH]; simpl; [reflexivity|].
  intros [Ha Hw]. now rewrite (dot_not_LF _ (Hp _ Ha)), IH.
Qed.

Lemma parses_one_line r :
  forall w rest g g',
    one_line r = true -> parses r w rest g g' -> PyStr.contains LF w = false.
Proof.
  induction r as [| |l|p|p|r1 IH1 r2 IH2|r1 IH1 r2 IH2|n r0 IH];
    intros w rest g g'; simpl.
  - now intros _ [-> _].
  - now intros _ (-> & _).
  - intros H [-> _]. now apply negb_true_iff in H.
  - intros H (c & -> & Hc & _). simpl.
    now rewrite (dot_not_LF _ (class_within_dot _ _ H Hc)).
  - intros H [Hw _]. apply (each_char_no_LF p); [|exact Hw].
    intros a. now apply class_within_dot.
  - intros [H1 H2]%andb_true_iff (w1 & w2 & g1 & -> & P1 & P2).
    rewrite contains_app, (IH1 _ _ _ _ H1 P1), (IH2 _ _ _ _ H2 P2). reflexivity.
  - intros [H1 H2]%andb_true_iff [P|P]; eauto.
  - intros H (g0 & P & _). eauto.
Qed.

Lemma parses_anchored r :
  forall w rest g g', anchored r = true -> parses r w rest g g' -> at_eos rest = true.
Proof.
  induction r as [| |l|p|p|r1 IH1 r2 IH2|r1 IH1 r2 IH2|n r0 IH];
    intros w rest g g'; simpl; try discriminate.
  - now intros _ (_ & H & _).
  - intros H (w1 & w2 & g1 & _ & _ & P2). eauto.
Qed.

(** A stripped selector that holds a line feed is matched by none of the
    six patterns: [.] does not cross a line feed and no pattern has one.
    [split_xpath_last] returns it whole, with no change. *)
Theorem line_feed_is_unclassified (xpath : string) :
  PyStr.contains LF (PyStr.strip xpath) = true ->
  unclassified (PyStr.strip xpath)
  /\ split_xpath_last xpath = (PyStr.strip xpath, []).
Proof.
  intros Hc.
  assert (Hu : unclassified (PyStr.strip xpath)).
  { unfold unclassified. rewrite Forall_forall. intros r Hr.
    destruct (rmatch r (PyStr.strip xpath)) as [m|] eqn:E; [|reflexivity].
    exfalso.
    assert (Hr' : one_line r = true /\ anchored r = true).
    { unfold rules in Hr.
      repeat (apply elem_of_cons in Hr as [->|Hr]; [split; vm_compute; reflexivity|]).
      now apply elem_of_nil in Hr. }
    destruct Hr' as [H1 H2].
    apply rmatch_parses in E as (w & s' & E & P).
    pose proof (parses_anchored _ _ _ _ _ H2 P) as Ha.
    rewrite (eos_after_strip xpath _ _ E Ha), app_empty_r in E.
    rewrite E, (parses_one_line _ _ _ _ _ H1 P) in Hc. discriminate. }
  split; [exact Hu|].
  destruct (split_xpath_last_cases xpath) as [[_ E]|[Hn _]]; [exact E | contradiction].
Qed.

End OneLine.

(** [line_feed_is_unclassified] on [/a], a line feed, [/b]. *)
Lemma line_feed_is_unclassified_witness :
  split_xpath_last ("/a" +:+ String LF "/b") = ("/a" +:+ String LF "/b", []).
Proof.
  apply (line_feed_is_unclassified ("/a" +:+ String LF "/b")). reflexivity.
Defined.

(** ** A plain name after the last slash *)

Section PlainName.

Context {lx : Accepts}.

Import Re.

Lemma star_none p t :
  forall i g k,
    (forall u v, t = u +:+ v -> each_char p u -> k (i + String.length u) v g = None) ->
    star p i t g k = None.
Proof.
  induction t as [|c t IH]; intros i g k H; simpl.
  - specialize (H EmptyString EmptyString eq_refl I). simpl in H.
    now rewrite Nat.add_0_r in H.
  - assert (H0 : k i (String c t) g = None).
    { specialize (H EmptyString (String c t) eq_refl I). simpl in H.
      now rewrite Nat.add_0_r in H. }
    destruct (p c) eqn:Hp; [|exact H0].
    rewrite IH; [exact H0|].
    intros u v -> Hu. specialize (H (String c u) v eq_refl (conj Hp Hu)).
    simpl in H. now rewrite Nat.add_succ_r in H.
Qed.

(** [p*] stops after [w] when the rest of the pattern succeeds there and
    fails after every longer run. *)
Lemma star_greedy p w :
  forall s' i g k m,
    each_char p w ->
    k (i + String.length w) s' g = Some m ->
    (forall u v, u <> EmptyString -> s' = u +:+ v -> each_char p u ->
                 k (i + String.length w + String.length u) v g = None) ->
    star p i (w +:+ s') g k = Some m.
Proof.
  induction w as [|c w IH]; intros s' i g k m Hw Hk Hlong.
  - rewrite app_nil_l. simpl in Hk. rewrite Nat.add_0_r in Hk.
    destruct s' as [|c t]; simpl; [exact Hk|].
    destruct (p c) eqn:Hp; [|exact Hk].
    rewrite star_none; [exact Hk|].
    intros u v -> Hu.
    specialize (Hlong (String c u) v ltac:(discriminate) eq_refl (conj Hp Hu)).
    simpl in Hlong. now rewrite Nat.add_0_r, Nat.add_succ_r in Hlong.
  - destruct Hw as [Hc Hw]. rewrite app_cons. simpl. rewrite Hc.
    rewrite (IH s' (S i) g k m Hw); [reflexivity| |].
    + simpl in Hk. now rewrite Nat.add_succ_r in Hk.
    + intros u v Hu E Hpu. specialize (Hlong u v Hu E Hpu).
      simpl in Hlong. now rewrite Nat.add_succ_r in Hlong.
Qed.

Lemma no_LF_each_dot w : PyStr.contains LF w = false -> each_char dot w.
Proof.
  induction w as [|a w IH]; simpl; [exact (fun _ => I)|].
  intros [Ha Hw]%orb_false_iff. split; [|now apply IH].
  unfold dot, is_char. destruct (Nat.eqb_spec (nat_of_ascii a) 10) as [E|]; [|reflexivity].
  assert (a = LF) as -> by (rewrite <- (ascii_nat_embedding a), E; reflexivity).
  discriminate Ha.
Qed.

Lemma ident_rest_plain c :
  ident_rest c = true -> Ascii.eqb "/" c = false /\ dot c = true.
Proof.
  destruct c as [[] [] [] [] [] [] [] []]; vm_compute; intros H;
    first [discriminate H | split; reflexivity].
Qed.

Lemma ident_start_rest c : ident_start c = true -> Ascii.eqb "/" c = false.
Proof.
  intros H. destruct (ident_start_plain _ H) as [_ H2].
  now rewrite Ascii.eqb_sym.
Qed.

Lemma each_char_app p a b : each_char p (a +:+ b) <-> each_char p a /\ each_char p b.
Proof.
  induction a as [|x a IH]; [rewrite app_nil_l; simpl; tauto|].
  rewrite app_cons. simpl. rewrite IH. tauto.
Qed.

(** No tail of an identifier starts with a slash. *)
Lemma ident_tail_no_slash name u v :
  is_ident name -> name = u +:+ v -> PyStr.drop_prefix "/" v = None.
Proof.
  intros Hn ->. destruct v as [|a v]; [reflexivity|]. cbn [PyStr.drop_prefix].
  enough (Ascii.eqb "/" a = false) as -> by reflexivity.
  destruct u as [|c u].
  - rewrite app_nil_l in Hn. destruct Hn as [Hc _]. now apply ident_start_rest.
  - rewrite app_cons in Hn. destruct Hn as [_ Hr].
    apply each_char_app in Hr as [_ [Ha _]]. now apply ident_rest_plain.
Qed.

Lemma substring_0_all w : substring 0 (String.length w) w = w.
Proof. rewrite <- (app_empty_r w) at 2. apply substring_0_app. Qed.

Lemma run_ident_eos name i g n :
  is_ident name ->
  run (Cat (Grp n _nsIdent) Eos) i name g final = Some (<[n := name]> g).
Proof.
  intros Hn. destruct name as [|c rest]; [destruct Hn|]. destruct Hn as [Hc Hr].
  cbn [run _nsIdent _ident]. rewrite Hc.
  rewrite <- (app_empty_r rest) at 1.
  erewrite star_greedy; [reflexivity | exact Hr | |].
  - change (at_eos EmptyString) with true. cbv iota. unfold final. do 2 f_equal.
    replace (S i + String.length rest - i) with (String.length (String c rest))
      by (simpl; lia).
    apply substring_0_all.
  - intros u v Hu E _. destruct u; [contradiction | discriminate E].
Qed.

(** Every stripped selector that ends in a slash and a plain identifier is
    split there, whatever comes before the slash on the same line: the
    prefix is what precedes the slash and the one change asks for the
    element of that name. *)
Theorem split_plain_name (xpath prefix name : string) :
  PyStr.strip xpath = prefix +:+ "/" +:+ name ->
  is_ident name ->
  PyStr.contains LF prefix = false ->
  split_xpath_last xpath = (prefix, [(name, VNone)])
  /\ segment_of (name, VNone) = Some (ElementExists name).
Proof.
  intros E Hn Hp.
  assert (Hm : rmatch _re_splitSimpleLast (PyStr.strip xpath)
               = Some (<[2 := name]> (<[1 := prefix]> ∅))).
  { rewrite E. unfold rmatch, _re_splitSimpleLast.
    cbn [run]. change (Nat.eqb 0 0) with true. cbv iota.
    erewrite star_greedy; [reflexivity | now apply no_LF_each_dot | |].
    - simpl Nat.add. rewrite Nat.sub_0_r, substring_0_app.
      change (PyStr.drop_prefix "/" ("/" +:+ name)) with (Some name). cbv iota.
      now apply run_ident_eos.
    - intros u v Hu Euv _. destruct u as [|a u]; [contradiction|].
      rewrite app_cons in Euv. change ("/" +:+ name) with (String "/" name) in Euv.
      injection Euv as Ea Euv. subst a. cbv beta.
      now rewrite (ident_tail_no_slash name u v Hn Euv). }
  split.
  - unfold split_xpath_last. rewrite Hm. unfold group.
    rewrite lookup_insert_ne by discriminate. now rewrite !lookup_insert_eq.
  - destruct name as [|c rest]; [destruct Hn|]. destruct Hn as [Hc _].
    unfold segment_of. now rewrite (dispatch_ident _ _ Hc).
Qed.

End PlainName.

(** [split_plain_name] on [//business[@type='bar']/website]. *)
Lemma split_plain_name_witness :
  split_xpath_last " //business[@type='bar']/website "
  = ("//business[@type='bar']", [("website", VNone)]).
Proof.
  apply (split_plain_name " //business[@type='bar']/website "
           "//business[@type='bar']" "website").
  - reflexivity.
  - simpl. repeat split.
  - reflexivity.
Defined.

(** ** An attribute name after the last slash *)

Section AttributeName.

Context {lx : Accepts}.

Import Re.

Lemma ident_start_is_rest c : ident_start c = true -> ident_rest c = true.
Proof.
  unfold ident_start, ident_rest.
  destruct (lower c), (upper c), (minus c), (digit c), (underscore c), (period c);
    simpl; congruence.
Qed.

Lemma is_ident_chars name : is_ident name -> each_char ident_rest name.
Proof.
  destruct name as [|c rest]; [intros []|]. intros [Hc Hr].
  split; [now apply ident_start_is_rest | exact Hr].
Qed.

Lemma each_char_weaken (p q : ascii -> bool) w :
  (forall c, p c = true -> q c = true) -> each_char p w -> each_char q w.
Proof.
  intros Hpq. induction w as [|c w IH]; simpl; [exact id|].
  intros [Hc Hw]. auto.
Qed.

Lemma ident_rest_not_slash c : ident_rest c = true -> not_slash c = true.
Proof.
  intros H. unfold not_slash. now destruct (ident_rest_plain _ H) as [-> _].
Qed.

Lemma colon_or_ident_not_slash c :
  (ident_rest c || Ascii.eqb c ":") = true -> not_slash c = true.
Proof.
  intros [H|H]%orb_true_iff; [now apply ident_rest_not_slash|].
  apply Ascii.eqb_eq in H as ->. reflexivity.
Qed.

(** The words of [_nsIdent]: they start as an identifier and have no
    slash. *)
Lemma parses_nsIdent_word w rest g g' :
  parses _nsIdent w rest g g' ->
  each_char not_slash w /\ exists c w', w = String c w' /\ ident_start c = true.
Proof.
  unfold _nsIdent, _ident. cbn [parses].
  intros [P|P].
  - destruct P as (w1 & w2 & g1 & -> & (c & -> & Hc & ->) & [Hw _]).
    split; [|eauto]. rewrite app_cons, app_nil_l. split.
    + now apply ident_rest_not_slash, ident_start_is_rest.
    + now apply (each_char_weaken ident_rest), Hw; [apply ident_rest_not_slash].
  - destruct P as (w1 & w2 & g1 & -> & P1 & w3 & w4 & g2 & -> & [-> ->] & P2).
    destruct P1 as (a & b & g3 & -> & (c & -> & Hc & ->) & [Hb _]).
    destruct P2 as (a' & b' & g4 & -> & (c' & -> & Hc' & ->) & [Hb' _]).
    split; [|rewrite !app_cons; eauto].
    rewrite !each_char_app. repeat split; simpl;
      try (now apply ident_rest_not_slash, ident_start_is_rest);
      try (eapply each_char_weaken; [apply ident_rest_not_slash | eassumption]).
Qed.

(** A string is cut at its last slash in one way only. *)
Lemma last_slash a :
  forall a' b b',
    each_char not_slash b -> each_char not_slash b' ->
    a +:+ "/" +:+ b = a' +:+ "/" +:+ b' -> a = a' /\ b = b'.
Proof.
  induction a as [|x a IH]; intros [|y a'] b b' Hb Hb'; rewrite ?app_cons, ?app_nil_l.
  - change ("/" +:+ b) with (String "/" b). change ("/" +:+ b') with (String "/" b').
    now intros [= ->].
  - change ("/" +:+ b) with (String "/" b). intros [= <- ->].
    apply each_char_app in Hb as [_ Hb].
    change ("/" +:+ b') with (String "/" b') in Hb. destruct Hb as [Hb _]. discriminate Hb.
  - change ("/" +:+ b') with (String "/" b'). intros [= -> <-].
    apply each_char_app in Hb' as [_ Hb'].
    change ("/" +:+ b) with (String "/" b) in Hb'. destruct Hb' as [Hb' _]. discriminate Hb'.
  - intros [= -> E]. destruct (IH _ _ _ Hb Hb' E) as [-> ->]. auto.
Qed.

Lemma last_char_app a b : b <> EmptyString -> last_char (a +:+ b) = last_char b.
Proof.
  intros Hb. induction a as [|x a IH]; [reflexivity|].
  rewrite app_cons. simpl. rewrite IH.
  destruct (a +:+ b) eqn:E; [|reflexivity].
  destruct a; [rewrite app_nil_l in E; contradiction | discriminate E].
Qed.

Lemma each_char_last p w c : each_char p w -> last_char w = Some c -> p c = true.
Proof.
  induction w as [|x w IH]; [discriminate|]. intros [Hx Hw]. simpl.
  destruct w as [|y w]; [now intros [= <-] | now apply IH].
Qed.

Lemma ident_rest_not_quote c : ident_rest c = true -> c <> squote /\ c <> dquote.
Proof.
  destruct c as [[] [] [] [] [] [] [] []]; vm_compute; intros H;
    first [discriminate H | split; discriminate].
Qed.

Lemma run_attr_eos name i g n :
  is_ident name ->
  run (Cat (Grp n (Cat (Lit "@") _nsIdent)) Eos) i ("@" +:+ name) g final
  = Some (<[n := "@" +:+ name]> g).
Proof.
  intros Hn. destruct name as [|c rest]; [destruct Hn|]. destruct Hn as [Hc Hr].
  cbn [run _nsIdent _ident].
  change (PyStr.drop_prefix "@" ("@" +:+ String c rest)) with (Some (String c rest)).
  cbv iota. rewrite Hc.
  rewrite <- (app_empty_r rest) at 1.
  erewrite star_greedy; [reflexivity | exact Hr | |].
  - change (at_eos EmptyString) with true. cbv iota. unfold final. do 2 f_equal.
    replace (S (i + String.length "@") + String.length rest - i)
      with (String.length ("@" +:+ String c rest)) by (simpl; lia).
    apply substring_0_all.
  - intros u v Hu E _. destruct u; [contradiction | discriminate E].
Qed.

(** Every stripped selector that ends in a slash, [@] and a plain
    identifier is read as a request for that attribute: the two element
    patterns, tried first, do not match it, and the prefix is what
    precedes the slash. *)
Theorem split_attribute_name (xpath prefix name : string) :
  PyStr.strip xpath = prefix +:+ "/" +:+ "@" +:+ name ->
  is_ident name ->
  PyStr.contains LF prefix = false ->
  rmatch _re_splitSimpleLast (PyStr.strip xpath) = None
  /\ rmatch _re_splitSimpleLastEqValue (PyStr.strip xpath) = None
  /\ split_xpath_last xpath = (prefix, [("@" +:+ name, VNone)])
  /\ segment_of ("@" +:+ name, VNone) = Some (AttributeExists name).
Proof.
  intros E Hn Hp.
  assert (Hname : each_char not_slash ("@" +:+ name)).
  { split; [reflexivity|].
    eapply each_char_weaken; [apply ident_rest_not_slash | now apply is_ident_chars]. }
  assert (H1 : rmatch _re_splitSimpleLast (PyStr.strip xpath) = None).
  { destruct (rmatch _re_splitSimpleLast (PyStr.strip xpath)) as [m|] eqn:E1;
      [exfalso | reflexivity].
    apply rmatch_parses in E1 as (w & s' & Ew & P).
    unfold _re_splitSimpleLast in P. cbn [parses] in P.
    destruct P as (w0 & w1 & g0 & -> & [-> ->] & w2 & w3 & g1 & -> & (g2 & [_ ->] & ->)
                   & w4 & w5 & g3 & -> & [-> ->] & w6 & w7 & g4 & -> & (g5 & P & ->)
                   & -> & Ha & ->).
    apply parses_nsIdent_word in P as [Hw (c & w' & -> & Hc)].
    rewrite (eos_after_strip xpath _ _ Ew Ha), E in Ew.
    rewrite !app_nil_l, !app_empty_r in Ew.
    destruct (last_slash _ _ _ _ Hname Hw Ew) as [_ Eq].
    injection Eq as <- _. discriminate Hc. }
  assert (H2 : rmatch _re_splitSimpleLastEqValue (PyStr.strip xpath) = None).
  { destruct (rmatch _re_splitSimpleLastEqValue (PyStr.strip xpath)) as [m|] eqn:E2;
      [exfalso | reflexivity].
    apply rmatch_parses in E2 as (w & s' & Ew & P).
    unfold _re_splitSimpleLastEqValue in P. cbn [parses] in P.
    destruct P as (w0 & w1 & g0 & -> & [-> ->] & w2 & w3 & g1 & -> & (g2 & [_ ->] & ->)
                   & w4 & w5 & g3 & -> & [-> ->] & w6 & w7 & g4 & -> & (g5 & P & ->)
                   & w8 & w9 & g6 & -> & [-> ->] & w10 & w11 & g7 & -> & Px
                   & -> & Ha & ->).
    apply parses_xpstr in Px as (q & v & Hq & -> & _).
    rewrite (eos_after_strip xpath _ _ Ew Ha), E in Ew.
    assert (Hl : last_char (prefix +:+ "/" +:+ "@" +:+ name) = Some q).
    { rewrite Ew. rewrite !app_empty_r, !app_nil_l.
      unfold quoted.
      rewrite <- !app_assoc_s.
      change (String q (v +:+ String q EmptyString))
        with (String q EmptyString +:+ (v +:+ String q EmptyString)).
      rewrite <- !app_assoc_s. apply last_char_snoc. }
    assert (Hne : name <> EmptyString) by (destruct name; [destruct Hn | discriminate]).
    rewrite <- !app_assoc_s, (last_char_app _ name Hne) in Hl.
    pose proof (each_char_last _ _ _ (is_ident_chars _ Hn) Hl) as Hq'.
    apply ident_rest_not_quote in Hq' as [? ?]. destruct Hq; contradiction. }
  assert (H3 : rmatch _re_splitSimpleAttrLast (PyStr.strip xpath)
               = Some (<[2 := "@" +:+ name]> (<[1 := prefix]> ∅))).
  { rewrite E. unfold rmatch, _re_splitSimpleAttrLast.
    cbn [run]. change (Nat.eqb 0 0) with true. cbv iota.
    change (prefix +:+ "/" +:+ "@" +:+ name) with (prefix +:+ ("/" +:+ "@" +:+ name)).
    erewrite star_greedy; [reflexivity | now apply no_LF_each_dot | |].
    - simpl Nat.add. rewrite Nat.sub_0_r, substring_0_app.
      change (PyStr.drop_prefix "/" ("/" +:+ "@" +:+ name)) with (Some ("@" +:+ name)).
      cbv iota. now apply run_attr_eos.
    - intros u v Hu Euv _. destruct u as [|a u]; [contradiction|].
      rewrite app_cons in Euv.
      change ("/" +:+ "@" +:+ name) with (String "/" ("@" +:+ name)) in Euv.
      injection Euv as Ea Euv. subst a. cbv beta.
      enough (PyStr.drop_prefix "/" v = None) as -> by reflexivity.
      destruct v as [|a v]; [reflexivity|]. cbn [PyStr.drop_prefix].
      assert (Euv' : "@" +:+ name = u +:+ String a v) by exact Euv.
      rewrite Euv' in Hname. apply each_char_app in Hname as [_ [Ha _]].
      unfold not_slash in Ha. apply negb_true_iff in Ha. now rewrite Ha. }
  split; [exact H1|]. split; [exact H2|]. split.
  - unfold split_xpath_last. rewrite H1, H2, H3. unfold group.
    rewrite lookup_insert_ne by discriminate. now rewrite !lookup_insert_eq.
  - reflexivity.
Qed.

End AttributeName.

(** [split_attribute_name] on [/business/rating/@subjective]. *)
Lemma split_attribute_name_witness :
  split_xpath_last "/business/rating/@subjective"
  = ("/business/rating", [("@subjective", VNone)]).
Proof.
  apply (split_attribute_name "/business/rating/@subjective"
           "/business/rating" "subjective").
  - reflexivity.
  - simpl. repeat split.
  - reflexivity.
Defined.

(** ** The changes that update the context elements *)

Section Updates.

Context {lx : Accepts}.

Lemma alter_refresh (test : element -> bool) (f : element -> element)
    (e : nat) (h : store) (r : element) :
  h !! e = Some r ->
  (if test r then alter f e h else h) = alter (refresh test f) e h.
Proof.
  intros He. apply list_eq. intros i. unfold refresh.
  destruct (decide (e = i)) as [->|Hne].
  - destruct (test r) eqn:T.
    + rewrite !list_lookup_alter_eq, He. simpl. now rewrite T.
    + rewrite list_lookup_alter_eq, He. simpl. now rewrite T.
  - destruct (test r); now rewrite ?list_lookup_alter_ne by assumption.
Qed.

Lemma some_element_same test (h h' : store) es :
  (forall x, h' !! x = h !! x) -> some_element test h' es = some_element test h es.
Proof.
  intros H. unfold some_element. induction es as [|e es IH]; [reflexivity|].
  simpl. now rewrite H, IH.
Qed.

(** The loop of [update_body] over elements of the store: every one of
    them is refreshed, and the verdict says whether [test] held of one. *)
Lemma update_loop test f es :
  (forall r, refresh test f (refresh test f r) = refresh test f r) ->
  forall (h : store) acc,
    (forall e, e ∈ es -> is_Some (h !! e)) ->
    exists h' : store,
      for_in (ItemElement <$> es) (update_body test f) acc h
      = Done (acc || some_element test h es) h'
      /\ forall x, h' !! x = if decide (x ∈ es) then refresh test f <$> h !! x
                             else h !! x.
Proof.
  intros Hidem. induction es as [|e es IH]; intros h acc Hex.
  - exists h. simpl. unfold ret. rewrite orb_false_r. split; [reflexivity|].
    intros x. destruct (decide (x ∈ [])) as [Hx|]; [now apply elem_of_nil in Hx|reflexivity].
  - destruct (Hex e) as [r Hr]; [left|].
    set (h1 := alter (refresh test f) e h).
    assert (Hstep : update_body test f (ItemElement e) acc h = Done (acc || test r) h1).
    { unfold update_body, as_element, bind, ret, get. rewrite Hr. unfold h1.
      rewrite <- (alter_refresh test f e h r Hr). unfold modify.
      destruct (test r); [now rewrite orb_true_r | now rewrite orb_false_r]. }
    destruct (IH h1 (acc || test r)) as (h' & Hrun & Hpost).
    { intros x Hx. unfold h1. destruct (decide (e = x)) as [->|Hne].
      - rewrite list_lookup_alter_eq, Hr. eauto.
      - rewrite list_lookup_alter_ne by assumption. apply Hex. now right. }
    exists h'. split.
    + cbn [fmap list_fmap for_in]. unfold bind at 1. rewrite Hstep, Hrun. f_equal.
      unfold some_element at 2. simpl. rewrite Hr. simpl. fold (some_element test h es).
      destruct (test r) eqn:T.
      * now rewrite !orb_true_r.
      * rewrite !orb_false_r. f_equal. apply some_element_same. intros x.
        unfold h1. destruct (decide (e = x)) as [->|Hne].
        -- rewrite list_lookup_alter_eq, Hr. simpl. unfold refresh. now rewrite T.
        -- now rewrite list_lookup_alter_ne.
    + intros x. rewrite Hpost. unfold h1.
      destruct (decide (e = x)) as [->|Hne].
      * rewrite list_lookup_alter_eq, Hr. simpl.
        destruct (decide (x ∈ es)), (decide (x ∈ x :: es)) as [|Hn];
          try reflexivity; try (now rewrite Hidem).
        -- destruct Hn. left.
        -- destruct Hn. left.
      * rewrite list_lookup_alter_ne by assumption.
        destruct (decide (x ∈ es)) as [Hin|Hin], (decide (x ∈ e :: es)) as [Hin'|Hin'];
          try reflexivity.
        -- destruct Hin'. now right.
        -- apply elem_of_cons in Hin' as [->|]; contradiction.
Qed.

End Updates.

Section Changes.

Context {lx : Accepts}.

Variable xpath_eval : store -> nat -> string -> namespaces -> pyexn + xpath_result.
Variable parse_xml : string -> option fragment.

Lemma nsnameToClark_plain name ns :
  PyStr.contains ":" name = false -> nsnameToClark name ns = ret name.
Proof. intros H. unfold nsnameToClark. now rewrite H. Qed.

Lemma some_element_ext (t1 t2 : element -> bool) (h : store) es :
  (forall r, t1 r = t2 r) -> some_element t1 h es = some_element t2 h es.
Proof.
  intros H. unfold some_element. induction es as [|e es IH]; [reflexivity|].
  simpl. rewrite IH. destruct (h !! e); simpl; [now rewrite H | reflexivity].
Qed.

Lemma for_in_same {A S} (l : list A) (b1 b2 : A -> S -> M S) acc h :
  (forall x a, same_run (b1 x a) (b2 x a)) -> for_in l b1 acc h = for_in l b2 acc h.
Proof. intros H. apply same_run_for_in. intros x a _. apply H. Qed.

Lemma each_updated_refresh test f g es (h h' : store) :
  (forall r, refresh test f r = g r) ->
  (forall x, h' !! x = if decide (x ∈ es) then refresh test f <$> h !! x else h !! x) ->
  each_updated g es h h'.
Proof.
  intros Hg H x. rewrite H. destruct (decide (x ∈ es)); [|reflexivity].
  destruct (h !! x); simpl; [now rewrite Hg | reflexivity].
Qed.

(** The text change, [text()='v'] on the context elements [es], for a
    text [v] that lxml accepts: in a dry run as in a real one, every
    context element ends with the text [v]; the verdict becomes [true]
    when one of them had another text and is left as it was otherwise. *)
Theorem text_change_sets_text
    (md : module) (tree : nat) (inner : string) (ns : namespaces)
    (recurse : nat -> string -> M bool) (v : string) (changed : bool)
    (es : list nat) (h : store) :
  valid_text v = true ->
  xpath_eval h tree inner ns = inr (XList (ItemElement <$> es)) ->
  (forall e, e ∈ es -> is_Some (h !! e)) ->
  exists h' : store,
    apply_change xpath_eval parse_xml md tree inner ns recurse
      (EmptyString, VStr v) changed h
    = Done (changed || some_element (fun r => differs (text r) v) h es) h'
    /\ each_updated (with_text (Some v)) es h h'.
Proof.
  intros Hv Hev Hex.
  set (test := fun r : element => negb (text_is (text r) (VStr v))).
  destruct (update_loop test (with_text (Some v)) es) with (h := h) (acc := changed)
    as (h' & Hrun & Hpost); [|exact Hex|].
  { intros r. unfold refresh, test. destruct r as [t [x|] a c p]; simpl.
    - destruct (String.eqb x v) eqn:Ex; simpl; rewrite ?Ex, ?String.eqb_refl;
        reflexivity.
    - now rewrite String.eqb_refl. }
  exists h'. split.
  - unfold apply_change. change (dispatch EmptyString) with BranchText. cbv iota.
    unfold bind at 1, tree_xpath at 1. rewrite Hev.
    unfold bind at 1, iter, ret at 1.
    transitivity (for_in (ItemElement <$> es) (update_body test (with_text (Some v)))
                    changed h).
    + apply for_in_same. intros x acc h0.
      unfold update_body, as_text, set_text, bind, as_element, get, ret, raise.
      rewrite Hv. reflexivity.
    + rewrite Hrun. f_equal. f_equal. apply some_element_ext.
      intros r. unfold test. destruct (text r); reflexivity.
  - apply (each_updated_refresh test (with_text (Some v))); [|exact Hpost].
    intros r. unfold refresh, test. destruct r as [t [x|] a c p]; simpl; try reflexivity.
    destruct (String.eqb_spec x v) as [->|]; reflexivity.
Qed.

(** The text change with a text that lxml refuses: the first context
    element that has another text stops the call with [ValueError], and
    nothing is written. *)
Lemma text_change_refused
    (md : module) (tree : nat) (inner : string) (ns : namespaces)
    (recurse : nat -> string -> M bool) (v : string) (changed : bool)
    (e : nat) (l : list item) (r : element) (h : store) :
  valid_text v = false ->
  xpath_eval h tree inner ns = inr (XList (ItemElement e :: l)) ->
  h !! e = Some r -> differs (text r) v = true ->
  apply_change xpath_eval parse_xml md tree inner ns recurse
    (EmptyString, VStr v) changed h
  = Raised ValueError h.
Proof.
  intros Hv Hev Hr Hd.
  unfold apply_change. change (dispatch EmptyString) with BranchText. cbv iota.
  unfold bind at 1, tree_xpath at 1. rewrite Hev.
  unfold bind at 1, iter, ret at 1. cbn [for_in].
  unfold as_text, set_text, bind, as_element, get, ret, raise. rewrite Hr, Hv.
  unfold differs in Hd. unfold text_is. destruct (text r) as [t|]; [|reflexivity].
  now rewrite Hd.
Qed.

(** The attribute change with a value, [@name='v'] with a plain [name]
    that lxml can look up, on the context elements [es]. In a real run
    with a name and a value that lxml accepts, every context element
    ends with the attribute set to [v], and the verdict becomes [true]
    when one of them had no such attribute or another value. In a dry
    run nothing is written and the verdict is left as it was. *)
Theorem attribute_change_sets_value
    (md : module) (tree : nat) (inner : string) (ns : namespaces)
    (recurse : nat -> string -> M bool) (name v : string) (changed : bool)
    (es : list nat) (h : store) :
  PyStr.contains ":" name = false ->
  valid_key name = true ->
  (check_mode md = false -> valid_attribute name = true /\ valid_value v = true) ->
  xpath_eval h tree inner ns = inr (XList (ItemElement <$> es)) ->
  (forall e, e ∈ es -> is_Some (h !! e)) ->
  exists h' : store,
    apply_change xpath_eval parse_xml md tree inner ns recurse
      ("@" +:+ name, VStr v) changed h
    = Done (if check_mode md then changed
            else changed || some_element (fun r => differs (attrib r !! name) v) h es) h'
    /\ if check_mode md then h' = h else each_updated (set_attrib name v) es h h'.
Proof.
  intros Hname Hkey Hok Hev Hex.
  unfold apply_change. change (dispatch ("@" +:+ name)) with BranchAttribute. cbv iota.
  change (PyStr.slice_1 ("@" +:+ name)) with name.
  rewrite (nsnameToClark_plain name ns Hname).
  unfold bind at 1, ret at 1. unfold bind at 1, tree_xpath at 1. rewrite Hev.
  unfold bind at 1, iter, ret at 1.
  destruct (check_mode md) eqn:Hmd.
  - exists h. split; [|reflexivity].
    clear Hev. revert Hex. generalize changed.
    induction es as [|e es IH]; intros acc Hex; [reflexivity|].
    destruct (Hex e) as [r Hr]; [left|].
    cbn [fmap list_fmap for_in].
    match goal with
    | |- bind ?m ?k h = _ =>
        assert (Hstep : m h = Done acc h)
          by (unfold get_attribute, bind, as_element, ret, get; rewrite Hkey, Hr;
              reflexivity);
        rewrite (bind_done m k h acc h Hstep)
    end.
    apply IH. intros x Hx. apply Hex. now right.
  - destruct (Hok eq_refl) as [Hattr Hval].
    set (test := fun r : element => differs (attrib r !! name) v).
    destruct (update_loop test (set_attrib name v) es) with (h := h) (acc := changed)
      as (h' & Hrun & Hpost); [|exact Hex|].
    { intros r. unfold refresh, test, set_attrib. destruct r as [t x a c p]; simpl.
      destruct (a !! name) as [cur|] eqn:Ea; simpl.
      - destruct (String.eqb cur v) eqn:Ex; simpl;
          rewrite ?Ea, ?lookup_insert_eq; simpl; rewrite ?Ex, ?String.eqb_refl;
          reflexivity.
      - rewrite lookup_insert_eq. simpl. now rewrite String.eqb_refl. }
    exists h'. split.
    + rewrite <- Hrun. apply for_in_same. intros x acc h0.
      unfold update_body, get_attribute, set_attribute, bind, as_element, get, ret,
        modify, raise.
      rewrite Hkey, Hattr, Hval.
      destruct x as [e| |]; try reflexivity.
      destruct (h0 !! e) as [r|]; [|reflexivity].
      unfold test, set_attrib. simpl. destruct (attrib r !! name) as [cur|]; simpl.
      * destruct (String.eqb cur v); simpl; [reflexivity|]. now rewrite orb_true_r.
      * now rewrite orb_true_r.
    + apply (each_updated_refresh test (set_attrib name v)); [|exact Hpost].
      intros r. unfold refresh, test, set_attrib. destruct r as [t x a c p]; simpl.
      destruct (a !! name) as [cur|] eqn:Ea; simpl; [|reflexivity].
      destruct (String.eqb_spec cur v) as [->|]; simpl; [|reflexivity].
      unfold with_attrib. simpl. f_equal. symmetry. now apply insert_id.
Qed.

(** The loop of the attribute change without a value in a real run, for
    a name that lxml accepts. *)
Lemma attribute_reset_loop
    (md : module) (name : string) (es : list nat) (h : store) (changed : bool) :
  check_mode md = false ->
  valid_key name = true ->
  valid_attribute name = true ->
  valid_value EmptyString = true ->
  (forall e, e ∈ es -> is_Some (h !! e)) ->
  exists h' : store,
    for_in (ItemElement <$> es)
      (fun element changed =>
         let* e := as_element element in
         let* cur := get_attribute e name in
         let changing :=
           match cur with
           | None => true
           | Some cur => negb (text_is (Some cur) VNone)
           end in
         if negb (check_mode md) && changing then
           let changed := changed || changing in
           let* value := ret EmptyString in
           do set_attribute e name value then ret changed
         else ret changed)
      changed h
    = Done (changed || match es with [] => false | _ => true end) h'
    /\ each_updated (set_attrib name EmptyString) es h h'.
Proof.
  intros Hmd Hkey Hattr Hval Hex.
  set (test := fun _ : element => true).
  destruct (update_loop test (set_attrib name EmptyString) es)
    with (h := h) (acc := changed) as (h' & Hrun & Hpost); [|exact Hex|].
  { intros r. unfold refresh, test, set_attrib, with_attrib. simpl.
    now rewrite insert_insert_eq. }
  exists h'. split.
  - rewrite Hmd.
    transitivity (for_in (ItemElement <$> es)
                    (update_body test (set_attrib name EmptyString)) changed h).
    + apply for_in_same. intros x acc h0.
      unfold update_body, get_attribute, set_attribute, bind, as_element, get, ret,
        modify, raise.
      rewrite Hkey, Hattr, Hval.
      destruct x as [e| |]; try reflexivity.
      destruct (h0 !! e) as [r|]; [|reflexivity].
      unfold test, set_attrib. simpl. destruct (attrib r !! name) as [cur|]; simpl;
        now rewrite orb_true_r.
    + rewrite Hrun. f_equal. f_equal. unfold some_element, test.
      destruct es as [|e es]; [reflexivity|]. simpl.
      destruct (Hex e) as [r ->]; [left | reflexivity].
  - apply (each_updated_refresh test (set_attrib name EmptyString)); [|exact Hpost].
    reflexivity.
Qed.

(** The attribute change without a value, [@name] with a plain [name]
    that lxml accepts, in a real run: every context element ends with
    the attribute set to the empty string, whatever value it had, and
    the verdict is [true] as soon as there is a context element. *)
Theorem attribute_exists_resets_value
    (md : module) (tree : nat) (inner : string) (ns : namespaces)
    (recurse : nat -> string -> M bool) (name : string) (changed : bool)
    (es : list nat) (h : store) :
  check_mode md = false ->
  PyStr.contains ":" name = false ->
  valid_key name = true ->
  valid_attribute name = true ->
  valid_value EmptyString = true ->
  xpath_eval h tree inner ns = inr (XList (ItemElement <$> es)) ->
  (forall e, e ∈ es -> is_Some (h !! e)) ->
  exists h' : store,
    apply_change xpath_eval parse_xml md tree inner ns recurse
      ("@" +:+ name, VNone) changed h
    = Done (changed || match es with [] => false | _ => true end) h'
    /\ each_updated (set_attrib name EmptyString) es h h'.
Proof.
  intros Hmd Hname Hkey Hattr Hval Hev Hex.
  destruct (attribute_reset_loop md name es h changed Hmd Hkey Hattr Hval Hex)
    as (h' & Hrun & Hpost).
  exists h'. split; [|exact Hpost].
  unfold apply_change. change (dispatch ("@" +:+ name)) with BranchAttribute. cbv iota.
  change (PyStr.slice_1 ("@" +:+ name)) with name.
  rewrite (nsnameToClark_plain name ns Hname).
  unfold bind at 1, ret at 1. unfold bind at 1, tree_xpath at 1. rewrite Hev.
  unfold bind at 1, iter, ret at 1. exact Hrun.
Qed.

End Changes.

(** ** The change that creates an element *)

Section NewElement.

Context {lx : Accepts}.

Variable xpath_eval : store -> nat -> string -> namespaces -> pyexn + xpath_result.
Variable parse_xml : string -> option fragment.

Lemma append_eq p c (h : store) rc :
  h !! c = Some rc ->
  append p c h
  = Done tt (alter (with_parent (Some p)) c
               (alter (add_child c) p
                  (match parent rc with
                   | Some q => alter (drop_child c) q h
                   | None => h
                   end))).
Proof.
  intros Hc. unfold append. rewrite (bind_done _ _ _ _ _ (get_done _ _ _ Hc)).
  unfold bind, modify, ret. destruct (parent rc); reflexivity.
Qed.

Lemma drop_add_child n r : n ∉ children r -> drop_child n (add_child n r) = r.
Proof.
  intros Hn. destruct r as [t x a c p]. unfold drop_child, add_child, with_children.
  simpl in *. f_equal. unfold without. rewrite filter_app, filter_cons_False, filter_nil
    by (intros H; now apply H).
  rewrite app_nil_r. now apply without_absent.
Qed.

Ltac alter_lookups :=
  repeat first
    [ rewrite list_lookup_alter_eq
    | rewrite list_lookup_alter_ne by congruence ].

(** Moving [n] from the end of [p] to the end of [e]. *)
Lemma move_attached n p e (h0 : store) new rp :
  h0 !! n = Some new -> h0 !! p = Some rp -> n <> p -> n <> e -> n ∉ children rp ->
  append e n (attached n p h0) = Done tt (attached n e h0).
Proof.
  intros Hn Hp Hnp Hne Hc.
  assert (Hn' : attached n p h0 !! n = Some (with_parent (Some p) new)).
  { unfold attached. alter_lookups. now rewrite Hn. }
  rewrite (append_eq _ _ _ _ Hn'). simpl. f_equal.
  apply list_eq. intros i. unfold attached.
  destruct (decide (i = n)) as [->|Hin].
  - alter_lookups. rewrite Hn. reflexivity.
  - rewrite !(list_lookup_alter_ne _ _ n i) by congruence.
    destruct (decide (i = e)) as [->|Hie].
    + alter_lookups. destruct (decide (e = p)) as [->|Hep].
      * alter_lookups. rewrite Hp. simpl. now rewrite drop_add_child.
      * now alter_lookups.
    + rewrite !(list_lookup_alter_ne _ _ e i) by congruence.
      destruct (decide (i = p)) as [->|Hip].
      * alter_lookups. rewrite Hp. simpl. now rewrite drop_add_child.
      * now alter_lookups.
Qed.

Lemma attach_first n e (h0 : store) new :
  h0 !! n = Some new -> parent new = None ->
  append e n h0 = Done tt (attached n e h0).
Proof.
  intros Hn Hp. rewrite (append_eq _ _ _ _ Hn), Hp. reflexivity.
Qed.

Lemma attributes_ok_empty : attributes_ok ∅ = true.
Proof. unfold attributes_ok. now rewrite map_to_list_empty. Qed.

Lemma new_element_ok t a (h : store) :
  valid_tag t = true -> attributes_ok a = true ->
  new_element t a h = Done (length h) (h ++ [Element t None a [] None])%list.
Proof. intros Ht Ha. unfold new_element. now rewrite Ht, Ha. Qed.

(** The element that the element and subscript changes build. *)
Lemma new_kid_built md name (h : store) :
  valid_tag name = true ->
  children_to_nodes parse_xml md [ChildStr name] InYaml h
  = Done [length h] (h ++ [Element name None ∅ [] None])%list.
Proof.
  intros Ht. unfold children_to_nodes. cbn [map_m child_to_element_typed child_to_element].
  rewrite (bind_done _ _ _ _ _ (new_element_ok name ∅ h Ht attributes_ok_empty)).
  reflexivity.
Qed.

(** The loop [for node in ...: node.extend([n])] of a real run: the new
    element ends under the last context element only. *)
Lemma attach_loop md n (h0 : store) new new_kids es :
  check_mode md = false -> new_kids = [n] ->
  h0 !! n = Some new -> parent new = None ->
  (forall e, e ∈ es -> n <> e /\ exists r, h0 !! e = Some r /\ n ∉ children r) ->
  let body := fun (node : item) (_ : bool) =>
                do when (negb (check_mode md))
                     (let* e := as_element node in extend e new_kids) then
                ret true in
  (forall acc p, p ∈ es -> forall rest,
        (forall e, e ∈ rest -> e ∈ es) ->
        for_in (ItemElement <$> rest) body acc (attached n p h0)
        = Done (match rest with [] => acc | _ => true end)
            (attached n (default p (last rest)) h0))
  /\ forall acc,
      for_in (ItemElement <$> es) body acc h0
      = Done (match es with [] => acc | _ => true end)
          (match last es with Some e => attached n e h0 | None => h0 end).
Proof.
  intros Hmd -> Hn Hpar Hes body.
  assert (Hstep : forall acc (st st' : store) e,
             append e n st = Done tt st' ->
             body (ItemElement e) acc st = Done true st').
  { intros acc st st' e Ha. unfold body. rewrite Hmd. simpl.
    unfold bind at 1 2, ret at 1. unfold extend. simpl.
    unfold bind at 1. rewrite Ha. reflexivity. }
  assert (Hmoved : forall acc p, p ∈ es -> forall rest,
             (forall e, e ∈ rest -> e ∈ es) ->
             for_in (ItemElement <$> rest) body acc (attached n p h0)
             = Done (match rest with [] => acc | _ => true end)
                 (attached n (default p (last rest)) h0)).
  { intros acc p Hp rest. revert acc p Hp.
    induction rest as [|e rest IH]; intros acc p Hp Hsub; [reflexivity|].
    destruct (Hes p Hp) as (Hnp & rp & Hrp & Hc).
    destruct (Hes e (Hsub e ltac:(left))) as (Hne & _).
    cbn [fmap list_fmap for_in].
    rewrite (bind_done _ _ _ _ _
               (Hstep acc _ _ e (move_attached n p e h0 new rp Hn Hrp Hnp Hne Hc))).
    rewrite (IH true e); [|apply Hsub; left|intros x Hx; apply Hsub; now right].
    f_equal; [now destruct rest|].
    destruct rest as [|e' rest]; [reflexivity|].
    change (last (e :: e' :: rest)) with (last (e' :: rest)).
    destruct (last (e' :: rest)) eqn:El; [reflexivity|].
    now apply last_None in El. }
  split; [exact Hmoved|].
  intros acc. destruct es as [|e es]; [reflexivity|].
  cbn [fmap list_fmap for_in].
  rewrite (bind_done _ _ _ _ _ (Hstep acc _ _ e (attach_first n e h0 new Hn Hpar))).
  rewrite (Hmoved true e); [|left|intros x Hx; now right].
  f_equal; [now destruct es|].
  destruct es as [|e' es]; [reflexivity|].
  change (last (e :: e' :: es)) with (last (e' :: es)).
  destruct (last (e' :: es)) eqn:El; [reflexivity|].
  now apply last_None in El.
Qed.

(** The element change up to its loop, for a name and a text that lxml
    accepts: one element [name] is built, with the text of the change
    when it is not empty, and the context nodes are looked up in the
    store that holds it. *)
Lemma element_change_loop
    (md : module) (tree : nat) (inner : string) (ns : namespaces)
    (recurse : nat -> string -> M bool) (name : string) (v : pyval)
    (changed : bool) (l : list item) (h : store) :
  dispatch name = BranchElement ->
  PyStr.contains ":" name = false ->
  valid_tag name = true ->
  (forall s, text_given v = Some s -> valid_text s = true) ->
  (forall l, v <> VList l) ->
  let h0 := (h ++ [Element name (text_given v) ∅ [] None])%list in
  xpath_eval h0 tree inner ns = inr (XList l) ->
  apply_change xpath_eval parse_xml md tree inner ns recurse (name, v) changed h
  = for_in l
      (fun (node : item) (_ : bool) =>
         do when (negb (check_mode md))
              (let* e := as_element node in extend e [length h]) then
         ret true)
      changed h0.
Proof.
  intros Hd Hname Htag Htext Hv h0 Hev.
  unfold apply_change. rewrite Hd.
  rewrite (nsnameToClark_plain name ns Hname).
  unfold bind at 1, ret at 1.
  rewrite (bind_done _ _ _ _ _ (new_kid_built md name h Htag)).
  assert (Hset : when (truth v)
                   (for_in [length h]
                      (fun nk _ => let* t := as_text v in set_text nk t) tt)
                   (h ++ [Element name None ∅ [] None])%list = Done tt h0).
  { unfold h0. destruct v as [|s|l']; [reflexivity| |now destruct (Hv l')].
    unfold text_given in *. simpl. destruct (nonempty s); [|reflexivity].
    simpl. unfold bind, ret, set_text, modify. rewrite (Htext s eq_refl). f_equal.
    apply list_eq. intros i. destruct (decide (i = length h)) as [->|Hi].
    - rewrite list_lookup_alter_eq, !lookup_app_r, Nat.sub_diag by lia. reflexivity.
    - rewrite list_lookup_alter_ne by congruence.
      destruct (decide (i < length h)).
      + now rewrite !lookup_app_l by lia.
      + rewrite !lookup_app_r by lia.
        destruct (i - length h) as [|k] eqn:Ek; [lia | reflexivity]. }
  rewrite (bind_done _ _ _ _ _ Hset).
  unfold bind at 1, tree_xpath at 1. rewrite Hev.
  unfold bind at 1, iter, ret at 1. reflexivity.
Qed.

(** A name that lxml refuses stops the element change with [ValueError]
    before anything is built. *)
Lemma element_change_refused
    (md : module) (tree : nat) (inner : string) (ns : namespaces)
    (recurse : nat -> string -> M bool) (name : string) (v : pyval)
    (changed : bool) (h : store) :
  dispatch name = BranchElement ->
  PyStr.contains ":" name = false ->
  valid_tag name = false ->
  apply_change xpath_eval parse_xml md tree inner ns recurse (name, v) changed h
  = Raised ValueError h.
Proof.
  intros Hd Hname Htag. unfold apply_change. rewrite Hd.
  rewrite (nsnameToClark_plain name ns Hname).
  unfold bind at 1, ret at 1. unfold children_to_nodes.
  cbn [map_m child_to_element_typed child_to_element].
  unfold bind, new_element. now rewrite Htag.
Qed.

Lemma element_change_real
    (md : module) (tree : nat) (inner : string) (ns : namespaces)
    (recurse : nat -> string -> M bool) (name : string) (v : pyval)
    (changed : bool) (es : list nat) (e_last : nat) (h : store) :
  check_mode md = false ->
  dispatch name = BranchElement ->
  PyStr.contains ":" name = false ->
  valid_tag name = true ->
  (forall s, text_given v = Some s -> valid_text s = true) ->
  (forall l, v <> VList l) ->
  let n := length h in
  let h0 := (h ++ [Element name (text_given v) ∅ [] None])%list in
  xpath_eval h0 tree inner ns = inr (XList (ItemElement <$> es)) ->
  last es = Some e_last ->
  (forall e, e ∈ es -> exists r, h !! e = Some r /\ n ∉ children r) ->
  apply_change xpath_eval parse_xml md tree inner ns recurse (name, v) changed h
  = Done true (attached n e_last h0).
Proof.
  intros Hmd Hd Hname Htag Htext Hv n h0 Hev Hlast Hes.
  rewrite (element_change_loop md tree inner ns recurse name v changed _ h
             Hd Hname Htag Htext Hv Hev).
  assert (Hn : h0 !! n = Some (Element name (text_given v) ∅ [] None)).
  { unfold h0, n. now rewrite lookup_app_r, Nat.sub_diag by lia. }
  destruct (attach_loop md n h0 _ [n] es Hmd eq_refl Hn eq_refl) as [_ Hloop].
  { intros e He. destruct (Hes e He) as (r & Hr & Hc). split.
    - apply lookup_lt_Some in Hr. unfold n. lia.
    - exists r. split; [|exact Hc]. unfold h0.
      rewrite lookup_app_l; [exact Hr | now apply lookup_lt_Some in Hr]. }
  fold n. rewrite Hloop, Hlast. destruct es; [discriminate Hlast | reflexivity].
Qed.

Lemma element_change_dry
    (md : module) (tree : nat) (inner : string) (ns : namespaces)
    (recurse : nat -> string -> M bool) (name : string) (v : pyval)
    (changed : bool) (l : list item) (h : store) :
  check_mode md = true ->
  dispatch name = BranchElement ->
  PyStr.contains ":" name = false ->
  valid_tag name = true ->
  (forall s, text_given v = Some s -> valid_text s = true) ->
  (forall l, v <> VList l) ->
  let h0 := (h ++ [Element name (text_given v) ∅ [] None])%list in
  xpath_eval h0 tree inner ns = inr (XList l) ->
  apply_change xpath_eval parse_xml md tree inner ns recurse (name, v) changed h
  = Done (match l with [] => changed | _ => true end) h0.
Proof.
  intros Hmd Hd Hname Htag Htext Hv h0 Hev.
  rewrite (element_change_loop md tree inner ns recurse name v changed _ h
             Hd Hname Htag Htext Hv Hev).
  rewrite Hmd.
  assert (Hloop : forall (st : store) acc,
             for_in l
               (fun (node : item) (_ : bool) =>
                  do when (negb true)
                       (let* e := as_element node in extend e [length h]) then
                  ret true) acc st
             = Done (match l with [] => acc | _ => true end) st).
  { clear. induction l as [|x l IH]; intros st acc; [reflexivity|].
    cbn [for_in]. unfold bind at 1. simpl. rewrite IH.
    now destruct l. }
  apply Hloop.
Qed.

(** The element change of a real run, for a plain name [name] and a text
    that lxml accepts, and the context elements [es]: one element [name]
    is built, with the text of the change when it is not empty, and it
    ends as the last child of the last context element only, since
    appending an element moves it; the other context elements are as
    they were, and the verdict is [true]. *)
Theorem element_change_appends
    (md : module) (tree : nat) (inner : string) (ns : namespaces)
    (recurse : nat -> string -> M bool) (name : string) (v : pyval)
    (changed : bool) (es : list nat) (e_last : nat) (h : store) :
  check_mode md = false ->
  dispatch name = BranchElement ->
  PyStr.contains ":" name = false ->
  valid_tag name = true ->
  (forall s, text_given v = Some s -> valid_text s = true) ->
  (forall l, v <> VList l) ->
  let n := length h in
  let h0 := (h ++ [Element name (text_given v) ∅ [] None])%list in
  xpath_eval h0 tree inner ns = inr (XList (ItemElement <$> es)) ->
  last es = Some e_last ->
  (forall e, e ∈ es -> exists r, h !! e = Some r /\ n ∉ children r) ->
  apply_change xpath_eval parse_xml md tree inner ns recurse (name, v) changed h
  = Done true (attached n e_last h0).
Proof. exact (element_change_real md tree inner ns recurse name v changed es e_last h). Qed.


End NewElement.

(** ** Selectors that do not give a node-set *)

Section Selectors.

Context {lx : Accepts}.

Variable xpath_eval : store -> nat -> string -> namespaces -> pyexn + xpath_result.
Variable parse_xml : string -> option fragment.

Lemma is_node_element tree xpath ns (h : store) e l :
  xpath_eval h tree xpath ns = inr (XList (ItemElement e :: l)) ->
  is_node xpath_eval tree xpath ns h = Done true h.
Proof.
  intros E. unfold is_node, xpath_matches, bind, tree_xpath, ret. rewrite E.
  simpl. rewrite E. reflexivity.
Qed.

Lemma is_node_nothing tree xpath ns (h : store) :
  xpath_eval h tree xpath ns = inr (XList []) ->
  is_node xpath_eval tree xpath ns h = Done false h.
Proof.
  intros E. unfold is_node, xpath_matches, bind, tree_xpath, ret. rewrite E.
  reflexivity.
Qed.

Lemma is_node_no_list tree xpath ns (h : store) r :
  xpath_eval h tree xpath ns = inr r -> (forall l, r <> XList l) -> truthy r = true ->
  is_node xpath_eval tree xpath ns h = Raised TypeError h.
Proof.
  intros E Hr Ht. unfold is_node, xpath_matches, bind, tree_xpath, ret. rewrite E, Ht.
  rewrite E. destruct r as [l| |]; [now destruct (Hr l) | reflexivity | reflexivity].
Qed.

(** A selector whose value is a true boolean or a number other than zero
    (a comparison, a [count]) is not accepted as a target: [is_node]
    subscripts the value and raises [TypeError]. The exception leaves
    [ensure_xpath_exists] and [add_target_children] as it is, and
    [set_target_inner] turns it into its failure message; the document is
    not touched. *)
Theorem true_value_is_no_target
    (md : module) (tree : nat) (xpath : string) (ns : namespaces)
    (r : xpath_result) (children : list child) (ty : in_type)
    (attribute : option string) (value : string) (h : store) :
  xpath_eval h tree xpath ns = inr r ->
  (forall l, r <> XList l) ->
  truthy r = true ->
  is_node xpath_eval tree xpath ns h = Raised TypeError h
  /\ ensure_xpath_exists xpath_eval parse_xml md tree xpath ns h = Raised TypeError h
  /\ add_target_children xpath_eval parse_xml md tree xpath ns children ty h
     = Raised TypeError h
  /\ set_target_inner xpath_eval parse_xml md tree xpath ns attribute value h
     = TargetFailJson (XpathCausesFailure xpath TypeError) h.
Proof.
  intros E Hr Ht. pose proof (is_node_no_list tree xpath ns h r E Hr Ht) as Hn.
  split; [exact Hn|]. split; [|split].
  - unfold ensure_xpath_exists, bind. now rewrite Hn.
  - unfold add_target_children, bind. now rewrite Hn.
  - unfold set_target_inner, bind. now rewrite Hn.
Qed.

End Selectors.

(** ** Deleting a target *)

Section Deletion.

Context {lx : Accepts}.

Variable xpath_eval : store -> nat -> string -> namespaces -> pyexn + xpath_result.

(** Whatever goes wrong in [delete_xpath_target] is reported through
    [fail_json] with the selector and the exception, in a dry run as in a
    real one: an error of the evaluator, and a selector whose value is a
    boolean or a number, which cannot be iterated. The document is not
    touched. *)
Theorem delete_reports_failure
    (md : module) (tree : nat) (xpath : string) (ns : namespaces) (h : store) :
  match xpath_eval h tree xpath ns with
  | inl e =>
      delete_xpath_target xpath_eval md tree xpath ns h
      = FailJson (CouldntDelete xpath e) h
  | inr (XList _) => True
  | inr _ =>
      delete_xpath_target xpath_eval md tree xpath ns h
      = FailJson (CouldntDelete xpath TypeError) h
  end.
Proof.
  unfold delete_xpath_target, try_except, bind, tree_xpath.
  destruct (xpath_eval h tree xpath ns) as [e|[l| |]]; first [reflexivity | exact I].
Qed.

(** In a dry run [delete_xpath_target] reports a change for every
    node-set, whatever it holds, and leaves the document as it is. *)
Theorem delete_dry_run_reports_changed
    (md : module) (tree : nat) (xpath : string) (ns : namespaces)
    (l : list item) (h : store) :
  check_mode md = true ->
  xpath_eval h tree xpath ns = inr (XList l) ->
  delete_xpath_target xpath_eval md tree xpath ns h = Done true h.
Proof.
  intros Hmd E.
  unfold delete_xpath_target, try_except, bind at 1 2 3, tree_xpath. rewrite E.
  unfold iter, ret at 1.
  assert (Hloop : for_in l (fun result (_ : unit) =>
                              delete_result xpath_eval md tree xpath ns result) tt h
                  = Done tt h).
  { clear E. induction l as [|x l IH]; [reflexivity|].
    cbn [for_in]. unfold bind at 1, delete_result at 1. rewrite Hmd. exact IH. }
  unfold bind at 1. rewrite Hloop. reflexivity.
Qed.

(** A real run on a selector that matches one element [e] with a parent
    [p]: [e] is taken out of the children of [p] and has no parent
    afterwards; nothing else changes. *)
Theorem delete_removes_element
    (md : module) (tree : nat) (xpath : string) (ns : namespaces)
    (e p : nat) (r rp : element) (h : store) :
  check_mode md = false ->
  xpath_eval h tree xpath ns = inr (XList [ItemElement e]) ->
  h !! e = Some r -> parent r = Some p ->
  h !! p = Some rp -> e ∈ children rp ->
  delete_xpath_target xpath_eval md tree xpath ns h
  = Done true (alter (with_parent None) e (alter (drop_child e) p h)).
Proof.
  intros Hmd E He Hp Hrp Hin.
  unfold delete_xpath_target, try_except, bind at 1 2 3, tree_xpath at 1. rewrite E.
  unfold iter, ret at 1. cbn [for_in].
  unfold bind at 1 2, delete_result. rewrite Hmd. cbn [negb].
  unfold is_attribute, xpath_matches, bind, tree_xpath, ret. rewrite E. simpl.
  rewrite E. simpl.
  unfold is_node, xpath_matches, bind, tree_xpath, ret. rewrite E. simpl. rewrite E.
  simpl. unfold bind, get, ret. rewrite He, Hp. unfold remove, bind, get. rewrite Hrp.
  destruct (decide (e ∈ children rp)) as [_|Hn]; [|now destruct Hn].
  unfold modify, finish, ret. f_equal. f_equal.
  apply list_eq. intros i. destruct (decide (i = p)) as [->|Hi].
  - rewrite !list_lookup_alter_eq, Hrp. reflexivity.
  - now rewrite !list_lookup_alter_ne by congruence.
Qed.

(** A real run on a selector that matches the root element, or any
    element without a parent, fails: [getparent()] is [None] and has no
    [remove]. *)
Theorem delete_root_fails
    (md : module) (tree : nat) (xpath : string) (ns : namespaces)
    (e : nat) (r : element) (l : list item) (h : store) :
  check_mode md = false ->
  xpath_eval h tree xpath ns = inr (XList (ItemElement e :: l)) ->
  h !! e = Some r -> parent r = None ->
  delete_xpath_target xpath_eval md tree xpath ns h
  = FailJson (CouldntDelete xpath AttributeError) h.
Proof.
  intros Hmd E He Hp.
  unfold delete_xpath_target, try_except, bind at 1 2 3, tree_xpath at 1. rewrite E.
  unfold iter, ret at 1. cbn [for_in].
  unfold bind at 1 2, delete_result. rewrite Hmd. cbn [negb].
  unfold is_attribute, xpath_matches, bind, tree_xpath, ret. rewrite E. simpl.
  rewrite E. simpl.
  unfold is_node, xpath_matches, bind, tree_xpath, ret. rewrite E. simpl. rewrite E.
  simpl. unfold bind, get, ret. rewrite He, Hp. reflexivity.
Qed.

(** A real run on a selector that matches one attribute. When the
    value of the attribute is plain ASCII, the match is an
    [_ElementStringResult] and the attribute is popped from the element
    that owns it. Otherwise the match is an [_ElementUnicodeResult],
    which neither [is_attribute] nor [is_node] recognises: nothing is
    removed, and the call still reports a change. Nothing else changes
    in either case. *)
Theorem delete_pops_attribute
    (md : module) (tree : nat) (xpath : string) (ns : namespaces)
    (o : nat) (name value cur : string) (r : element) (h : store) :
  check_mode md = false ->
  xpath_eval h tree xpath ns = inr (XList [ItemAttr o name value]) ->
  h !! o = Some r -> attrib r !! name = Some cur ->
  delete_xpath_target xpath_eval md tree xpath ns h
  = Done true (if PyStr.is_ascii value
               then alter (with_attrib (delete name (attrib r))) o h
               else h).
Proof.
  intros Hmd E Ho Ha.
  unfold delete_xpath_target, try_except, bind at 1 2 3, tree_xpath at 1. rewrite E.
  unfold iter, ret at 1. cbn [for_in].
  unfold bind at 1 2, delete_result. rewrite Hmd. cbn [negb].
  unfold is_attribute, xpath_matches, bind, tree_xpath, ret. rewrite E. simpl.
  rewrite E. simpl. destruct (PyStr.is_ascii value).
  - unfold attrib_pop, bind, get. rewrite Ho, Ha. reflexivity.
  - unfold is_node, xpath_matches, bind, tree_xpath, ret. rewrite E. simpl.
    rewrite E. reflexivity.
Qed.

End Deletion.

(** ** Names with a prefix *)

Section ClarkNames.

Context {lx : Accepts}.

Lemma split_go_colon cur pre s :
  PyStr.contains ":" pre = false ->
  PyStr.split_go ":" 0 cur (pre +:+ ":" +:+ s)
  = (cur +:+ pre) :: PyStr.split_go ":" 0 EmptyString s.
Proof.
  revert cur. induction pre as [|c pre IH]; intros cur H.
  - rewrite app_nil_l, app_empty_r. reflexivity.
  - simpl in H. apply orb_false_elim in H as [Hc Hpre].
    rewrite app_cons. cbn [PyStr.split_go PyStr.drop_prefix].
    rewrite Ascii.eqb_sym, Hc. rewrite IH by exact Hpre. f_equal.
    unfold PyStr.snoc. now rewrite app_assoc_s.
Qed.

Lemma split_go_plain cur s :
  PyStr.contains ":" s = false -> PyStr.split_go ":" 0 cur s = [cur +:+ s].
Proof.
  revert cur. induction s as [|c s IH]; intros cur H.
  - now rewrite app_empty_r.
  - simpl in H. apply orb_false_elim in H as [Hc Hs].
    cbn [PyStr.split_go PyStr.drop_prefix]. rewrite Ascii.eqb_sym, Hc.
    rewrite IH by exact Hs. unfold PyStr.snoc. now rewrite app_assoc_s.
Qed.

Lemma split_go_some sep skip cur s : PyStr.split_go sep skip cur s <> [].
Proof.
  revert skip cur. induction s as [|c s IH]; intros skip cur; [discriminate|].
  cbn [PyStr.split_go]. destruct skip; [|apply IH].
  destruct (PyStr.drop_prefix sep (String c s)); [discriminate | apply IH].
Qed.

Lemma contains_colon pre s : PyStr.contains ":" (pre +:+ ":" +:+ s) = true.
Proof.
  induction pre as [|c pre IH].
  - reflexivity.
  - rewrite app_cons. simpl. rewrite IH. apply orb_true_r.
Qed.

(** [nsnameToClark] on a name with one colon: the prefix is looked up in
    the namespaces and the name is returned in Clark notation,
    [{uri}rawname]; a prefix that is not declared raises [KeyError]. *)
Theorem nsnameToClark_resolves (pre raw : string) (ns : namespaces) (h : store) :
  PyStr.contains ":" pre = false ->
  PyStr.contains ":" raw = false ->
  nsnameToClark (pre +:+ ":" +:+ raw) ns h
  = match ns !! pre with
    | Some uri => Done ("{" +:+ uri +:+ "}" +:+ raw) h
    | None => Raised KeyError h
    end.
Proof.
  intros Hpre Hraw. unfold nsnameToClark. rewrite contains_colon.
  unfold PyStr.split. rewrite (split_go_colon _ _ _ Hpre), (split_go_plain _ _ Hraw).
  rewrite !app_nil_l. destruct (ns !! pre); reflexivity.
Qed.

(** A name with more than one colon cannot be unpacked into prefix and
    raw name: [nsnameToClark] raises [ValueError], whatever the
    namespaces. *)
Theorem nsnameToClark_two_colons (a b c : string) (ns : namespaces) (h : store) :
  PyStr.contains ":" a = false ->
  PyStr.contains ":" b = false ->
  nsnameToClark (a +:+ ":" +:+ b +:+ ":" +:+ c) ns h = Raised ValueError h.
Proof.
  intros Ha Hb. unfold nsnameToClark. rewrite contains_colon.
  unfold PyStr.split. rewrite (split_go_colon _ _ _ Ha), (split_go_colon _ _ _ Hb).
  pose proof (split_go_some ":" 0 EmptyString c) as Hc.
  destruct (PyStr.split_go ":" 0 EmptyString c); [now destruct Hc | reflexivity].
Qed.

End ClarkNames.

(** ** Setting a value on a target *)

Section SetTarget.

Context {lx : Accepts}.

Variable xpath_eval : store -> nat -> string -> namespaces -> pyexn + xpath_result.
Variable parse_xml : string -> option fragment.

(** A loop over elements of the store whose body refreshes its element
    and adds the test to the verdict; the state carries a value [t] that
    the body leaves alone. *)
Lemma refresh_loop {T} (body : item -> bool * T -> M (bool * T)) (t : T)
    (test : element -> bool) (g : element -> element) es :
  (forall e r (h : store) acc,
      h !! e = Some r ->
      body (ItemElement e) (acc, t) h
      = Done (acc || test r, t) (alter (refresh test g) e h)) ->
  (forall r, refresh test g (refresh test g r) = refresh test g r) ->
  forall (h : store) acc,
    (forall e, e ∈ es -> is_Some (h !! e)) ->
    exists h' : store,
      for_in (ItemElement <$> es) body (acc, t) h
      = Done (acc || some_element test h es, t) h'
      /\ forall x, h' !! x = if decide (x ∈ es) then refresh test g <$> h !! x
                             else h !! x.
Proof.
  intros Hbody Hidem. induction es as [|e es IH]; intros h acc Hex.
  - exists h. simpl. unfold ret. rewrite orb_false_r. split; [reflexivity|].
    intros x. destruct (decide (x ∈ [])) as [Hx|]; [now apply elem_of_nil in Hx|reflexivity].
  - destruct (Hex e) as [r Hr]; [left|].
    set (h1 := alter (refresh test g) e h).
    destruct (IH h1 (acc || test r)) as (h' & Hrun & Hpost).
    { intros x Hx. unfold h1. destruct (decide (e = x)) as [->|Hne].
      - rewrite list_lookup_alter_eq, Hr. eauto.
      - rewrite list_lookup_alter_ne by assumption. apply Hex. now right. }
    exists h'. split.
    + cbn [fmap list_fmap for_in]. unfold bind at 1.
      rewrite (Hbody e r h acc Hr). fold h1. rewrite Hrun. f_equal. f_equal.
      unfold some_element at 2. simpl. rewrite Hr. simpl. fold (some_element test h es).
      destruct (test r) eqn:Et.
      * now rewrite !orb_true_r.
      * rewrite !orb_false_r. f_equal. apply some_element_same. intros x.
        unfold h1. destruct (decide (e = x)) as [->|Hne].
        -- rewrite list_lookup_alter_eq, Hr. simpl. unfold refresh. now rewrite Et.
        -- now rewrite list_lookup_alter_ne.
    + intros x. rewrite Hpost. unfold h1.
      destruct (decide (e = x)) as [->|Hne].
      * rewrite list_lookup_alter_eq, Hr. simpl.
        destruct (decide (x ∈ es)), (decide (x ∈ x :: es)) as [|Hn];
          try reflexivity; try (now rewrite Hidem).
        -- destruct Hn. left.
        -- destruct Hn. left.
      * rewrite list_lookup_alter_ne by assumption.
        destruct (decide (x ∈ es)) as [Hin|Hin], (decide (x ∈ e :: es)) as [Hin'|Hin'];
          try reflexivity.
        -- destruct Hin'. now right.
        -- apply elem_of_cons in Hin' as [->|]; contradiction.
Qed.

Lemma refresh_written md test f r :
  refresh test (written md f) r = if check_mode md then r else refresh test f r.
Proof. unfold refresh, written. destruct (check_mode md), (test r); reflexivity. Qed.

Lemma written_loop {T} (body : item -> bool * T -> M (bool * T)) (t : T)
    md test f es (h : store) acc :
  (forall e r (h : store) acc,
      h !! e = Some r ->
      body (ItemElement e) (acc, t) h
      = Done (acc || test r, t) (alter (refresh test (written md f)) e h)) ->
  (forall r, refresh test f (refresh test f r) = refresh test f r) ->
  (forall e, e ∈ es -> is_Some (h !! e)) ->
  exists h' : store,
    for_in (ItemElement <$> es) body (acc, t) h
    = Done (acc || some_element test h es, t) h'
    /\ if check_mode md then h' = h
       else forall x, h' !! x = if decide (x ∈ es) then refresh test f <$> h !! x
                                else h !! x.
Proof.
  intros Hbody Hidem Hex.
  destruct (refresh_loop body t test (written md f) es Hbody) with (h := h) (acc := acc)
    as (h' & Hrun & Hpost); [|exact Hex|].
  { intros r. rewrite !refresh_written. destruct (check_mode md); [reflexivity|apply Hidem]. }
  exists h'. split; [exact Hrun|].
  destruct (check_mode md) eqn:Hmd.
  - apply list_eq. intros x. rewrite Hpost.
    destruct (decide (x ∈ es)); [|reflexivity].
    destruct (h !! x) as [r|]; [|reflexivity]. simpl.
    now rewrite refresh_written, Hmd.
  - intros x. rewrite Hpost. destruct (decide (x ∈ es)); [|reflexivity].
    destruct (h !! x) as [r|]; [|reflexivity]. simpl.
    now rewrite refresh_written, Hmd.
Qed.

Lemma alter_written md test f e (h : store) r :
  h !! e = Some r ->
  (if negb (check_mode md) && test r then alter f e h else h)
  = alter (refresh test (written md f)) e h.
Proof.
  intros Hr. destruct (check_mode md) eqn:Hmd; simpl.
  - symmetry. apply list_alter_id. intros x. now rewrite refresh_written, Hmd.
  - rewrite (alter_refresh test f e h r Hr). apply list_alter_ext; [|reflexivity].
    intros x _. now rewrite refresh_written, Hmd.
Qed.

Lemma set_target_text_body md ns value attribute e r (h : store) acc :
  given attribute = false ->
  (check_mode md = false -> valid_text value = true) ->
  h !! e = Some r ->
  set_target_element md ns value (ItemElement e) (acc, attribute) h
  = Done (acc || differs (text r) value, attribute)
      (alter (refresh (fun r => differs (text r) value)
                (written md (with_text (Some value)))) e h).
Proof.
  intros Hg Hok Hr.
  rewrite <- (alter_written md (fun r => differs (text r) value) _ e h r Hr).
  unfold set_target_element. rewrite Hg. cbn [negb].
  unfold text_of, set_text, bind, as_element, get, ret, modify.
  destruct (check_mode md) eqn:Hmd.
  - destruct acc, (differs (text r) value) eqn:Hd; simpl;
      rewrite ?Hr; simpl; rewrite ?Hd; reflexivity.
  - rewrite (Hok eq_refl).
    destruct acc, (differs (text r) value) eqn:Hd; simpl;
      rewrite ?Hr; simpl; rewrite ?Hd; reflexivity.
Qed.

Lemma set_target_attribute_body md ns value a e r (h : store) acc :
  nonempty a = true -> PyStr.contains ":" a = false ->
  valid_key a = true ->
  (check_mode md = false -> valid_attribute a = true /\ valid_value value = true) ->
  h !! e = Some r ->
  set_target_element md ns value (ItemElement e) (acc, Some a) h
  = Done (acc || differs (attrib r !! a) value, Some a)
      (alter (refresh (fun r => differs (attrib r !! a) value)
                (written md (set_attrib a value))) e h).
Proof.
  intros Hg Hc Hkey Hok Hr.
  rewrite <- (alter_written md (fun r => differs (attrib r !! a) value) _ e h r Hr).
  unfold set_target_element, given. rewrite Hg. cbn [negb].
  change (default EmptyString (Some a)) with a. rewrite Hc.
  unfold get_of, get_attribute, set_attribute, bind, as_element, get, ret, modify.
  rewrite Hkey. destruct (check_mode md) eqn:Hmd.
  - destruct acc, (differs (attrib r !! a) value) eqn:Hd; simpl;
      rewrite ?Hr; simpl; rewrite ?Hd; reflexivity.
  - destruct (Hok eq_refl) as [-> ->].
    destruct acc, (differs (attrib r !! a) value) eqn:Hd; simpl;
      rewrite ?Hr; simpl; rewrite ?Hd; reflexivity.
Qed.

(** [set_target_inner] on a target that exists, up to its loop. *)
Lemma set_target_existing md tree xpath ns attribute value e0 l (h : store) :
  xpath_eval h tree xpath ns = inr (XList (ItemElement e0 :: l)) ->
  set_target_inner xpath_eval parse_xml md tree xpath ns attribute value h
  = Engine ((let* st := for_in (ItemElement e0 :: l) (set_target_element md ns value)
                          (false, attribute) in
             ret (fst st)) h).
Proof.
  intros E. unfold set_target_inner.
  rewrite (bind_done _ _ _ _ _ (is_node_element xpath_eval tree xpath ns h e0 l E)).
  cbn [negb]. unfold ret at 1.
  rewrite (is_node_element xpath_eval tree xpath ns h e0 l E).
  f_equal. unfold bind at 1, tree_xpath at 1. rewrite E. reflexivity.
Qed.

(** [set_target] without an attribute, on a selector that matches the
    elements [es]: the verdict says whether one of them had another
    text; a real run, with a text that lxml accepts, leaves every one of
    them with the text [value] and a dry run leaves the document as it
    is. *)
Theorem set_target_sets_text
    (md : module) (tree : nat) (xpath : string) (ns : namespaces)
    (attribute : option string) (value : string) (es : list nat) (h : store) :
  given attribute = false ->
  (check_mode md = false -> valid_text value = true) ->
  xpath_eval h tree xpath ns = inr (XList (ItemElement <$> es)) ->
  es <> [] ->
  (forall e, e ∈ es -> is_Some (h !! e)) ->
  exists h' : store,
    set_target xpath_eval parse_xml md tree xpath ns attribute value h
    = Engine (Done (some_element (fun r => differs (text r) value) h es) h')
    /\ if check_mode md then h' = h
       else each_updated (with_text (Some value)) es h h'.
Proof.
  intros Hg Hok E Hne Hex.
  set (test := fun r : element => differs (text r) value).
  assert (Hidem : forall r, refresh test (with_text (Some value))
                              (refresh test (with_text (Some value)) r)
                            = refresh test (with_text (Some value)) r).
  { intros r. unfold refresh, test. destruct r as [t [x|] a c p]; simpl.
    - destruct (String.eqb x value) eqn:Ex; simpl; rewrite ?Ex, ?String.eqb_refl;
        reflexivity.
    - now rewrite String.eqb_refl. }
  destruct (written_loop (set_target_element md ns value) attribute md test
              (with_text (Some value)) es h false
              (fun e r h0 acc Hr =>
                 set_target_text_body md ns value attribute e r h0 acc Hg Hok Hr)
              Hidem Hex)
    as (h' & Hrun & Hpost).
  exists h'. split.
  - destruct es as [|e0 l]; [now destruct Hne|].
    unfold set_target.
    rewrite (set_target_existing md tree xpath ns attribute value e0 (list_fmap _ _ ItemElement l) h E).
    f_equal. unfold bind at 1.
    change (ItemElement e0 :: list_fmap _ _ ItemElement l) with (ItemElement <$> e0 :: l).
    rewrite Hrun. reflexivity.
  - destruct (check_mode md); [exact Hpost|].
    apply (each_updated_refresh test (with_text (Some value))); [|exact Hpost].
    intros r. unfold refresh, test. destruct r as [t [x|] a c p]; simpl; try reflexivity.
    destruct (String.eqb_spec x value) as [->|]; reflexivity.
Qed.

(** [set_target] with a plain attribute name that lxml can look up, on a
    selector that matches the elements [es]: the verdict says whether
    one of them had no such attribute or another value, in a dry run
    too; a real run, with a name and a value that lxml accepts, leaves
    every one of them with the attribute set to [value] and a dry run
    leaves the document as it is. *)
Theorem set_target_sets_attribute
    (md : module) (tree : nat) (xpath : string) (ns : namespaces)
    (a value : string) (es : list nat) (h : store) :
  nonempty a = true ->
  PyStr.contains ":" a = false ->
  valid_key a = true ->
  (check_mode md = false -> valid_attribute a = true /\ valid_value value = true) ->
  xpath_eval h tree xpath ns = inr (XList (ItemElement <$> es)) ->
  es <> [] ->
  (forall e, e ∈ es -> is_Some (h !! e)) ->
  exists h' : store,
    set_target xpath_eval parse_xml md tree xpath ns (Some a) value h
    = Engine (Done (some_element (fun r => differs (attrib r !! a) value) h es) h')
    /\ if check_mode md then h' = h
       else each_updated (set_attrib a value) es h h'.
Proof.
  intros Hg Hc Hkey Hok E Hne Hex.
  set (test := fun r : element => differs (attrib r !! a) value).
  assert (Hidem : forall r, refresh test (set_attrib a value)
                              (refresh test (set_attrib a value) r)
                            = refresh test (set_attrib a value) r).
  { intros r. unfold refresh, test, set_attrib. destruct r as [t x m c p]; simpl.
    destruct (m !! a) as [cur|] eqn:Ea; simpl.
    - destruct (String.eqb cur value) eqn:Ex; simpl;
        rewrite ?Ea, ?lookup_insert_eq; simpl; rewrite ?Ex, ?String.eqb_refl;
        reflexivity.
    - rewrite lookup_insert_eq. simpl. now rewrite String.eqb_refl. }
  destruct (written_loop (set_target_element md ns value) (Some a) md test
              (set_attrib a value) es h false
              (fun e r h0 acc Hr =>
                 set_target_attribute_body md ns value a e r h0 acc Hg Hc Hkey Hok Hr)
              Hidem Hex)
    as (h' & Hrun & Hpost).
  exists h'. split.
  - destruct es as [|e0 l]; [now destruct Hne|].
    unfold set_target.
    rewrite (set_target_existing md tree xpath ns (Some a) value e0 (list_fmap _ _ ItemElement l) h E).
    f_equal. unfold bind at 1.
    change (ItemElement e0 :: list_fmap _ _ ItemElement l) with (ItemElement <$> e0 :: l).
    rewrite Hrun. reflexivity.
  - destruct (check_mode md); [exact Hpost|].
    apply (each_updated_refresh test (set_attrib a value)); [|exact Hpost].
    intros r. unfold refresh, test, set_attrib. destruct r as [t x m c p]; simpl.
    destruct (m !! a) as [cur|] eqn:Ea; simpl; [|reflexivity].
    destruct (String.eqb_spec cur value) as [->|]; simpl; [|reflexivity].
    unfold with_attrib. simpl. f_equal. symmetry. now apply insert_id.
Qed.

End SetTarget.

(** ** A target whose last element is missing *)

Section MissingElement.

Context {lx : Accepts}.

Variable xpath_eval : store -> nat -> string -> namespaces -> pyexn + xpath_result.
Variable parse_xml : string -> option fragment.

Lemma bind_ret {A} (m : M A) (h : store) : bind m (fun a => ret a) h = m h.
Proof. unfold bind, ret. now destruct (m h). Qed.

(** [check_or_make_target] when the prefix of the selector is there:
    there is no nested call on the prefix, and the one change is
    applied. *)
Lemma check_or_make_target_rec_one_level k md tree xpath ns inner change e0 l (h : store) :
  split_xpath_last xpath = (inner, [change]) ->
  inner <> xpath ->
  xpath_eval h tree inner ns = inr (XList (ItemElement e0 :: l)) ->
  check_or_make_target_rec xpath_eval parse_xml (S k) md tree xpath ns h
  = apply_change xpath_eval parse_xml md tree inner ns
      (fun nk sub => check_or_make_target_rec xpath_eval parse_xml k md nk sub ns)
      change false h.
Proof.
  intros Hs Hne E. cbn [check_or_make_target_rec].
  rewrite Hs. destruct (String.eqb_spec inner xpath) as [|_]; [contradiction|].
  rewrite (bind_done _ _ _ _ _ (is_node_element xpath_eval tree inner ns h e0 l E)).
  cbn [negb]. unfold bind at 1, ret at 1.
  rewrite (bind_done _ _ _ _ _ (is_node_element xpath_eval tree inner ns h e0 l E)).
  cbn [andb for_in]. apply bind_ret.
Qed.

Lemma check_or_make_target_one_level md tree xpath ns inner change e0 l (h : store) :
  split_xpath_last xpath = (inner, [change]) ->
  inner <> xpath ->
  xpath_eval h tree inner ns = inr (XList (ItemElement e0 :: l)) ->
  check_or_make_target xpath_eval parse_xml md tree xpath ns h
  = apply_change xpath_eval parse_xml md tree inner ns
      (fun nk sub =>
         check_or_make_target_rec xpath_eval parse_xml (String.length xpath) md nk sub ns)
      change false h.
Proof. apply check_or_make_target_rec_one_level. Qed.

(** [ensure_xpath_exists] in a real run, on a selector that matches
    nothing and whose last step is a plain element name that lxml
    accepts, while the prefix matches the elements [es]: one element is
    built and ends as the last child of the last element of [es]; the
    verdict is [true]. *)
Theorem ensure_creates_element
    (md : module) (tree : nat) (xpath inner name : string) (v : pyval)
    (ns : namespaces) (es : list nat) (e_last : nat) (h : store) :
  check_mode md = false ->
  split_xpath_last xpath = (inner, [(name, v)]) ->
  inner <> xpath ->
  dispatch name = BranchElement ->
  PyStr.contains ":" name = false ->
  valid_tag name = true ->
  (forall s, text_given v = Some s -> valid_text s = true) ->
  (forall l, v <> VList l) ->
  let n := length h in
  let h0 := (h ++ [Element name (text_given v) ∅ [] None])%list in
  xpath_eval h tree xpath ns = inr (XList []) ->
  xpath_eval h tree inner ns = inr (XList (ItemElement <$> es)) ->
  xpath_eval h0 tree inner ns = inr (XList (ItemElement <$> es)) ->
  last es = Some e_last ->
  (forall e, e ∈ es -> exists r, h !! e = Some r /\ n ∉ children r) ->
  ensure_xpath_exists xpath_eval parse_xml md tree xpath ns h
  = Done true (attached n e_last h0).
Proof.
  intros Hmd Hs Hne Hd Hname Htag Htext Hv n h0 Ex Ei Ei0 Hlast Hes.
  unfold ensure_xpath_exists.
  rewrite (bind_done _ _ _ _ _ (is_node_nothing xpath_eval tree xpath ns h Ex)).
  cbn [negb]. destruct es as [|e0 l]; [discriminate Hlast|].
  unfold bind at 1.
  rewrite (check_or_make_target_one_level md tree xpath ns inner (name, v) e0
             (list_fmap _ _ ItemElement l) h Hs Hne Ei).
  rewrite (element_change_real xpath_eval parse_xml md tree inner ns _ name v false
             (e0 :: l) e_last h Hmd Hd Hname Htag Htext Hv Ei0 Hlast Hes).
  reflexivity.
Qed.

(** The same selector in a dry run. [ensure_xpath_exists] reports a
    change and attaches nothing: the element it built stays outside the
    document. [set_target] then fails, for any attribute and value: after
    [check_or_make_target] the selector still matches nothing, which is
    reported as a selector that does not reference a node. *)
Theorem dry_run_missing_element
    (md : module) (tree : nat) (xpath inner name : string) (v : pyval)
    (ns : namespaces) (es : list nat) (attribute : option string) (value : string)
    (h : store) :
  check_mode md = true ->
  split_xpath_last xpath = (inner, [(name, v)]) ->
  inner <> xpath ->
  dispatch name = BranchElement ->
  PyStr.contains ":" name = false ->
  valid_tag name = true ->
  (forall s, text_given v = Some s -> valid_text s = true) ->
  (forall l, v <> VList l) ->
  es <> [] ->
  let h0 := (h ++ [Element name (text_given v) ∅ [] None])%list in
  xpath_eval h tree xpath ns = inr (XList []) ->
  xpath_eval h tree inner ns = inr (XList (ItemElement <$> es)) ->
  xpath_eval h0 tree inner ns = inr (XList (ItemElement <$> es)) ->
  xpath_eval h0 tree xpath ns = inr (XList []) ->
  ensure_xpath_exists xpath_eval parse_xml md tree xpath ns h = Done true h0
  /\ set_target xpath_eval parse_xml md tree xpath ns attribute value h
     = TargetFailJson (NotANode xpath) h0.
Proof.
  intros Hmd Hs Hne Hd Hname Htag Htext Hv Hes h0 Ex Ei Ei0 Ex0.
  destruct es as [|e0 l]; [now destruct Hes|].
  assert (Hmake : check_or_make_target xpath_eval parse_xml md tree xpath ns h
                  = Done true h0).
  { rewrite (check_or_make_target_one_level md tree xpath ns inner (name, v) e0
               (list_fmap _ _ ItemElement l) h Hs Hne Ei).
    exact (element_change_dry xpath_eval parse_xml md tree inner ns _ name v false
             (ItemElement <$> e0 :: l) h Hmd Hd Hname Htag Htext Hv Ei0). }
  split.
  - unfold ensure_xpath_exists.
    rewrite (bind_done _ _ _ _ _ (is_node_nothing xpath_eval tree xpath ns h Ex)).
    cbn [negb]. unfold bind at 1. rewrite Hmake. reflexivity.
  - unfold set_target, set_target_inner.
    rewrite (bind_done _ _ _ _ _ (is_node_nothing xpath_eval tree xpath ns h Ex)).
    cbn [negb]. rewrite Hmake.
    rewrite (is_node_nothing xpath_eval tree xpath ns h0 Ex0). reflexivity.
Qed.

(** [set_target] without an attribute in a real run, on a selector that
    matches nothing and whose last step is a plain element name without a
    text, for a name and a text that lxml accepts: the element is built
    under the last element of [es] and, once the selector matches it,
    gets the text [value]; the verdict is [true]. *)
Theorem set_target_creates_element
    (md : module) (tree : nat) (xpath inner name : string)
    (ns : namespaces) (es : list nat) (e_last : nat)
    (attribute : option string) (value : string) (h : store) :
  check_mode md = false ->
  given attribute = false ->
  split_xpath_last xpath = (inner, [(name, VNone)]) ->
  inner <> xpath ->
  dispatch name = BranchElement ->
  PyStr.contains ":" name = false ->
  valid_tag name = true ->
  valid_text value = true ->
  let n := length h in
  let h0 := (h ++ [Element name None ∅ [] None])%list in
  let h1 := attached n e_last h0 in
  xpath_eval h tree xpath ns = inr (XList []) ->
  xpath_eval h tree inner ns = inr (XList (ItemElement <$> es)) ->
  xpath_eval h0 tree inner ns = inr (XList (ItemElement <$> es)) ->
  xpath_eval h1 tree xpath ns = inr (XList [ItemElement n]) ->
  last es = Some e_last ->
  (forall e, e ∈ es -> exists r, h !! e = Some r /\ n ∉ children r) ->
  set_target xpath_eval parse_xml md tree xpath ns attribute value h
  = Engine (Done true (alter (with_text (Some value)) n h1)).
Proof.
  intros Hmd Hg Hs Hne Hd Hname Htag Hval n h0 h1 Ex Ei Ei0 Ex1 Hlast Hes.
  assert (Hv : forall l, VNone <> VList l) by discriminate.
  assert (Htext : forall s, text_given VNone = Some s -> valid_text s = true)
    by discriminate.
  destruct es as [|e0 l] eqn:Ees; [discriminate Hlast|]. rewrite <- Ees in *.
  assert (Hmake : check_or_make_target xpath_eval parse_xml md tree xpath ns h
                  = Done true h1).
  { rewrite Ees in Ei.
    rewrite (check_or_make_target_one_level md tree xpath ns inner (name, VNone) e0
               (list_fmap _ _ ItemElement l) h Hs Hne Ei).
    exact (element_change_real xpath_eval parse_xml md tree inner ns _ name VNone false
             es e_last h Hmd Hd Hname Htag Htext Hv Ei0 Hlast Hes). }
  unfold set_target, set_target_inner.
  rewrite (bind_done _ _ _ _ _ (is_node_nothing xpath_eval tree xpath ns h Ex)).
  cbn [negb]. rewrite Hmake.
  rewrite (is_node_element xpath_eval tree xpath ns h1 n [] Ex1). f_equal.
  unfold bind at 1, tree_xpath at 1. rewrite Ex1.
  unfold bind at 1, iter, ret at 1. cbn [for_in].
  assert (Hn : h1 !! n = Some (Element name None ∅ [] (Some e_last))).
  { unfold h1, attached, h0, n.
    destruct (Hes e_last) as (r & Hr & _).
    { apply last_Some in Hlast as [l' ->]. apply elem_of_app. right. left. }
    apply lookup_lt_Some in Hr.
    rewrite list_lookup_alter_eq, list_lookup_alter_ne by lia.
    now rewrite lookup_app_r, Nat.sub_diag by lia. }
  unfold set_target_element. rewrite Hg, Hmd. cbn [negb].
  unfold text_of, set_text, bind, as_element, get, ret, modify.
  rewrite Hn, Hval. reflexivity.
Qed.

(** [ensure_xpath_exists] in a real run on a selector whose last step is
    an attribute name without a value, for a name that lxml accepts,
    while the prefix matches the elements [es]. Whether the attribute is
    missing or is there, the selector does not count as a node, so the
    attribute branch runs: every element of [es] ends with the attribute
    set to the empty string, a value it had is lost, and the verdict is
    [true] on every run. *)
Theorem ensure_attribute_resets
    (md : module) (tree : nat) (xpath inner name : string)
    (ns : namespaces) (l : list item) (es : list nat) (h : store) :
  check_mode md = false ->
  split_xpath_last xpath = (inner, [("@" +:+ name, VNone)]) ->
  inner <> xpath ->
  PyStr.contains ":" name = false ->
  valid_key name = true ->
  valid_attribute name = true ->
  valid_value EmptyString = true ->
  xpath_eval h tree xpath ns = inr (XList l) ->
  element_first l = false ->
  xpath_eval h tree inner ns = inr (XList (ItemElement <$> es)) ->
  es <> [] ->
  (forall e, e ∈ es -> is_Some (h !! e)) ->
  exists h' : store,
    ensure_xpath_exists xpath_eval parse_xml md tree xpath ns h = Done true h'
    /\ each_updated (set_attrib name EmptyString) es h h'.
Proof.
  intros Hmd Hs Hne Hname Hkey Hattr Hval Ex Hl Ei Hes Hex.
  destruct (attribute_reset_loop md name es h false Hmd Hkey Hattr Hval Hex)
    as (h' & Hrun & Hpost).
  exists h'. split; [|exact Hpost].
  assert (Hn : is_node xpath_eval tree xpath ns h = Done false h).
  { unfold is_node, xpath_matches, bind, tree_xpath, ret. rewrite Ex.
    destruct l as [|[e| |] l]; try reflexivity; try discriminate Hl;
      simpl; rewrite Ex; reflexivity. }
  unfold ensure_xpath_exists. rewrite (bind_done _ _ _ _ _ Hn). cbn [negb].
  destruct es as [|e0 es']; [now destruct Hes|].
  unfold bind at 1.
  rewrite (check_or_make_target_one_level md tree xpath ns inner _ e0
             (list_fmap _ _ ItemElement es') h Hs Hne Ei).
  unfold apply_change. change (dispatch ("@" +:+ name)) with BranchAttribute. cbv iota.
  change (PyStr.slice_1 ("@" +:+ name)) with name.
  rewrite (nsnameToClark_plain name ns Hname).
  unfold bind at 1, ret at 1. unfold bind at 1, tree_xpath at 1. rewrite Ei.
  unfold bind at 1, iter, ret at 1.
  match goal with
  | |- match ?m h with _ => _ end = _ =>
      replace (m h) with (Done (A := bool) true h') by (symmetry; exact Hrun)
  end.
  reflexivity.
Qed.

(** [ensure_xpath_exists] in a real run on a selector that matches
    nothing and ends with an element name and one predicate, such as
    [/a/b[@x='1']], with names and a value that lxml accepts, while the
    prefix matches one element [e]: an element is built as last child of
    [e], and the nested call on the new element with [./] and the
    predicate gives it the attribute of the predicate; the verdict is
    [true]. *)
Theorem ensure_creates_subscripted
    (md : module) (tree : nat) (xpath inner name sub a v : string)
    (ns : namespaces) (e : nat) (r : element) (h : store) :
  check_mode md = false ->
  split_xpath_last xpath = (inner, [("/" +:+ name, VList [sub])]) ->
  inner <> xpath ->
  PyStr.contains ":" name = false ->
  valid_tag name = true ->
  split_xpath_last ("./" +:+ sub) = (".", [("@" +:+ a, VStr v)]) ->
  PyStr.contains ":" a = false ->
  valid_key a = true ->
  valid_attribute a = true ->
  valid_value v = true ->
  let n := length h in
  let h0 := (h ++ [Element name None ∅ [] None])%list in
  let h1 := attached n e h0 in
  xpath_eval h tree xpath ns = inr (XList []) ->
  xpath_eval h tree inner ns = inr (XList [ItemElement e]) ->
  xpath_eval h0 tree inner ns = inr (XList [ItemElement e]) ->
  xpath_eval h1 n "." ns = inr (XList [ItemElement n]) ->
  h !! e = Some r ->
  ensure_xpath_exists xpath_eval parse_xml md tree xpath ns h
  = Done true (alter (set_attrib a v) n h1).
Proof.
  intros Hmd Hs Hne Hname Htag Hsub Ha Hkey Hattr Hval n h0 h1 Ex Ei Ei0 Edot Hr.
  assert (He : e < length h) by now apply lookup_lt_Some in Hr.
  assert (Hlen : exists k, String.length xpath = S k).
  { destruct xpath as [|c x]; [discriminate Hs | now exists (String.length x)]. }
  destruct Hlen as [k Hk].
  assert (Hn0 : h0 !! n = Some (Element name None ∅ [] None)).
  { unfold h0, n. now rewrite lookup_app_r, Nat.sub_diag by lia. }
  assert (Hn1 : h1 !! n = Some (Element name None ∅ [] (Some e))).
  { unfold h1, attached. rewrite list_lookup_alter_eq.
    rewrite list_lookup_alter_ne by (unfold n; lia). now rewrite Hn0. }
  assert (Hnested : check_or_make_target_rec xpath_eval parse_xml (S k) md n
                      ("./" +:+ sub) ns h1
                    = Done true (alter (set_attrib a v) n h1)).
  { rewrite (check_or_make_target_rec_one_level k md n ("./" +:+ sub) ns "." _ n [] h1
               Hsub ltac:(discriminate) Edot).
    unfold apply_change. change (dispatch ("@" +:+ a)) with BranchAttribute. cbv iota.
    change (PyStr.slice_1 ("@" +:+ a)) with a.
    rewrite (nsnameToClark_plain a ns Ha).
    unfold bind at 1, ret at 1. unfold bind at 1, tree_xpath at 1. rewrite Edot.
    unfold bind at 1, iter, ret at 1. cbn [for_in]. rewrite Hmd.
    unfold get_attribute, set_attribute, bind, as_element, get, ret, modify.
    rewrite Hkey, Hattr, Hval, Hn1. reflexivity. }
  unfold ensure_xpath_exists.
  rewrite (bind_done _ _ _ _ _ (is_node_nothing xpath_eval tree xpath ns h Ex)).
  cbn [negb]. unfold bind at 1.
  rewrite (check_or_make_target_one_level md tree xpath ns inner _ e [] h Hs Hne Ei).
  rewrite Hk. unfold apply_change.
  change (dispatch ("/" +:+ name)) with BranchSubscript. cbv iota.
  change (PyStr.slice_1 ("/" +:+ name)) with name.
  rewrite (nsnameToClark_plain name ns Hname).
  unfold bind at 1, ret at 1.
  rewrite (bind_done _ _ _ _ _ (new_kid_built parse_xml md name h Htag)).
  fold n h0.
  unfold bind at 1, tree_xpath at 1. rewrite Ei0.
  unfold bind at 1, iter, ret at 1. cbn [for_in].
  unfold bind at 1. rewrite Hmd. cbn [negb when].
  assert (Hext : (let* e' := as_element (ItemElement e) in extend e' [n]) h0
                 = Done tt h1).
  { unfold bind at 1, as_element, ret at 1. unfold extend. cbn [for_in].
    rewrite (bind_done _ _ _ _ _ (attach_first n e h0 _ Hn0 eq_refl)). reflexivity. }
  rewrite (bind_done _ _ _ _ _ Hext).
  match goal with
  | |- match match ?m h1 with _ => _ end with _ => _ end = _ =>
      assert (Hin : m h1 = Done true (alter (set_attrib a v) n h1))
  end.
  { unfold iter_value. unfold bind at 1 2 3, ret at 1. cbn [for_in].
    unfold bind at 1 2. rewrite Hnested. reflexivity. }
  rewrite Hin. reflexivity.
Qed.

End MissingElement.

(** ** Adding children *)

Section AddChildren.

Context {lx : Accepts}.

Variable xpath_eval : store -> nat -> string -> namespaces -> pyexn + xpath_result.
Variable parse_xml : string -> option fragment.

Lemma alter_last (f : element -> element) (h : store) x :
  alter f (length h) (h ++ [x])%list = (h ++ [f x])%list.
Proof.
  apply list_eq. intros i. destruct (decide (i = length h)) as [->|Hi].
  - rewrite list_lookup_alter_eq, !lookup_app_r, Nat.sub_diag by lia. reflexivity.
  - rewrite list_lookup_alter_ne by congruence.
    destruct (decide (i < length h)).
    + now rewrite !lookup_app_l by lia.
    + rewrite !lookup_app_r by lia.
      destruct (i - length h) as [|k] eqn:Ek; [lia | reflexivity].
Qed.

Lemma leaf_built md c new (h : store) :
  leaf c = Some new ->
  child_to_element_typed parse_xml md c InYaml h = Done (length h) (h ++ [new])%list.
Proof.
  unfold leaf.
  destruct c as [s|key value|key|key attrs [sub|]|key attrs| | |]; try discriminate.
  - destruct (valid_tag s) eqn:Ht; intros [= <-].
    cbn [child_to_element_typed child_to_element].
    exact (new_element_ok s ∅ h Ht attributes_ok_empty).
  - destruct (valid_tag key) eqn:Ht; [|discriminate]. cbn [andb].
    destruct (from_option valid_text true value) eqn:Hv; intros [= <-].
    cbn [child_to_element_typed child_to_element].
    rewrite (bind_done _ _ _ _ _ (new_element_ok key ∅ h Ht attributes_ok_empty)).
    unfold set_text. destruct value as [t|]; simpl in Hv; rewrite ?Hv;
      unfold bind, modify, ret; now rewrite alter_last.
  - destruct (valid_tag key) eqn:Ht; [|discriminate]. cbn [andb].
    destruct (attributes_ok attrs) eqn:Ha; intros [= <-].
    cbn [child_to_element_typed child_to_element].
    rewrite (bind_done _ _ _ _ _ (new_element_ok key attrs h Ht Ha)).
    reflexivity.
Qed.

Lemma leaf_parentless c new : leaf c = Some new -> parent new = None.
Proof.
  unfold leaf.
  destruct c as [s|key value|key|key attrs [sub|]|key attrs| | |]; try discriminate.
  - destruct (valid_tag s); now intros [= <-].
  - destruct (valid_tag key && from_option valid_text true value); now intros [= <-].
  - destruct (valid_tag key && attributes_ok attrs); now intros [= <-].
Qed.

(** Children without children of their own are built one after the
    other at the end of the store. *)
Lemma leaves_built md cs :
  forall news (h : store),
    mapM leaf cs = Some news ->
    children_to_nodes parse_xml md cs InYaml h
    = Done (seq (length h) (length news)) (h ++ news)%list.
Proof.
  unfold children_to_nodes.
  induction cs as [|c cs IH]; intros news h Hm.
  - apply mapM_Some in Hm. apply Forall2_nil_inv_l in Hm as ->.
    simpl. unfold ret. now rewrite app_nil_r.
  - apply mapM_Some in Hm. apply Forall2_cons_inv_l in Hm as (new & news' & Hc & Hcs & ->).
    apply mapM_Some in Hcs. cbn [map_m].
    rewrite (bind_done _ _ _ _ _ (leaf_built md c new h Hc)).
    rewrite (bind_done _ _ _ _ _ (IH news' _ Hcs)). unfold ret.
    rewrite List.length_app, <- app_assoc. simpl. f_equal. f_equal.
    f_equal. lia.
Qed.

(** Appending elements that have no parent yet. *)
Lemma extend_parentless e kids :
  forall h : store,
    NoDup kids ->
    (forall d, d ∈ kids -> exists rd, h !! d = Some rd /\ parent rd = None) ->
    extend e kids h = Done tt (foldl (fun st d => attached d e st) h kids).
Proof.
  unfold extend. induction kids as [|d kids IH]; intros h Hnd Hk; [reflexivity|].
  apply NoDup_cons in Hnd as [Hd Hnd].
  destruct (Hk d) as (rd & Hrd & Hp); [left|].
  cbn [for_in foldl].
  rewrite (bind_done _ _ _ _ _ (attach_first d e h rd Hrd Hp)).
  apply IH; [exact Hnd|].
  intros d' Hd'. destruct (Hk d') as (r' & Hr' & Hp'); [now right|].
  assert (d' <> d) by (intros ->; contradiction).
  unfold attached. rewrite list_lookup_alter_ne by congruence.
  destruct (decide (d' = e)) as [->|He].
  - rewrite list_lookup_alter_eq, Hr'. eexists. split; [reflexivity|exact Hp'].
  - rewrite list_lookup_alter_ne by congruence. eauto.
Qed.

Lemma attached_all e kids :
  forall (h : store) r,
    h !! e = Some r -> e ∉ kids ->
    let h' := foldl (fun st d => attached d e st) h kids in
    h' !! e = Some (add_children kids r)
    /\ (forall d, d ∈ kids -> h' !! d = with_parent (Some e) <$> h !! d)
    /\ (forall x, x <> e -> x ∉ kids -> h' !! x = h !! x).
Proof.
  induction kids as [|d kids IH]; intros h r Hr He.
  - simpl. split; [|split].
    + rewrite Hr. unfold add_children. rewrite app_nil_r. now destruct r.
    + intros d Hd. now apply elem_of_nil in Hd.
    + reflexivity.
  - apply not_elem_of_cons in He as [Hed He].
    assert (H1 : attached d e h !! e = Some (add_child d r)).
    { unfold attached. rewrite list_lookup_alter_ne by congruence.
      now rewrite list_lookup_alter_eq, Hr. }
    destruct (IH (attached d e h) (add_child d r) H1 He) as (Ha & Hb & Hc).
    cbn [foldl]. split; [|split].
    + rewrite Ha. unfold add_children, add_child. destruct r; simpl.
      now rewrite <- app_assoc.
    + intros x Hx. destruct (decide (x ∈ kids)) as [Hin|Hin].
      * rewrite (Hb x Hin). unfold attached.
        assert (x <> e) by (intros ->; contradiction).
        destruct (decide (x = d)) as [->|Hxd].
        -- rewrite list_lookup_alter_eq, list_lookup_alter_ne by congruence.
           now destruct (h !! d).
        -- now rewrite !list_lookup_alter_ne by congruence.
      * apply elem_of_cons in Hx as [->|Hx]; [|contradiction].
        rewrite Hc by congruence. unfold attached.
        now rewrite list_lookup_alter_eq, list_lookup_alter_ne by congruence.
    + intros x Hxe [Hxd Hx]%not_elem_of_cons. rewrite Hc by assumption.
      unfold attached. now rewrite !list_lookup_alter_ne by congruence.
Qed.

(** [add_target_children] in a real run, on a selector that matches one
    element [e], with children that have no children of their own and
    that lxml accepts: the new elements are the last children of [e], in
    the order given, each with [e] as parent; no other element of the
    document changes. *)
Theorem add_children_appends
    (md : module) (tree : nat) (xpath : string) (ns : namespaces)
    (cs : list child) (news : list element) (e : nat) (r : element) (h : store) :
  check_mode md = false ->
  mapM leaf cs = Some news ->
  xpath_eval h tree xpath ns = inr (XList [ItemElement e]) ->
  xpath_eval (h ++ news)%list tree xpath ns = inr (XList [ItemElement e]) ->
  h !! e = Some r ->
  exists h' : store,
    add_target_children xpath_eval parse_xml md tree xpath ns cs InYaml h = Done true h'
    /\ h' !! e = Some (add_children (seq (length h) (length news)) r)
    /\ (forall i new, news !! i = Some new ->
                      h' !! (length h + i) = Some (with_parent (Some e) new))
    /\ (forall x, x < length h -> x <> e -> h' !! x = h !! x).
Proof.
  intros Hmd Hm E E1 Hr.
  set (kids := seq (length h) (length news)).
  set (h1 := (h ++ news)%list).
  assert (He : e < length h) by now apply lookup_lt_Some in Hr.
  assert (Hek : e ∉ kids).
  { unfold kids. intros Hin%elem_of_seq. lia. }
  assert (Hparent : forall new, new ∈ news -> parent new = None).
  { apply mapM_Some in Hm. intros new Hin.
    apply list_elem_of_lookup in Hin as [i Hi].
    destruct (Forall2_lookup_r _ _ _ _ _ Hm Hi) as (c & _ & Hc).
    exact (leaf_parentless c new Hc). }
  assert (Hkids : forall d, d ∈ kids -> exists rd, h1 !! d = Some rd /\ parent rd = None).
  { intros d [Hlo Hhi]%elem_of_seq. unfold h1.
    rewrite lookup_app_r by lia.
    destruct (news !! (d - length h)) as [new|] eqn:Hn.
    - exists new. split; [reflexivity|]. apply Hparent.
      now apply list_elem_of_lookup_2 in Hn.
    - apply lookup_ge_None in Hn. lia. }
  assert (Hr1 : h1 !! e = Some r) by (unfold h1; now rewrite lookup_app_l).
  destruct (attached_all e kids h1 r Hr1 Hek) as (Ha & Hb & Hc).
  exists (foldl (fun st d => attached d e st) h1 kids). split; [|split; [|split]].
  - unfold add_target_children.
    rewrite (bind_done _ _ _ _ _ (is_node_element xpath_eval tree xpath ns h e [] E)).
    rewrite (bind_done _ _ _ _ _ (leaves_built md cs news h Hm)).
    unfold bind at 1, tree_xpath at 1. rewrite E1. fold kids h1.
    unfold bind at 1, iter, ret at 1. cbn [for_in]. rewrite Hmd. cbn [negb when].
    unfold bind at 1 2 3, as_element, ret at 1.
    rewrite (extend_parentless e kids h1 (NoDup_seq _ _) Hkids). reflexivity.
  - exact Ha.
  - intros i new Hi. rewrite Hb.
    + unfold h1. rewrite lookup_app_r by lia.
      replace (length h + i - length h) with i by lia. now rewrite Hi.
    + apply elem_of_seq. apply lookup_lt_Some in Hi. lia.
  - intros x Hx Hxe. rewrite Hc; [|exact Hxe|].
    + unfold h1. now rewrite lookup_app_l.
    + unfold kids. intros Hin%elem_of_seq. lia.
Qed.

(** [add_target_children] in a dry run, with children that have no
    children of their own and that lxml accepts: the verdict is [true]
    when the first match of the selector is an element and [false]
    otherwise; the children are built in the first case only, and no
    element of the document is touched. *)
Theorem add_children_dry_run
    (md : module) (tree : nat) (xpath : string) (ns : namespaces)
    (cs : list child) (news : list element) (l l' : list item) (h : store) :
  check_mode md = true ->
  mapM leaf cs = Some news ->
  xpath_eval h tree xpath ns = inr (XList l) ->
  xpath_eval (h ++ news)%list tree xpath ns = inr (XList l') ->
  add_target_children xpath_eval parse_xml md tree xpath ns cs InYaml h
  = if element_first l then Done true (h ++ news)%list else Done false h.
Proof.
  intros Hmd Hm E E1. unfold add_target_children.
  destruct l as [|[e| |] l].
  - now rewrite (bind_done _ _ _ _ _ (is_node_nothing xpath_eval tree xpath ns h E)).
  - rewrite (bind_done _ _ _ _ _ (is_node_element xpath_eval tree xpath ns h e l E)).
    rewrite (bind_done _ _ _ _ _ (leaves_built md cs news h Hm)).
    unfold bind at 1, tree_xpath at 1. rewrite E1.
    unfold bind at 1, iter, ret at 1. rewrite Hmd. cbn [negb when element_first].
    assert (Hloop : forall st : store,
               for_in l' (fun (_ : item) (_ : unit) => ret tt) tt st = Done tt st).
    { clear. induction l' as [|x l' IH]; intros st; [reflexivity|].
      cbn [for_in]. unfold bind at 1, ret at 1. apply IH. }
    unfold bind at 1. rewrite Hloop. reflexivity.
  - unfold is_node, xpath_matches, bind, tree_xpath, ret. rewrite E. simpl.
    rewrite E. reflexivity.
  - unfold is_node, xpath_matches, bind, tree_xpath, ret. rewrite E. simpl.
    rewrite E. reflexivity.
Qed.

Lemma child_refused md cs c post f :
  forall news (h : store),
    mapM leaf cs = Some news ->
    refused c = Some f ->
    children_to_nodes parse_xml md (cs ++ c :: post) InYaml h
    = FailJson f (h ++ news)%list.
Proof.
  unfold children_to_nodes.
  induction cs as [|x cs IH]; intros news h Hm Hc.
  - apply mapM_Some in Hm. apply Forall2_nil_inv_l in Hm as ->.
    rewrite app_nil_r. cbn [app map_m]. unfold bind.
    destruct c; try discriminate Hc; injection Hc as <-; reflexivity.
  - apply mapM_Some in Hm. apply Forall2_cons_inv_l in Hm as (new & news' & Hx & Hcs & ->).
    apply mapM_Some in Hcs. cbn [app map_m].
    rewrite (bind_done _ _ _ _ _ (leaf_built md x new h Hx)).
    unfold bind at 1. rewrite (IH news' _ Hcs Hc). now rewrite <- app_assoc.
Qed.


End AddChildren.

(** ** Reading a target *)

Section Readers.

Context {lx : Accepts}.

Variable xpath_eval : store -> nat -> string -> namespaces -> pyexn + xpath_result.

Lemma read_all {B} (f : element -> B) es :
  forall rs (h : store),
    Forall2 (fun e r => h !! e = Some r) es rs ->
    map_m (fun element => let* e := as_element element in
                          let* x := get e in ret (f x)) (ItemElement <$> es) h
    = Done (f <$> rs) h.
Proof.
  induction es as [|e es IH]; intros rs h H.
  - apply Forall2_nil_inv_l in H as ->. reflexivity.
  - apply Forall2_cons_inv_l in H as (r & rs' & Hr & Hrs & ->).
    cbn [fmap list_fmap map_m].
    assert (Hstep : (let* e' := as_element (ItemElement e) in
                     let* x := get e' in ret (f x)) h = Done (f r) h)
      by (unfold bind, as_element, ret, get; now rewrite Hr).
    rewrite (bind_done _ _ _ _ _ Hstep), (bind_done _ _ _ _ _ (IH rs' h Hrs)).
    reflexivity.
Qed.

(** The readers [get_element_text] and [get_element_attr] on a node-set
    [l]. When the first match is not an element, and when there is no
    match, both fail with the message of a selector that does not
    reference a node. When the matches are the elements [es], both list
    them in the order of the matches, with the tag and the text, or the
    tag and the attributes, and the document is not touched. *)
Theorem readers_list_matches
    (tree : nat) (xpath : string) (ns : namespaces) (l : list item) (h : store) :
  xpath_eval h tree xpath ns = inr (XList l) ->
  (element_first l = false ->
   get_element_text xpath_eval tree xpath ns h = TargetFailJson (NotANode xpath) h
   /\ get_element_attr xpath_eval tree xpath ns h = TargetFailJson (NotANode xpath) h)
  /\ (forall es rs,
        l = ItemElement <$> es -> es <> [] ->
        Forall2 (fun e r => h !! e = Some r) es rs ->
        get_element_text xpath_eval tree xpath ns h
        = Engine (Done ((fun r => (tag r, text r)) <$> rs) h)
        /\ get_element_attr xpath_eval tree xpath ns h
           = Engine (Done ((fun r => (tag r, attrib r)) <$> rs) h)).
Proof.
  intros E. split.
  - intros Hl.
    assert (Hn : is_node xpath_eval tree xpath ns h = Done false h).
    { unfold is_node, xpath_matches, bind, tree_xpath, ret. rewrite E.
      destruct l as [|[e| |] l]; try reflexivity; try discriminate Hl;
        simpl; rewrite E; reflexivity. }
    unfold get_element_text, get_element_attr. now rewrite Hn.
  - intros es rs -> Hne Hrs. destruct es as [|e0 es]; [now destruct Hne|].
    pose proof (is_node_element xpath_eval tree xpath ns h e0
                  (list_fmap _ _ ItemElement es) E) as Hn.
    unfold get_element_text, get_element_attr. rewrite Hn.
    assert (Hm : (let* r := tree_xpath xpath_eval tree xpath ns in iter r) h
                 = Done (ItemElement <$> e0 :: es) h)
      by (unfold bind, tree_xpath; now rewrite E).
    split; f_equal.
    + transitivity
        (bind (let* r := tree_xpath xpath_eval tree xpath ns in iter r)
           (map_m (fun element => let* e := as_element element in
                                  let* x := get e in ret (tag x, text x))) h).
      * unfold bind. now destruct (tree_xpath xpath_eval tree xpath ns h) as [[]| | |].
      * rewrite (bind_done _ _ _ _ _ Hm).
        exact (read_all (fun r => (tag r, text r)) (e0 :: es) rs h Hrs).
    + transitivity
        (bind (let* r := tree_xpath xpath_eval tree xpath ns in iter r)
           (map_m (fun element => let* e := as_element element in
                                  let* x := get e in ret (tag x, attrib x))) h).
      * unfold bind. now destruct (tree_xpath xpath_eval tree xpath ns h) as [[]| | |].
      * rewrite (bind_done _ _ _ _ _ Hm).
        exact (read_all (fun r => (tag r, attrib r)) (e0 :: es) rs h Hrs).
Qed.

End Readers.

(** ** Worked instances *)

Ltac in_store :=
  let e := fresh "e" in
  let He := fresh "He" in
  intros e He;
  repeat (apply elem_of_cons in He as [->|He]);
  [ eexists; reflexivity .. | now apply elem_of_nil in He ].

Ltac in_store_fresh :=
  let e := fresh "e" in
  let He := fresh "He" in
  intros e He;
  repeat (apply elem_of_cons in He as [->|He]);
  [ (eexists; split; [reflexivity | simpl; rewrite ?elem_of_cons, elem_of_nil; lia]) ..
  | now apply elem_of_nil in He ].

(** The hypotheses of a worked instance are settled by evaluation. *)
Ltac settle :=
  first
    [ reflexivity
    | discriminate
    | vm_compute; reflexivity
    | intros _; split; reflexivity
    | intros _; reflexivity
    | simpl; left
    | in_store
    | in_store_fresh
    | repeat constructor ].

(** The text change in a dry run on [<a><x/><y/></a>] with the context
    [/a/*]. *)
Lemma text_change_sets_text_witness :
  exists h' : store,
    apply_change Mini.xpath_eval Mini.parse_xml dry_run 0 "/a/*" ∅
      (fun _ _ => ret false) (EmptyString, VStr "v") false doc_xy
    = Done (false || some_element (fun r => differs (text r) "v") doc_xy [1; 2]) h'
    /\ each_updated (with_text (Some "v")) [1; 2] doc_xy h'.
Proof.
  apply (text_change_sets_text Mini.xpath_eval Mini.parse_xml dry_run 0 "/a/*" ∅
           (fun _ _ => ret false) "v" false [1; 2] doc_xy).
  all: settle.
Defined.

(** The attribute change [@b='2'] in a real run on [<a b="1"/>]. *)
Lemma attribute_change_sets_value_witness :
  exists h' : store,
    apply_change Mini.xpath_eval Mini.parse_xml real_run 0 "/a" ∅
      (fun _ _ => ret false) ("@b", VStr "2") false doc_a_b
    = Done (false || some_element (fun r => differs (attrib r !! "b") "2") doc_a_b [0]) h'
    /\ each_updated (set_attrib "b" "2") [0] doc_a_b h'.
Proof.
  apply (attribute_change_sets_value Mini.xpath_eval Mini.parse_xml real_run 0 "/a" ∅
           (fun _ _ => ret false) "b" "2" false [0] doc_a_b).
  all: settle.
Defined.

(** The attribute change [@b] in a real run on [<a b="1"/>]: the value
    is reset. *)
Lemma attribute_exists_resets_value_witness :
  exists h' : store,
    apply_change Mini.xpath_eval Mini.parse_xml real_run 0 "/a" ∅
      (fun _ _ => ret false) ("@b", VNone) false doc_a_b
    = Done true h'
    /\ each_updated (set_attrib "b" EmptyString) [0] doc_a_b h'.
Proof.
  apply (attribute_exists_resets_value Mini.xpath_eval Mini.parse_xml real_run 0 "/a" ∅
           (fun _ _ => ret false) "b" false [0] doc_a_b).
  all: settle.
Defined.

(** The element change [c] on [<a><x/><y/></a>] with the context [/a/*]:
    the new element ends under [y] only. *)
Lemma element_change_appends_witness :
  apply_change Mini.xpath_eval Mini.parse_xml real_run 0 "/a/*" ∅
    (fun _ _ => ret false) ("c", VNone) false doc_xy
  = Done true (attached 3 2 (doc_xy ++ [Element "c" None ∅ [] None])%list).
Proof.
  apply (element_change_appends Mini.xpath_eval Mini.parse_xml real_run 0 "/a/*" ∅
           (fun _ _ => ret false) "c" VNone false [1; 2] 2 doc_xy).
  all: settle.
Defined.


(** The comparison [/a/@b='1'] is true on [<a b="1"/>]. *)
Lemma true_value_is_no_target_witness :
  is_node Mini.xpath_eval 0 "/a/@b='1'" ∅ doc_a_b = Raised TypeError doc_a_b
  /\ ensure_xpath_exists Mini.xpath_eval Mini.parse_xml real_run 0 "/a/@b='1'" ∅ doc_a_b
     = Raised TypeError doc_a_b
  /\ add_target_children Mini.xpath_eval Mini.parse_xml real_run 0 "/a/@b='1'" ∅
       [ChildStr "c"] InYaml doc_a_b
     = Raised TypeError doc_a_b
  /\ set_target_inner Mini.xpath_eval Mini.parse_xml real_run 0 "/a/@b='1'" ∅
       None "v" doc_a_b
     = TargetFailJson (XpathCausesFailure "/a/@b='1'" TypeError) doc_a_b.
Proof.
  apply (true_value_is_no_target Mini.xpath_eval Mini.parse_xml real_run 0 "/a/@b='1'" ∅
           (XBool true) [ChildStr "c"] InYaml None "v" doc_a_b).
  - reflexivity.
  - discriminate.
  - reflexivity.
Defined.

Lemma delete_dry_run_reports_changed_witness :
  delete_xpath_target Mini.xpath_eval dry_run 0 "/a/b" ∅ doc_ab = Done true doc_ab.
Proof.
  apply (delete_dry_run_reports_changed Mini.xpath_eval dry_run 0 "/a/b" ∅
           [ItemElement 1] doc_ab).
  - reflexivity.
  - reflexivity.
Defined.

Lemma delete_removes_element_witness :
  delete_xpath_target Mini.xpath_eval real_run 0 "/a/b" ∅ doc_ab
  = Done true (alter (with_parent None) 1 (alter (drop_child 1) 0 doc_ab)).
Proof.
  apply (delete_removes_element Mini.xpath_eval real_run 0 "/a/b" ∅ 1 0
           (Element "b" None ∅ [] (Some 0)) (Element "a" None ∅ [1] None) doc_ab).
  - reflexivity.
  - reflexivity.
  - reflexivity.
  - reflexivity.
  - reflexivity.
  - simpl. left.
Defined.

Lemma delete_root_fails_witness :
  delete_xpath_target Mini.xpath_eval real_run 0 "/a" ∅ doc_a
  = FailJson (CouldntDelete "/a" AttributeError) doc_a.
Proof.
  apply (delete_root_fails Mini.xpath_eval real_run 0 "/a" ∅ 0
           (Element "a" None ∅ [] None) [] doc_a).
  - reflexivity.
  - reflexivity.
  - reflexivity.
  - reflexivity.
Defined.

Lemma delete_pops_attribute_witness :
  delete_xpath_target Mini.xpath_eval real_run 0 "/a/@b" ∅ doc_a_b
  = Done true
      (alter (with_attrib (delete "b" (attrib (Element "a" None {["b" := "1"]} [] None))))
         0 doc_a_b).
Proof.
  etransitivity.
  - apply (delete_pops_attribute Mini.xpath_eval real_run 0 "/a/@b" ∅ 0 "b" "1" "1"
             (Element "a" None {["b" := "1"]} [] None) doc_a_b).
    all: settle.
  - reflexivity.
Defined.

Lemma nsnameToClark_resolves_witness :
  nsnameToClark "x:b" {["x" := "urn:x"]} doc_a = Done "{urn:x}b" doc_a
  /\ nsnameToClark "y:b" {["x" := "urn:x"]} doc_a = Raised KeyError doc_a.
Proof.
  split.
  - exact (nsnameToClark_resolves "x" "b" {["x" := "urn:x"]} doc_a eq_refl eq_refl).
  - exact (nsnameToClark_resolves "y" "b" {["x" := "urn:x"]} doc_a eq_refl eq_refl).
Defined.

Lemma nsnameToClark_two_colons_witness :
  nsnameToClark "a:b:c" {["a" := "urn:a"]} doc_a = Raised ValueError doc_a.
Proof.
  apply (nsnameToClark_two_colons "a" "b" "c" {["a" := "urn:a"]} doc_a); reflexivity.
Defined.

(** [set_target] with the value [v] on [<a><x/><y/></a>] and [/a/*]. *)
Lemma set_target_sets_text_witness :
  exists h' : store,
    set_target Mini.xpath_eval Mini.parse_xml real_run 0 "/a/*" ∅ None "v" doc_xy
    = Engine (Done (some_element (fun r => differs (text r) "v") doc_xy [1; 2]) h')
    /\ each_updated (with_text (Some "v")) [1; 2] doc_xy h'.
Proof.
  apply (set_target_sets_text Mini.xpath_eval Mini.parse_xml real_run 0 "/a/*" ∅
           None "v" [1; 2] doc_xy).
  all: settle.
Defined.

(** [set_target] with the attribute [b] and the value [2] in a dry run
    on [<a b="1"/>]. *)
Lemma set_target_sets_attribute_witness :
  exists h' : store,
    set_target Mini.xpath_eval Mini.parse_xml dry_run 0 "/a" ∅ (Some "b") "2" doc_a_b
    = Engine (Done (some_element (fun r => differs (attrib r !! "b") "2") doc_a_b [0]) h')
    /\ h' = doc_a_b.
Proof.
  apply (set_target_sets_attribute Mini.xpath_eval Mini.parse_xml dry_run 0 "/a" ∅
           "b" "2" [0] doc_a_b).
  all: settle.
Defined.

(** [/a/b] on [<a/>]. *)
Lemma ensure_creates_element_witness :
  ensure_xpath_exists Mini.xpath_eval Mini.parse_xml real_run 0 "/a/b" ∅ doc_a
  = Done true (attached 1 0 (doc_a ++ [Element "b" None ∅ [] None])%list).
Proof.
  apply (ensure_creates_element Mini.xpath_eval Mini.parse_xml real_run 0 "/a/b" "/a"
           "b" VNone ∅ [0] 0 doc_a).
  all: settle.
Defined.

Lemma dry_run_missing_element_witness :
  ensure_xpath_exists Mini.xpath_eval Mini.parse_xml dry_run 0 "/a/b" ∅ doc_a
  = Done true (doc_a ++ [Element "b" None ∅ [] None])%list
  /\ set_target Mini.xpath_eval Mini.parse_xml dry_run 0 "/a/b" ∅ None "v" doc_a
     = TargetFailJson (NotANode "/a/b") (doc_a ++ [Element "b" None ∅ [] None])%list.
Proof.
  apply (dry_run_missing_element Mini.xpath_eval Mini.parse_xml dry_run 0 "/a/b" "/a"
           "b" VNone ∅ [0] None "v" doc_a).
  all: settle.
Defined.

Lemma set_target_creates_element_witness :
  set_target Mini.xpath_eval Mini.parse_xml real_run 0 "/a/b" ∅ None "v" doc_a
  = Engine (Done true
              (alter (with_text (Some "v")) 1
                 (attached 1 0 (doc_a ++ [Element "b" None ∅ [] None])%list))).
Proof.
  apply (set_target_creates_element Mini.xpath_eval Mini.parse_xml real_run 0 "/a/b" "/a"
           "b" ∅ [0] 0 None "v" doc_a).
  all: settle.
Defined.

(** Two children added to [<a><b/></a>] under [/a]. *)
Lemma add_children_appends_witness :
  exists h' : store,
    add_target_children Mini.xpath_eval Mini.parse_xml real_run 0 "/a" ∅
      [ChildStr "c"; ChildText "d" (Some "t")] InYaml doc_ab
    = Done true h'
    /\ h' !! 0 = Some (add_children [2; 3] (Element "a" None ∅ [1] None))
    /\ (forall i new,
          [Element "c" None ∅ [] None; Element "d" (Some "t") ∅ [] None] !! i = Some new ->
          h' !! (2 + i) = Some (with_parent (Some 0) new))
    /\ (forall x, x < 2 -> x <> 0 -> h' !! x = doc_ab !! x).
Proof.
  apply (add_children_appends Mini.xpath_eval Mini.parse_xml real_run 0 "/a" ∅
           [ChildStr "c"; ChildText "d" (Some "t")]
           [Element "c" None ∅ [] None; Element "d" (Some "t") ∅ [] None]
           0 (Element "a" None ∅ [1] None) doc_ab).
  all: settle.
Defined.

Lemma add_children_dry_run_witness :
  add_target_children Mini.xpath_eval Mini.parse_xml dry_run 0 "/a" ∅
    [ChildStr "c"] InYaml doc_ab
  = Done true (doc_ab ++ [Element "c" None ∅ [] None])%list
  /\ add_target_children Mini.xpath_eval Mini.parse_xml dry_run 0 "/a/c" ∅
       [ChildStr "c"] InYaml doc_ab
     = Done false doc_ab.
Proof.
  split.
  - apply (add_children_dry_run Mini.xpath_eval Mini.parse_xml dry_run 0 "/a" ∅
             [ChildStr "c"] [Element "c" None ∅ [] None]
             [ItemElement 0] [ItemElement 0] doc_ab); reflexivity.
  - apply (add_children_dry_run Mini.xpath_eval Mini.parse_xml dry_run 0 "/a/c" ∅
             [ChildStr "c"] [Element "c" None ∅ [] None] [] [] doc_ab); reflexivity.
Defined.

(** The readers on [<a><x/><y/></a>] with [/a/*]. *)
Lemma readers_list_matches_witness :
  get_element_text Mini.xpath_eval 0 "/a/*" ∅ doc_xy
  = Engine (Done [("x", None); ("y", None)] doc_xy)
  /\ get_element_attr Mini.xpath_eval 0 "/a/*" ∅ doc_xy
     = Engine (Done [("x", ∅); ("y", ∅)] doc_xy).
Proof.
  destruct (readers_list_matches Mini.xpath_eval 0 "/a/*" ∅
              [ItemElement 1; ItemElement 2] doc_xy) as [_ H].
  - reflexivity.
  - apply (H [1; 2] [Element "x" None ∅ [] (Some 0); Element "y" None ∅ [] (Some 0)]).
    + reflexivity.
    + discriminate.
    + repeat constructor.
Defined.

(** [/a/@b] on [<a b="1"/>]: the value is lost. *)
Lemma ensure_attribute_resets_witness :
  exists h' : store,
    ensure_xpath_exists Mini.xpath_eval Mini.parse_xml real_run 0 "/a/@b" ∅ doc_a_b
    = Done true h'
    /\ each_updated (set_attrib "b" EmptyString) [0] doc_a_b h'.
Proof.
  apply (ensure_attribute_resets Mini.xpath_eval Mini.parse_xml real_run 0 "/a/@b" "/a"
           "b" ∅ [ItemAttr 0 "b" "1"] [0] doc_a_b).
  all: settle.
Defined.

(** [/a/b[@x='1']] on [<a/>]. *)
Lemma ensure_creates_subscripted_witness :
  ensure_xpath_exists xpath_eval_predicate Mini.parse_xml real_run 0 "/a/b[@x='1']" ∅ doc_a
  = Done true
      (alter (set_attrib "x" "1") 1
         (attached 1 0 (doc_a ++ [Element "b" None ∅ [] None])%list)).
Proof.
  apply (ensure_creates_subscripted xpath_eval_predicate Mini.parse_xml real_run 0
           "/a/b[@x='1']" "/a" "b" "@x='1'" "x" "1" ∅ 0 (Element "a" None ∅ [] None) doc_a).
  all: settle.
Defined.

